(** * cv_model: the graph-attention pipeline of [base_model.py]

    A shallow embedding of the model classes of [src/base_model.py]
    ([MultiScaleFeatureExtractor], [WeightedMultiHeadGAT], [StackedGAT],
    [GCNClassifier], [FullModel], [ImageGraphPipeline], [FocalLoss]) and the
    properties the specification states about them.

    Numbers.  A tensor element is a value of [fp]: an exact real number, one
    of the two infinities, or NaN.  Arithmetic on finite values is exact real
    arithmetic (rounding and overflow are not modelled; this is what the
    specification's "within floating-point tolerance" abstracts from), and
    the infinities and NaN follow the IEEE 754 rules the tensor engine uses
    ([inf - inf], [0 * inf] and [inf / inf] are NaN, NaN is absorbing).
    There is no signed zero.

    Tensors.  A vector is a [list fp], a matrix a list of rows, a rank-3
    tensor a list of matrices; shapes are the lengths of the lists.  Shape
    failures of the tensor engine are outside the model: the theorems carry
    the shapes the constructors establish as hypotheses.

    Randomness.  The Bernoulli draws of dropout are an input of type [rng],
    a family of booleans indexed by call site and element position. *)

From Stdlib Require Import String.
From Stdlib Require Import Reals Lra Lia Bool Arith Permutation List.
Import ListNotations.

Open Scope R_scope.

(** ** Scalars *)

Inductive fp : Type :=
| Fin (r : R)
| PInf
| NInf
| NaN.

Definition finite (a : fp) : Prop :=
  match a with Fin _ => True | _ => False end.

(** The real number carried by a finite value (0 for the others). *)
Definition val (a : fp) : R :=
  match a with Fin r => r | _ => 0 end.

Definition fneg (a : fp) : fp :=
  match a with
  | Fin r => Fin (- r)
  | PInf => NInf
  | NInf => PInf
  | NaN => NaN
  end.

Definition fadd (a b : fp) : fp :=
  match a, b with
  | NaN, _ | _, NaN => NaN
  | Fin x, Fin y => Fin (x + y)
  | PInf, NInf | NInf, PInf => NaN
  | PInf, _ | _, PInf => PInf
  | NInf, _ | _, NInf => NInf
  end.

Definition fsub (a b : fp) : fp := fadd a (fneg b).

(** An infinity scaled by the real [r]: the sign follows [r], and
    [0 * inf] is NaN. *)
Definition scale_inf (r : R) (positive : bool) : fp :=
  if Rlt_dec 0 r then (if positive then PInf else NInf)
  else if Rlt_dec r 0 then (if positive then NInf else PInf)
  else NaN.

Definition fmul (a b : fp) : fp :=
  match a, b with
  | NaN, _ | _, NaN => NaN
  | Fin x, Fin y => Fin (x * y)
  | Fin x, PInf | PInf, Fin x => scale_inf x true
  | Fin x, NInf | NInf, Fin x => scale_inf x false
  | PInf, PInf | NInf, NInf => PInf
  | PInf, NInf | NInf, PInf => NInf
  end.

Definition fdiv (a b : fp) : fp :=
  match a, b with
  | NaN, _ | _, NaN => NaN
  | Fin x, Fin y => if Req_dec_T y 0 then scale_inf x true else Fin (x / y)
  | Fin _, _ => Fin 0
  | PInf, Fin y => if Rlt_dec y 0 then NInf else PInf
  | NInf, Fin y => if Rlt_dec y 0 then PInf else NInf
  | _, _ => NaN
  end.

Definition fexp (a : fp) : fp :=
  match a with
  | Fin r => Fin (exp r)
  | PInf => PInf
  | NInf => Fin 0
  | NaN => NaN
  end.

Definition fsqrt (a : fp) : fp :=
  match a with
  | Fin r => if Rlt_dec r 0 then NaN else Fin (sqrt r)
  | PInf => PInf
  | _ => NaN
  end.

(** [a > b]; every comparison with NaN is false. *)
Definition fgt (a b : fp) : bool :=
  match a, b with
  | NaN, _ | _, NaN => false
  | Fin x, Fin y => if Rlt_dec y x then true else false
  | PInf, PInf => false
  | PInf, _ => true
  | _, NInf => match a with NInf => false | _ => true end
  | _, _ => false
  end.

(** [a != 0], the test of [Tensor.nonzero]; NaN and the infinities are
    non-zero. *)
Definition fnonzero (a : fp) : bool :=
  match a with
  | Fin r => if Req_dec_T r 0 then false else true
  | _ => true
  end.

(** [torch.max] of two values: NaN propagates. *)
Definition fmax (a b : fp) : fp :=
  match a, b with
  | NaN, _ | _, NaN => NaN
  | _, _ => if fgt b a then b else a
  end.

(** ** Vectors and matrices *)

Abbreviation vector := (list fp).
Abbreviation matrix := (list (list fp)).
Abbreviation tensor3 := (list (list (list fp))).

Fixpoint zip_with {A B C} (f : A -> B -> C) (l : list A) (k : list B) : list C :=
  match l, k with
  | a :: l', b :: k' => f a b :: zip_with f l' k'
  | _, _ => []
  end.

(** [torch.sum] over a vector. *)
Definition vsum (v : vector) : fp := fold_right fadd (Fin 0) v.

Definition dot (u v : vector) : fp := vsum (zip_with fmul u v).

(** The maximum of a vector ([-inf] for the empty one). *)
Definition vmax (v : vector) : fp := fold_right fmax NInf v.

(** Column [k] of a list of rows. *)
Definition column (k : nat) (m : matrix) : vector :=
  map (fun row => nth k row NaN) m.

(** [t.transpose] of a matrix with [cols] columns. *)
Definition transpose (cols : nat) (m : matrix) : matrix :=
  map (fun k => column k m) (seq 0 cols).

(** [Tensor.view]/[reshape] of a row into pieces of width [d]: [pieces]
    consecutive chunks. *)
Fixpoint chunks (pieces d : nat) (v : vector) : matrix :=
  match pieces with
  | O => []
  | S n => firstn d v :: chunks n d (skipn d v)
  end.

(** ** Layers of [torch.nn] *)

(** [nn.Linear]: [y = x W^T + b], with [weight] of shape
    [out_features x in_features]. *)
Record Linear : Type := {
  weight : matrix;
  bias : option vector
}.

Definition linear_vec (l : Linear) (x : vector) : vector :=
  match bias l with
  | Some b => zip_with fadd (map (fun w => dot x w) (weight l)) b
  | None => map (fun w => dot x w) (weight l)
  end.

Definition linear (l : Linear) (x : matrix) : matrix := map (linear_vec l) x.

(** [F.leaky_relu(x, slope)]: [x] if [x > 0], else [x * slope]. *)
Definition leaky_relu (slope : R) (a : fp) : fp :=
  if fgt a (Fin 0) then a else fmul a (Fin slope).

(** [F.relu]: [x] if [x > 0], else 0; NaN stays NaN. *)
Definition relu (a : fp) : fp :=
  match a with
  | NaN => NaN
  | _ => if fgt a (Fin 0) then a else Fin 0
  end.

(** [F.softmax] along a vector: the engine subtracts the maximum, takes
    exponentials and divides by their sum. *)
Definition softmax (v : vector) : vector :=
  let m := vmax v in
  let e := map (fun a => fexp (fsub a m)) v in
  let s := vsum e in
  map (fun a => fdiv a s) e.

(** The Bernoulli draws of dropout: [g path] tells whether the element at
    [path] (call site, then position) is kept. *)
Definition rng := list nat -> bool.

Definition sub_rng (g : rng) (site : nat) : rng := fun path => g (site :: path).

(** [F.dropout(x, p, training)] on one element: the identity unless
    training with [p <> 0]; otherwise the element times the noise, which is
    [1 / (1 - p)] for a kept element and 0 for a dropped one (for [p = 1]
    the engine multiplies by zero). *)
Definition dropout_elem (p : R) (training : bool) (keep : bool) (a : fp) : fp :=
  if training then
    if Req_dec_T p 0 then a
    else if Req_dec_T p 1 then fmul a (Fin 0)
    else fmul a (if keep then Fin (1 / (1 - p)) else Fin 0)
  else a.

Definition dropout_vec (p : R) (training : bool) (g : rng) (v : vector) : vector :=
  map (fun '(j, a) => dropout_elem p training (g [j]) a)
      (combine (seq 0 (length v)) v).

Definition dropout_mat (p : R) (training : bool) (g : rng) (m : matrix) : matrix :=
  map (fun '(i, row) => dropout_vec p training (sub_rng g i) row)
      (combine (seq 0 (length m)) m).

(** ** Python objects: exceptions and attributes *)

Inductive error : Type :=
| AttributeError
| AssertionError
| ZeroDivisionError
| ValueError
| IndexError
| KeyError
| FileNotFoundError.

Inductive result (A : Type) : Type :=
| Ok (a : A)
| Raise (e : error).

Arguments Ok {A} a.
Arguments Raise {A} e.

Definition bind {A B} (r : result A) (k : A -> result B) : result B :=
  match r with
  | Ok a => k a
  | Raise e => Raise e
  end.

Notation "x <- r ;; k" := (bind r (fun x => k))
  (at level 61, r at next level, right associativity).
Notation "' p <- r ;; k" := (bind r (fun p => k))
  (at level 61, p pattern, r at next level, right associativity).

(** An attribute that [__init__] assigns only on some paths: reading it
    when it was never assigned raises [AttributeError]
    ([nn.Module.__getattr__]). *)
Inductive attr (A : Type) : Type :=
| Unset
| Bound (a : A).

Arguments Unset {A}.
Arguments Bound {A} a.

Definition getattr {A} (slot : attr A) : result A :=
  match slot with
  | Bound a => Ok a
  | Unset => Raise AttributeError
  end.

(** [n x m] tabulation of a real-valued initialiser. *)
Definition tabulate (rows cols : nat) (f : nat -> nat -> R) : matrix :=
  map (fun i => map (fun j => Fin (f i j)) (seq 0 cols)) (seq 0 rows).

Definition tabulate_vec (n : nat) (f : nat -> R) : vector :=
  map (fun j => Fin (f j)) (seq 0 n).

(** ** WeightedMultiHeadGAT *)

(** The attributes of a [WeightedMultiHeadGAT] instance.  [edge_encoder]
    and [res_fc] are assigned by [__init__] only under [use_edge_weights]
    and [residual]; a bound [res_fc] holds a Python value that is [None] or
    a module.  [head_fusion] is [Sequential(Linear, GELU, Dropout(dropout))]:
    the record keeps its [Linear]; its dropout rate is [dropout], and its
    training flag is the layer's. *)
Record WeightedMultiHeadGAT : Type := {
  training : bool;
  heads : nat;
  alpha : R;
  dropout : R;
  residual : bool;
  use_edge_weights : bool;
  out_features_per_head : nat;
  W : Linear;
  head_fusion : Linear;
  edge_encoder : attr Linear;
  attn_src : matrix;
  attn_dst : matrix;
  res_fc : attr (option Linear)
}.

(** The values the parameter initialisers ([nn.Linear]'s default,
    [xavier_uniform_]) draw: any reals. *)
Record gat_init : Type := {
  init_W : nat -> nat -> R;
  init_fusion_weight : nat -> nat -> R;
  init_fusion_bias : nat -> R;
  init_edge_weight : nat -> nat -> R;
  init_edge_bias : nat -> R;
  init_attn_src : nat -> nat -> R;
  init_attn_dst : nat -> nat -> R;
  init_res_weight : nat -> nat -> R;
  init_res_bias : nat -> R
}.

(** [nn.Dropout(p)] refuses a rate outside [0, 1]. *)
Definition dropout_rate_ok (p : R) : bool :=
  if Rle_dec 0 p then (if Rle_dec p 1 then true else false) else false.

(** [WeightedMultiHeadGAT.__init__]; a new module is in training mode. *)
Definition WeightedMultiHeadGAT_init (ini : gat_init)
    (in_features out_features heads edge_dim : nat) (dropout alpha : R)
    (residual use_edge_weights : bool) : result WeightedMultiHeadGAT :=
  if (heads =? 0)%nat then Raise ZeroDivisionError
  else if negb (out_features mod heads =? 0)%nat then Raise AssertionError
  else
    let out_features_per_head := (out_features / heads)%nat in
    if negb (dropout_rate_ok dropout) then Raise ValueError
    else Ok {|
      training := true;
      heads := heads;
      alpha := alpha;
      dropout := dropout;
      residual := residual;
      use_edge_weights := use_edge_weights;
      out_features_per_head := out_features_per_head;
      W := {| weight := tabulate (heads * out_features_per_head) in_features (init_W ini);
              bias := None |};
      head_fusion :=
        {| weight := tabulate out_features (heads * out_features_per_head)
                       (init_fusion_weight ini);
           bias := Some (tabulate_vec out_features (init_fusion_bias ini)) |};
      edge_encoder :=
        if use_edge_weights
        then Bound {| weight := tabulate heads edge_dim (init_edge_weight ini);
                      bias := Some (tabulate_vec heads (init_edge_bias ini)) |}
        else Unset;
      attn_src := tabulate heads out_features_per_head (init_attn_src ini);
      attn_dst := tabulate heads out_features_per_head (init_attn_dst ini);
      res_fc :=
        if residual
        then Bound (Some {| weight := tabulate (heads * out_features_per_head) in_features
                                        (init_res_weight ini);
                            bias := Some (tabulate_vec (heads * out_features_per_head)
                                            (init_res_bias ini)) |})
        else Unset
    |}.

(** [hasattr(o, 'weight')] for the value of [res_fc]. *)
Definition hasattr_weight (o : option Linear) : bool :=
  match o with Some _ => true | None => false end.

(** [o is None]. *)
Definition is_None {A} (o : option A) : bool :=
  match o with Some _ => false | None => true end.

(** The standard normal distribution function of [nn.GELU],
    [Phi(x) = (1 + erf(x / sqrt 2)) / 2], with the error function as the
    integral of the Gaussian. *)
Definition gauss (t : R) : R := exp (- (t * t)).

Lemma gauss_continuous : continuity gauss.
Proof.
  unfold gauss. apply (continuity_comp (fun t => - (t * t)) exp).
  - apply continuity_opp. apply continuity_mult; apply derivable_continuous, derivable_id.
  - apply derivable_continuous, derivable_exp.
Qed.

Definition gauss_integrable (a b : R) : Riemann_integrable gauss a b :=
  match Rle_lt_dec a b with
  | left H => continuity_implies_RiemannInt H (fun t _ => gauss_continuous t)
  | right H =>
      RiemannInt_P1
        (continuity_implies_RiemannInt (Rlt_le _ _ H) (fun t _ => gauss_continuous t))
  end.

Definition erf (x : R) : R := 2 / sqrt PI * RiemannInt (gauss_integrable 0 x).

Definition Phi (x : R) : R := 1 / 2 * (1 + erf (x / sqrt 2)).

(** [nn.GELU]: [x * Phi(x)], as the engine computes it. *)
Definition gelu (a : fp) : fp :=
  fmul a (match a with
          | Fin r => Fin (Phi r)
          | PInf => Fin 1
          | NInf => Fin 0
          | NaN => NaN
          end).

Section GATForward.

Variable self : WeightedMultiHeadGAT.
Variable g : rng.
Variables x adj_matrix : matrix.

Definition num_nodes : nat := length x.

(** Step 1: [h = W(x).view(N, heads, D)]. *)
Definition gat_h : tensor3 :=
  map (chunks (heads self) (out_features_per_head self)) (linear (W self) x).

(** Step 2: [torch.sum(h * a, dim=-1)], an [N x heads] matrix. *)
Definition head_scores (a : matrix) : matrix :=
  map (fun hn => zip_with dot hn a) gat_h.

(** [attn_src.unsqueeze(1) + attn_dst.unsqueeze(0)]: entry [i][j] is the
    vector over heads [src[i] + dst[j]]. *)
Definition pair_scores : tensor3 :=
  map (fun s_i => map (fun d_j => zip_with fadd s_i d_j) (head_scores (attn_dst self)))
      (head_scores (attn_src self)).

(** [edge_encoder(adj_matrix.unsqueeze(-1))]: the encoder applied to the
    one-element vector of each entry.  This is the call for an encoder of
    input width 1 ([edge_dim = 1]), the only width the engine accepts here;
    the statements about [forward] are made for such an encoder. *)
Definition edge_weights (enc : Linear) : tensor3 :=
  map (map (fun a => linear_vec enc [a])) adj_matrix.

Definition add3 (s t : tensor3) : tensor3 :=
  zip_with (zip_with (zip_with fadd)) s t.

Definition raw_scores : result tensor3 :=
  if use_edge_weights self then
    enc <- getattr (edge_encoder self) ;;
    Ok (add3 pair_scores (edge_weights enc))
  else Ok pair_scores.

(** Step 3: [mask = adj_matrix > 0] and
    [attn.masked_fill(~mask, -inf)]. *)
Definition mask : list (list bool) :=
  map (map (fun a => fgt a (Fin 0))) adj_matrix.

Definition masked_fill (t : tensor3) : tensor3 :=
  zip_with (zip_with (fun (keep : bool) (v : vector) =>
                        if keep then v else map (fun _ => NInf) v)) mask t.

(** Step 4: leaky ReLU, then softmax along dimension 1.  For a fixed first
    index [i] the slice is a matrix indexed [j][head]; each head's column is
    normalised over [j]. *)
Definition softmax_dim1 (t : tensor3) : tensor3 :=
  map (fun slice => transpose (length slice)
                      (map softmax (transpose (heads self) slice))) t.

Definition attention (scores : tensor3) : tensor3 :=
  softmax_dim1 (map (map (map (leaky_relu (alpha self)))) (masked_fill scores)).

Definition dropout3 (t : tensor3) : tensor3 :=
  map (fun '(i, slice) =>
         dropout_mat (dropout self) (training self) (sub_rng (sub_rng g 0) i) slice)
      (combine (seq 0 (length t)) t).

(** Step 5: [einsum('ijh,jhd->ihd', attn, h)], reshaped to
    [N x (heads * D)]. *)
Definition aggregate (attn : tensor3) : matrix :=
  map (fun attn_i =>
         concat (map (fun hd =>
                   map (fun d =>
                          vsum (zip_with (fun (a_ij : vector) (h_j : list (list fp)) =>
                                            fmul (nth hd a_ij NaN)
                                                 (nth d (nth hd h_j []) NaN))
                                         attn_i gat_h))
                       (seq 0 (out_features_per_head self)))
                 (seq 0 (heads self))))
      attn.

(** Step 6: the residual branch reads [self.res_fc]. *)
Definition add_residual (h_out : matrix) : result matrix :=
  fc <- getattr (res_fc self) ;;
  match fc with
  | Some l => Ok (zip_with (zip_with fadd) h_out (linear l x))
  | None => Ok h_out
  end.

Definition apply_head_fusion (h_out : matrix) : matrix :=
  dropout_mat (dropout self) (training self) (sub_rng g 1)
    (map (map gelu) (linear (head_fusion self) h_out)).

(** The attention weights after the softmax (before dropout). *)
Definition attention_weights : result tensor3 :=
  scores <- raw_scores ;;
  Ok (attention scores).

(** [WeightedMultiHeadGAT.forward]. *)
Definition WeightedMultiHeadGAT_forward : result matrix :=
  attn <- attention_weights ;;
  let attn := dropout3 attn in
  let h_out := aggregate attn in
  h_out <- add_residual h_out ;;
  Ok (apply_head_fusion h_out).

End GATForward.

(** ** StackedGAT *)

Record StackedGAT : Type := {
  layers : list WeightedMultiHeadGAT
}.

(** The loop that builds the layers over [zip(dims[:-1], dims[1:])]; layer
    [k] draws its initial values from [inis k]. *)
Fixpoint build_gat_layers (inis : nat -> gat_init) (k : nat) (in_dim : nat)
    (hidden_dims : list nat) (heads edge_dim : nat) (dropout : R) (residual : bool)
    : result (list WeightedMultiHeadGAT) :=
  match hidden_dims with
  | [] => Ok []
  | out_dim :: rest =>
      layer <- WeightedMultiHeadGAT_init (inis k) in_dim out_dim heads edge_dim
                 dropout (2 / 10) residual true ;;
      more <- build_gat_layers inis (S k) out_dim rest heads edge_dim dropout residual ;;
      Ok (layer :: more)
  end.

(** The dimension check: [assert h_dim % heads == 0] for each hidden
    dimension in turn. *)
Fixpoint check_hidden_dims (hidden_dims : list nat) (heads : nat) : result unit :=
  match hidden_dims with
  | [] => Ok tt
  | h_dim :: rest =>
      if (heads =? 0)%nat then Raise ZeroDivisionError
      else if negb (h_dim mod heads =? 0)%nat then Raise AssertionError
      else check_hidden_dims rest heads
  end.

(** [StackedGAT.__init__]. *)
Definition StackedGAT_init (inis : nat -> gat_init) (in_features : nat)
    (hidden_dims : list nat) (heads : nat) (dropout : R) (edge_dim : nat)
    (residual : bool) : result StackedGAT :=
  _ <- check_hidden_dims hidden_dims heads ;;
  ls <- build_gat_layers inis 0 in_features hidden_dims heads edge_dim dropout residual ;;
  Ok {| layers := ls |}.

(** [StackedGAT(in_features)] with the default arguments of [__init__]:
    [hidden_dims=[1024, 512, 256]], [heads=12], [dropout=0.3], [edge_dim=1]
    and [residual=True]. *)
Definition StackedGAT_default (inis : nat -> gat_init) (in_features : nat)
    : result StackedGAT :=
  StackedGAT_init inis in_features [1024; 512; 256]%nat 12 (3 / 10) 1 true.

(** The loop of [StackedGAT.forward]; layer [k] uses the draws
    [sub_rng g k]. *)
Fixpoint run_gat_layers (ls : list WeightedMultiHeadGAT) (k : nat) (g : rng)
    (x adj_matrix : matrix) : result matrix :=
  match ls with
  | [] => Ok x
  | layer :: rest =>
      x <- WeightedMultiHeadGAT_forward layer (sub_rng g k) x adj_matrix ;;
      run_gat_layers rest (S k) g x adj_matrix
  end.

(** [StackedGAT.forward]. *)
Definition StackedGAT_forward (self : StackedGAT) (g : rng) (x adj_matrix : matrix)
    : result matrix :=
  run_gat_layers (layers self) 0 g x adj_matrix.

(** ** Normalisation layers *)

(** [torch.mean] of a vector. *)
Definition mean (v : vector) : fp := fdiv (vsum v) (Fin (INR (length v))).

(** The biased variance around [mu]. *)
Definition variance (mu : fp) (v : vector) : fp :=
  mean (map (fun a => fmul (fsub a mu) (fsub a mu)) v).

(** The [eps] of [nn.BatchNorm1d] and [nn.LayerNorm]. *)
Definition norm_eps : R := / 10 ^ 5.

(** [(a - mu) / sqrt(var + eps) * w + b]. *)
Definition normalise_elem (mu var w b a : fp) : fp :=
  fadd (fmul (fdiv (fsub a mu) (fsqrt (fadd var (Fin norm_eps)))) w) b.

(** [nn.BatchNorm1d(num_features, affine=True)] with the default momentum
    0.1. *)
Record BatchNorm1d : Type := {
  bn_training : bool;
  bn_weight : vector;
  bn_bias : vector;
  running_mean : vector;
  running_var : vector;
  num_batches_tracked : nat
}.

Definition bn_apply (self : BatchNorm1d) (means vars : vector) (x : matrix) : matrix :=
  map (fun row =>
         map (fun c => normalise_elem (nth c means NaN) (nth c vars NaN)
                         (nth c (bn_weight self) NaN) (nth c (bn_bias self) NaN)
                         (nth c row NaN))
             (seq 0 (length (bn_weight self))))
      x.

(** The exponential moving average of a running statistic. *)
Definition update_running (old new : vector) : vector :=
  zip_with (fun o n => fadd (fmul (Fin (1 - 1 / 10)) o) (fmul (Fin (1 / 10)) n)) old new.

(** [BatchNorm1d.forward] on a [B x C] input: the result and the module
    after the call.  In training mode the batch statistics are used and the
    running statistics updated (with the unbiased variance), and a batch
    with a single value per channel is refused; in evaluation mode the
    running statistics are used and nothing changes. *)
Definition BatchNorm1d_forward (self : BatchNorm1d) (x : matrix)
    : result (matrix * BatchNorm1d) :=
  if bn_training self then
    if (length x =? 1)%nat then Raise ValueError
    else
      let cols := transpose (length (bn_weight self)) x in
      let means := map mean cols in
      let vars := zip_with variance means cols in
      let n := INR (length x) in
      let unbiased := map (fun v => fmul v (Fin (n / (n - 1)))) vars in
      Ok (bn_apply self means vars x,
          {| bn_training := true;
             bn_weight := bn_weight self;
             bn_bias := bn_bias self;
             running_mean := update_running (running_mean self) means;
             running_var := update_running (running_var self) unbiased;
             num_batches_tracked := S (num_batches_tracked self) |})
  else Ok (bn_apply self (running_mean self) (running_var self) x, self).

(** A fresh [nn.BatchNorm1d(n)]. *)
Definition BatchNorm1d_init (n : nat) : BatchNorm1d := {|
  bn_training := true;
  bn_weight := repeat (Fin 1) n;
  bn_bias := repeat (Fin 0) n;
  running_mean := repeat (Fin 0) n;
  running_var := repeat (Fin 1) n;
  num_batches_tracked := 0
|}.

(** [nn.LayerNorm(normalized_shape)] over the last dimension. *)
Record LayerNorm : Type := {
  ln_weight : vector;
  ln_bias : vector
}.

Definition LayerNorm_forward (self : LayerNorm) (x : matrix) : matrix :=
  map (fun row =>
         let mu := mean row in
         let var := variance mu row in
         map (fun c => normalise_elem mu var (nth c (ln_weight self) NaN)
                         (nth c (ln_bias self) NaN) (nth c row NaN))
             (seq 0 (length (ln_weight self))))
      x.

Definition LayerNorm_init (n : nat) : LayerNorm :=
  {| ln_weight := repeat (Fin 1) n; ln_bias := repeat (Fin 0) n |}.

(** ** MultiScaleFeatureExtractor *)

Abbreviation tensor4 := (list (list (list (list fp)))).

(** A stage of the pretrained backbone (a torchvision module): a function
    of the training flag and of a batch of feature maps.  The backbone's own
    buffers are not part of the model. *)
Definition stage : Type := bool -> tensor4 -> tensor4.

(** What [models.__dict__[cnn_type](pretrained=...)] returns. *)
Record backbone : Type := {
  stem : stage;
  layer1 : stage;
  layer2 : stage;
  layer3 : stage;
  layer4 : stage
}.

Record MultiScaleFeatureExtractor : Type := {
  cnn_type : String.string;
  output_dims : nat;
  layers_to_extract : list String.string;
  backbone_training : bool;
  initial_layers : stage;
  feature_layers : list (String.string * stage);
  fuse_linear : Linear;
  fuse_bn : BatchNorm1d
}.

Fixpoint assoc {A} (key : String.string) (l : list (String.string * A)) : result A :=
  match l with
  | [] => Raise KeyError
  | (k, v) :: rest => if String.eqb key k then Ok v else assoc key rest
  end.

Definition channel_map : list (String.string * list (String.string * nat)) :=
  [ ("resnet50"%string,
      [("layer1"%string, 256%nat); ("layer2"%string, 512%nat);
       ("layer3"%string, 1024%nat); ("layer4"%string, 2048%nat)]);
    ("resnet101"%string,
      [("layer1"%string, 256%nat); ("layer2"%string, 512%nat);
       ("layer3"%string, 1024%nat); ("layer4"%string, 2048%nat)]) ].

(** [MultiScaleFeatureExtractor._get_total_channels]. *)
Fixpoint _get_total_channels (cnn_type : String.string) (layers : list String.string)
    : result nat :=
  match layers with
  | [] => Ok O
  | layer :: rest =>
      per_layer <- assoc cnn_type channel_map ;;
      c <- assoc layer per_layer ;;
      total <- _get_total_channels cnn_type rest ;;
      Ok (c + total)%nat
  end.

(** The initial values of the fusion [nn.Linear]. *)
Record linear_init : Type := {
  init_weight : nat -> nat -> R;
  init_bias : nat -> R
}.

Definition Linear_init (ini : linear_init) (in_features out_features : nat) : Linear :=
  {| weight := tabulate out_features in_features (init_weight ini);
     bias := Some (tabulate_vec out_features (init_bias ini)) |}.

(** [MultiScaleFeatureExtractor.__init__]; [models] is the table
    [models.__dict__] of the vision library. *)
Definition MultiScaleFeatureExtractor_init (models : list (String.string * backbone))
    (ini : linear_init) (cnn_type : String.string) (output_dims : nat)
    (layers_to_extract : list String.string) : result MultiScaleFeatureExtractor :=
  net <- assoc cnn_type models ;;
  total <- _get_total_channels cnn_type layers_to_extract ;;
  Ok {| cnn_type := cnn_type;
        output_dims := output_dims;
        layers_to_extract := layers_to_extract;
        backbone_training := true;
        initial_layers := stem net;
        feature_layers := [("layer1"%string, layer1 net); ("layer2"%string, layer2 net);
                           ("layer3"%string, layer3 net); ("layer4"%string, layer4 net)];
        fuse_linear := Linear_init ini total output_dims;
        fuse_bn := BatchNorm1d_init output_dims |}.

(** The loop over [feature_layers.items()]: the recorded feature maps. *)
Fixpoint run_stages (training : bool) (to_extract : list String.string)
    (stages : list (String.string * stage)) (current_feat : tensor4) : list tensor4 :=
  match stages with
  | [] => []
  | (name, layer) :: rest =>
      let current_feat := layer training current_feat in
      if existsb (String.eqb name) to_extract
      then current_feat :: run_stages training to_extract rest current_feat
      else run_stages training to_extract rest current_feat
  end.

(** [t.shape[2:]] of a batch of feature maps. *)
Definition spatial_size (t : tensor4) : nat * nat :=
  let channel := nth 0 (nth 0 t []) [] in
  (length channel, length (nth 0 channel [])).

(** [torch.cat(ts, dim=1)]: the channels of each batch element, one
    tensor after the other. *)
Definition cat_channels (ts : list tensor4) : tensor4 :=
  map (fun b => concat (map (fun t => nth b t []) ts))
      (seq 0 (length (nth 0 ts []))).

(** [nn.AdaptiveAvgPool2d(1)] followed by [nn.Flatten()]: the mean of each
    channel. *)
Definition avg_pool_flatten (t : tensor4) : matrix :=
  map (map (fun channel => mean (concat channel))) t.

(** [F.normalize(x, p=2, dim=1)], with its default [eps = 1e-12]: each row
    divided by [max(norm, eps)]. *)
Definition l2_norm (v : vector) : fp := fsqrt (vsum (map (fun a => fmul a a) v)).

Definition normalize_eps : R := / 10 ^ 12.

Definition normalize_row (v : vector) : vector :=
  let n := fmax (l2_norm v) (Fin normalize_eps) in
  map (fun a => fdiv a n) v.

Section Extractor.

(** [F.interpolate(feat, size, mode='bilinear', align_corners=False)], a
    function of the tensor library. *)
Variable interpolate : nat * nat -> tensor4 -> tensor4.

(** The fused feature map of [forward] (everything before [self.fuse]). *)
Definition fused_features (self : MultiScaleFeatureExtractor) (x : tensor4)
    : result tensor4 :=
  let x := initial_layers self (backbone_training self) x in
  let features := run_stages (backbone_training self) (layers_to_extract self)
                    (feature_layers self) x in
  if (1 <? length features)%nat then
    let target_size := spatial_size (last features []) in
    let resized_features :=
      map (interpolate target_size) (removelast features) ++ [last features []] in
    Ok (cat_channels resized_features)
  else
    match features with
    | first :: _ => Ok first
    | [] => Raise IndexError
    end.

(** [self.fuse]: pooling, flattening, the linear layer, batch
    normalisation and ReLU. *)
Definition fuse (self : MultiScaleFeatureExtractor) (fused : tensor4)
    : result (matrix * BatchNorm1d) :=
  '(y, bn) <- BatchNorm1d_forward (fuse_bn self)
                (linear (fuse_linear self) (avg_pool_flatten fused)) ;;
  Ok (map (map relu) y, bn).

Definition with_fuse_bn (self : MultiScaleFeatureExtractor) (bn : BatchNorm1d)
    : MultiScaleFeatureExtractor :=
  {| cnn_type := cnn_type self;
     output_dims := output_dims self;
     layers_to_extract := layers_to_extract self;
     backbone_training := backbone_training self;
     initial_layers := initial_layers self;
     feature_layers := feature_layers self;
     fuse_linear := fuse_linear self;
     fuse_bn := bn |}.

(** [MultiScaleFeatureExtractor.forward]: the embeddings and the module
    after the call. *)
Definition MultiScaleFeatureExtractor_forward (self : MultiScaleFeatureExtractor)
    (x : tensor4) : result (matrix * MultiScaleFeatureExtractor) :=
  fused <- fused_features self x ;;
  '(y, bn) <- fuse self fused ;;
  Ok (map normalize_row y, with_fuse_bn self bn).

End Extractor.


(** ** GCNClassifier *)

(** [torch_geometric.nn.GCNConv(in_channels, out_channels)] with its
    defaults: a linear map without bias, symmetric normalisation with one
    self-loop per node, and a bias added after the aggregation. *)
Record GCNConv : Type := {
  gcn_lin : Linear;
  gcn_bias : vector
}.

Definition GCNConv_init (ini : linear_init) (in_channels out_channels : nat) : GCNConv :=
  {| gcn_lin := {| weight := tabulate out_channels in_channels (init_weight ini);
                   bias := None |};
     gcn_bias := tabulate_vec out_channels (init_bias ini) |}.

(** [add_remaining_self_loops]: the edges that are not self-loops, and one
    self-loop for each of the [n] nodes. *)
Definition add_remaining_self_loops (n : nat) (edges : list (nat * nat)) : list (nat * nat) :=
  filter (fun '(r, c) => negb (r =? c)%nat) edges ++ map (fun i => (i, i)) (seq 0 n).

(** The in-degree of node [c], and [deg ** -0.5] with the infinite value of
    an isolated node replaced by 0. *)
Definition in_degree (edges : list (nat * nat)) (c : nat) : nat :=
  length (filter (fun '(_, c') => (c' =? c)%nat) edges).

Definition deg_inv_sqrt (edges : list (nat * nat)) (c : nat) : R :=
  if (in_degree edges c =? 0)%nat then 0 else 1 / sqrt (INR (in_degree edges c)).

(** [GCNConv.forward(x, edge_index)]; an edge [(r, c)] carries the message
    of node [r] to node [c]. *)
Definition GCNConv_forward (self : GCNConv) (x : matrix) (edge_index : list (nat * nat))
    : matrix :=
  let n := length x in
  let edges := add_remaining_self_loops n edge_index in
  let xw := linear (gcn_lin self) x in
  map (fun c =>
         let incoming := filter (fun '(_, c') => (c' =? c)%nat) edges in
         let aggregated :=
           fold_right (fun '(r, _) acc =>
                         zip_with fadd
                           (map (fmul (Fin (deg_inv_sqrt edges r * deg_inv_sqrt edges c)))
                                (nth r xw []))
                           acc)
                      (map (fun _ => Fin 0) (gcn_bias self)) incoming in
         zip_with fadd aggregated (gcn_bias self))
      (seq 0 n).

(** The members of [GCNClassifier.layers]. *)
Inductive gcn_layer : Type :=
| LGCNConv (conv : GCNConv)
| LReLU
| LBatchNorm1d (bn : BatchNorm1d).

Record GCNClassifier : Type := {
  gcn_layers : list gcn_layer
}.

(** The loop of [GCNClassifier.__init__] over [dims]; [k] counts the
    convolutions built so far. *)
Fixpoint build_gcn_layers (inis : nat -> linear_init) (k : nat) (in_dim : nat)
    (rest_dims : list nat) : list gcn_layer :=
  match rest_dims with
  | [] => []
  | [last_dim] => [LGCNConv (GCNConv_init (inis k) in_dim last_dim)]
  | d :: rest =>
      LGCNConv (GCNConv_init (inis k) in_dim d) :: LReLU
        :: LBatchNorm1d (BatchNorm1d_init d) :: build_gcn_layers inis (S k) d rest
  end.

Definition GCNClassifier_init (inis : nat -> linear_init) (in_features num_classes : nat)
    (hidden_dims : list nat) : GCNClassifier :=
  {| gcn_layers := build_gcn_layers inis 0 in_features (hidden_dims ++ [num_classes]) |}.

(** [torch.sigmoid]. *)
Definition sigmoid (a : fp) : fp :=
  match a with
  | Fin r => Fin (1 / (1 + exp (- r)))
  | PInf => Fin 1
  | NInf => Fin 0
  | NaN => NaN
  end.

(** The loop of [GCNClassifier.forward], with the dispatch on the layer's
    class: the activations and the layers after the call. *)
Fixpoint run_gcn_layers (ls : list gcn_layer) (x : matrix) (edge_index : list (nat * nat))
    : result (matrix * list gcn_layer) :=
  match ls with
  | [] => Ok (x, [])
  | LGCNConv conv :: rest =>
      '(y, rest') <- run_gcn_layers rest (GCNConv_forward conv x edge_index) edge_index ;;
      Ok (y, LGCNConv conv :: rest')
  | LReLU :: rest =>
      '(y, rest') <- run_gcn_layers rest (map (map relu) x) edge_index ;;
      Ok (y, LReLU :: rest')
  | LBatchNorm1d bn :: rest =>
      '(x', bn') <- BatchNorm1d_forward bn x ;;
      '(y, rest') <- run_gcn_layers rest x' edge_index ;;
      Ok (y, LBatchNorm1d bn' :: rest')
  end.

(** [GCNClassifier.forward]. *)
Definition GCNClassifier_forward (self : GCNClassifier) (x : matrix)
    (edge_index : list (nat * nat)) : result (matrix * GCNClassifier) :=
  '(y, ls) <- run_gcn_layers (gcn_layers self) x edge_index ;;
  Ok (map (map sigmoid) y, {| gcn_layers := ls |}).

(** ** FullModel *)

(** [F.cosine_similarity(x1, x2, dim, eps=1e-8)] of two vectors: the dot
    product of the two vectors after each is divided by its norm, the norm
    clamped from below at [eps] (the engine's current formula; older releases
    clamp the product of the norms instead, with the same result for a zero
    vector and for vectors of norm 1). *)
Definition cosine_eps : R := / 10 ^ 8.

Definition cosine_similarity (u v : vector) : fp :=
  let nu := fmax (l2_norm u) (Fin cosine_eps) in
  let nv := fmax (l2_norm v) (Fin cosine_eps) in
  dot (map (fun a => fdiv a nu) u) (map (fun b => fdiv b nv) v).

(** The weighted adjacency matrix of [FullModel.forward]:
    [sim_matrix[i][j]] compares rows [i] and [j] of the features, and
    [adj_matrix = (sim_matrix + 1) / 2]. *)
Definition sim_matrix (features : matrix) : matrix :=
  map (fun fi => map (fun fj => cosine_similarity fi fj) features) features.

Definition build_adjacency (features : matrix) : matrix :=
  map (map (fun s => fdiv (fadd s (Fin 1)) (Fin 2))) (sim_matrix features).

(** [adj_matrix.nonzero().t()]: the index pairs of the non-zero entries,
    row by row. *)
Definition nonzero (m : matrix) : list (nat * nat) :=
  concat (map (fun '(i, row) =>
                 map (fun '(j, _) => (i, j))
                     (filter (fun '(_, a) => fnonzero a) (combine (seq 0 (length row)) row)))
              (combine (seq 0 (length m)) m)).

(** The attributes of a [FullModel]; [dropout_training] is the training
    flag of its [nn.Dropout(0.3)]. *)
Record FullModel : Type := {
  cnn : MultiScaleFeatureExtractor;
  gat : StackedGAT;
  gcn : GCNClassifier;
  dropout_training : bool;
  gat_norm : LayerNorm
}.

(** The initial values of all the parameters of a [FullModel], and the
    environment of its constructor: the model table of the vision library
    and the number of columns of [data/train_labels.csv] when the file
    exists. *)
Record full_init : Type := {
  models_table : list (String.string * backbone);
  train_labels_columns : option nat;
  init_fuse : linear_init;
  init_gat : nat -> gat_init;
  init_gcn : nat -> linear_init
}.

(** [l[-1]]. *)
Definition last_item (l : list nat) : result nat :=
  match l with
  | [] => Raise IndexError
  | _ => Ok (last l O)
  end.

(** [FullModel.__init__]. *)
Definition FullModel_init (ini : full_init) (cnn_feat_dim : nat) (gat_dims : list nat)
    (num_classes : option nat) (gat_heads : nat) (gat_dropout : R) : result FullModel :=
  num_classes <- match num_classes with
                 | Some n => Ok n
                 | None => match train_labels_columns ini with
                           | Some columns => Ok (columns - 1)%nat
                           | None => Raise FileNotFoundError
                           end
                 end ;;
  cnn <- MultiScaleFeatureExtractor_init (models_table ini) (init_fuse ini)
           "resnet50"%string cnn_feat_dim ["layer3"%string; "layer4"%string] ;;
  gat <- StackedGAT_init (init_gat ini) cnn_feat_dim gat_dims gat_heads gat_dropout 1 true ;;
  last_dim <- last_item gat_dims ;;
  let gcn := GCNClassifier_init (init_gcn ini) last_dim num_classes [256%nat] in
  last_dim <- last_item gat_dims ;;
  Ok {| cnn := cnn;
        gat := gat;
        gcn := gcn;
        dropout_training := true;
        gat_norm := LayerNorm_init last_dim |}.

Section Pipeline.

Variable interpolate : nat * nat -> tensor4 -> tensor4.

(** [FullModel.forward]: the class scores and the model after the call.
    The three dropout calls draw from [sub_rng g 0], [sub_rng g 2] and, in
    the attention stage, [sub_rng g 1]. *)
Definition FullModel_forward (self : FullModel) (g : rng) (x_img : tensor4)
    : result (matrix * FullModel) :=
  '(features, cnn') <- MultiScaleFeatureExtractor_forward interpolate (cnn self) x_img ;;
  let features := dropout_mat (3 / 10) (dropout_training self) (sub_rng g 0) features in
  let adj_matrix := build_adjacency features in
  gat_out <- StackedGAT_forward (gat self) (sub_rng g 1) features adj_matrix ;;
  let gat_out := LayerNorm_forward (gat_norm self) gat_out in
  let gat_out := map (map (leaky_relu (2 / 10))) gat_out in
  let gat_out := dropout_mat (3 / 10) (dropout_training self) (sub_rng g 2) gat_out in
  let edge_index := nonzero adj_matrix in
  '(logits, gcn') <- GCNClassifier_forward (gcn self) gat_out edge_index ;;
  Ok (logits, {| cnn := cnn';
                 gat := gat self;
                 gcn := gcn';
                 dropout_training := dropout_training self;
                 gat_norm := gat_norm self |}).

(** [nn.Module.eval()]: the training flag of every submodule is
    cleared. *)
Definition eval_bn (bn : BatchNorm1d) : BatchNorm1d :=
  {| bn_training := false;
     bn_weight := bn_weight bn;
     bn_bias := bn_bias bn;
     running_mean := running_mean bn;
     running_var := running_var bn;
     num_batches_tracked := num_batches_tracked bn |}.

Definition eval_gat (l : WeightedMultiHeadGAT) : WeightedMultiHeadGAT :=
  {| training := false;
     heads := heads l;
     alpha := alpha l;
     dropout := dropout l;
     residual := residual l;
     use_edge_weights := use_edge_weights l;
     out_features_per_head := out_features_per_head l;
     W := W l;
     head_fusion := head_fusion l;
     edge_encoder := edge_encoder l;
     attn_src := attn_src l;
     attn_dst := attn_dst l;
     res_fc := res_fc l |}.

Definition eval_gcn_layer (l : gcn_layer) : gcn_layer :=
  match l with
  | LBatchNorm1d bn => LBatchNorm1d (eval_bn bn)
  | _ => l
  end.

Definition eval_cnn (c : MultiScaleFeatureExtractor) : MultiScaleFeatureExtractor :=
  {| cnn_type := cnn_type c;
     output_dims := output_dims c;
     layers_to_extract := layers_to_extract c;
     backbone_training := false;
     initial_layers := initial_layers c;
     feature_layers := feature_layers c;
     fuse_linear := fuse_linear c;
     fuse_bn := eval_bn (fuse_bn c) |}.

Definition FullModel_eval (self : FullModel) : FullModel :=
  {| cnn := eval_cnn (cnn self);
     gat := {| layers := map eval_gat (layers (gat self)) |};
     gcn := {| gcn_layers := map eval_gcn_layer (gcn_layers (gcn self)) |};
     dropout_training := false;
     gat_norm := gat_norm self |}.

(** ** ImageGraphPipeline *)

(** The image files and the preprocessing of the wrapper:
    [Image.open(path).convert('RGB')] (absent files raise) and the composed
    transform, which yields a [C x H x W] tensor. *)
Variable image : Type.
Variable open_image : String.string -> option image.
Variable preprocess : image -> list (list (list fp)).

(** The wrapper's state: the wrapped model, and the gradient mode of the
    interpreter. *)
Record pipeline_state : Type := {
  model : FullModel;
  grad_enabled : bool
}.

(** A tensor returned to the caller, with its [requires_grad] flag. *)
Record returned : Type := {
  values : vector;
  requires_grad : bool
}.

(** [ImageGraphPipeline.forward]: the result (or the exception) and the
    state after the call.  [self.model.eval()] persists; the gradient mode
    is switched off for the block and restored when the block is left. *)
Definition ImageGraphPipeline_forward (s : pipeline_state) (g : rng)
    (image_path : String.string) : result returned * pipeline_state :=
  let m := FullModel_eval (model s) in
  let previous := grad_enabled s in
  let grad := false in
  match open_image image_path with
  | None => (Raise FileNotFoundError, {| model := m; grad_enabled := previous |})
  | Some img =>
      let img_tensor := [preprocess img] in
      match FullModel_forward m g img_tensor with
      | Raise e => (Raise e, {| model := m; grad_enabled := previous |})
      | Ok (output, m') =>
          (match output with
           | row :: _ => Ok {| values := row; requires_grad := grad |}
           | [] => Raise IndexError
           end,
           {| model := m'; grad_enabled := previous |})
      end
  end.

End Pipeline.

(** ** FocalLoss *)

Definition flog (a : fp) : fp :=
  match a with
  | Fin r => if Rlt_dec 0 r then Fin (ln r)
             else if Req_dec_T r 0 then NInf else NaN
  | PInf => PInf
  | _ => NaN
  end.

(** [F.binary_cross_entropy_with_logits(x, t, reduction='none')] on one
    element, in the engine's log-sum-exp form:
    [(1 - t) * x + m + log(exp(-m) + exp(-x - m))] with [m = max(-x, 0)]. *)
Definition bce_with_logits (x t : fp) : fp :=
  let m := fmax (fneg x) (Fin 0) in
  fadd (fadd (fmul (fsub (Fin 1) t) x) m)
       (flog (fadd (fexp (fneg m)) (fexp (fsub (fneg x) m)))).

(** Binary cross-entropy of a probability [p] against the target [t]:
    [-(t * log p + (1 - t) * log (1 - p))]. *)
Definition bce (p t : fp) : fp :=
  fneg (fadd (fmul t (flog p)) (fmul (fsub (Fin 1) t) (flog (fsub (Fin 1) p)))).

Fixpoint same_shape (a b : matrix) : bool :=
  match a, b with
  | [], [] => true
  | u :: a', v :: b' => (length u =? length v)%nat && same_shape a' b'
  | _, _ => false
  end.

Record FocalLoss : Type := {
  focal_gamma : R;
  focal_alpha : R
}.

Definition FocalLoss_init (gamma alpha : R) : FocalLoss :=
  {| focal_gamma := gamma; focal_alpha := alpha |}.

(** The logistic sigmoid of a real number, and the binary cross-entropy
    [-(t * ln p + (1 - t) * ln (1 - p))] of a probability [p] against a
    target [t], as the specification words them. *)
Definition logistic (x : R) : R := 1 / (1 + exp (- x)).

Definition cross_entropy (p t : R) : R := - (t * ln p + (1 - t) * ln (1 - p)).

Section Focal.

(** [tensor ** exponent] on one element ([torch.pow] with a scalar
    exponent). *)
Variable torch_pow : fp -> R -> fp.

(** The focal weighting of one cross-entropy value. *)
Definition focal_term (self : FocalLoss) (bce_loss : fp) : fp :=
  let pt := fexp (fneg bce_loss) in
  fmul (fmul (Fin (focal_alpha self)) (torch_pow (fsub (Fin 1) pt) (focal_gamma self)))
       bce_loss.

(** [FocalLoss.forward]; the cross-entropy refuses a target whose shape
    differs from the input's. *)
Definition FocalLoss_forward (self : FocalLoss) (inputs targets : matrix) : result fp :=
  if same_shape inputs targets then
    let bce_loss := zip_with (zip_with bce_with_logits) inputs targets in
    let focal_loss := map (map (focal_term self)) bce_loss in
    Ok (mean (concat focal_loss))
  else Raise ValueError.

(** The loss the specification describes, on a real logit [x] and a real
    target [t]: [alpha * (1 - exp(-b))^gamma * b], where [b] is the binary
    cross-entropy of the probability [logistic x] against [t]. *)
Definition focal_of_logit (gamma alpha x t : R) : fp :=
  let b := cross_entropy (logistic x) t in
  fmul (fmul (Fin alpha) (torch_pow (Fin (1 - exp (- b))) gamma)) (Fin b).

(** The mean of it over the elements. *)
Definition focal_of_logits (gamma alpha : R) (xs ts : list (list R)) : fp :=
  mean (concat (zip_with (zip_with (focal_of_logit gamma alpha)) xs ts)).

End Focal.

(** ** Sample inputs *)

(** Initial parameter values that are all 1. *)
Definition sample_init : gat_init := {|
  init_W := fun _ _ => 1;
  init_fusion_weight := fun _ _ => 1;
  init_fusion_bias := fun _ => 1;
  init_edge_weight := fun _ _ => 1;
  init_edge_bias := fun _ => 1;
  init_attn_src := fun _ _ => 1;
  init_attn_dst := fun _ _ => 1;
  init_res_weight := fun _ _ => 1;
  init_res_bias := fun _ => 1
|}.

(** The layer [WeightedMultiHeadGAT(1, 1, heads=1)] with these values. *)
Definition sample_layer : WeightedMultiHeadGAT := {|
  training := true;
  heads := 1;
  alpha := 2 / 10;
  dropout := 3 / 10;
  residual := true;
  use_edge_weights := true;
  out_features_per_head := 1;
  W := {| weight := [[Fin 1]]; bias := None |};
  head_fusion := {| weight := [[Fin 1]]; bias := Some [Fin 1] |};
  edge_encoder := Bound {| weight := [[Fin 1]]; bias := Some [Fin 1] |};
  attn_src := [[Fin 1]];
  attn_dst := [[Fin 1]];
  res_fc := Bound (Some {| weight := [[Fin 1]]; bias := Some [Fin 1] |})
|}.

(** Two nodes; the second one has no positive adjacency entry. *)
Definition sample_x : matrix := [[Fin 1]; [Fin 2]].
Definition sample_adj : matrix := [[Fin 1; Fin (1 / 2)]; [Fin 0; Fin 0]].

(** Dropout draws that keep every element. *)
Definition keep_all : rng := fun _ => true.

(** A stand-in for the pretrained network: the stem and the first two
    stages pass their input on, and the last two stages give every image
    1024 and 2048 feature maps of size 1 x 1 holding 1. *)
Definition sample_backbone : backbone := {|
  stem := fun _ t => t;
  layer1 := fun _ t => t;
  layer2 := fun _ t => t;
  layer3 := fun _ t => map (fun _ => repeat [[Fin 1]] 1024) t;
  layer4 := fun _ t => map (fun _ => repeat [[Fin 1]] 2048) t
|}.

Definition sample_models : list (String.string * backbone) :=
  [("resnet50"%string, sample_backbone)].

Definition sample_linear_init : linear_init :=
  {| init_weight := fun _ _ => 1; init_bias := fun _ => 0 |}.

(** [MultiScaleFeatureExtractor('resnet50', True, 2, ['layer4'])], freshly
    constructed (training mode). *)
Definition sample_extractor : MultiScaleFeatureExtractor := {|
  cnn_type := "resnet50"%string;
  output_dims := 2;
  layers_to_extract := ["layer4"%string];
  backbone_training := true;
  initial_layers := stem sample_backbone;
  feature_layers := [("layer1"%string, layer1 sample_backbone);
                     ("layer2"%string, layer2 sample_backbone);
                     ("layer3"%string, layer3 sample_backbone);
                     ("layer4"%string, layer4 sample_backbone)];
  fuse_linear := Linear_init sample_linear_init 2048 2;
  fuse_bn := BatchNorm1d_init 2
|}.

(** A batch of two identical images. *)
Definition sample_image : list (list (list fp)) := [[[Fin 0]]].
Definition sample_images : tensor4 := [sample_image; sample_image].

Definition no_interpolation : nat * nat -> tensor4 -> tensor4 := fun _ t => t.

(** The environment and the initial values of a sample [FullModel]. *)
Definition sample_full_init : full_init := {|
  models_table := sample_models;
  train_labels_columns := None;
  init_fuse := sample_linear_init;
  init_gat := fun _ => sample_init;
  init_gcn := fun _ => sample_linear_init
|}.

(** Four images of shape 3 x 224 x 224. *)
Definition sample_batch : tensor4 :=
  repeat (repeat (repeat (repeat (Fin 0) 224) 224) 3) 4.

Definition sample_fused_maps : tensor4 :=
  repeat (repeat [[Fin 1]] 1024 ++ repeat [[Fin 1]] 2048 ++ []) 4.

(** The sample layer as [use_edge_weights=False] builds it: no
    [edge_encoder]. *)
Definition sample_layer_without_edge_weights : WeightedMultiHeadGAT := {|
  training := true;
  heads := 1;
  alpha := 2 / 10;
  dropout := 3 / 10;
  residual := true;
  use_edge_weights := false;
  out_features_per_head := 1;
  W := {| weight := [[Fin 1]]; bias := None |};
  head_fusion := {| weight := [[Fin 1]]; bias := Some [Fin 1] |};
  edge_encoder := Unset;
  attn_src := [[Fin 1]];
  attn_dst := [[Fin 1]];
  res_fc := Bound (Some {| weight := [[Fin 1]]; bias := Some [Fin 1] |})
|}.

(** The square, [torch.pow(x, 2.0)] on real numbers. *)
Definition sample_pow : fp -> R -> fp := fun a _ => fmul a a.

(** * Shapes, invariants and auxiliary notions *)

(** The sum of a list of real numbers. *)
Definition sumR (l : list R) : R := fold_right Rplus 0 l.

(** A score after masking: a real number or [-inf]. *)
Definition real_or_ninf (a : fp) : Prop :=
  match a with Fin _ | NInf => True | _ => False end.

(** Vectors, matrices and rank-3 tensors of real numbers, and linear layers
    with real parameters. *)
Abbreviation finite_vec := (Forall finite).

Abbreviation finite_mat := (Forall (Forall finite)).

Abbreviation finite3 := (Forall (Forall (Forall finite))).

Definition finite_linear (l : Linear) : Prop :=
  finite_mat (weight l) /\ match bias l with Some b => finite_vec b | None => True end.

(** A matrix of shape [rows x cols]. *)
Definition has_shape (rows cols : nat) (m : matrix) : Prop :=
  length m = rows /\ Forall (fun r => length r = cols) m.

(** The parameters of [nn.Linear(in_features, out_features)]. *)
Definition linear_shape (in_features out_features : nat) (l : Linear) : Prop :=
  has_shape out_features in_features (weight l)
  /\ match bias l with Some b => length b = out_features | None => True end.

(** The exponentials of a row of masked scores, shifted by a real [m]. *)
Definition shifted_exp (m : R) (a : fp) : R :=
  match a with Fin r => exp (r - m) | _ => 0 end.

(** [a x b x c]. *)
Definition shape3 (a b c : nat) (t : tensor3) : Prop :=
  length t = a /\ Forall (has_shape b c) t.

(** What [WeightedMultiHeadGAT.__init__] establishes for a layer from
    [in_features] to [out_features], and what training keeps: the shapes of
    the parameters, real parameter values, and the attributes that are
    bound. *)
Record gat_ok (in_features out_features : nat) (m : WeightedMultiHeadGAT) : Prop := {
  ok_out : out_features = (heads m * out_features_per_head m)%nat;
  ok_W : linear_shape in_features out_features (W m) /\ finite_linear (W m);
  ok_fusion : linear_shape out_features out_features (head_fusion m)
              /\ finite_linear (head_fusion m);
  ok_src : has_shape (heads m) (out_features_per_head m) (attn_src m)
           /\ finite_mat (attn_src m);
  ok_dst : has_shape (heads m) (out_features_per_head m) (attn_dst m)
           /\ finite_mat (attn_dst m);
  ok_edge : use_edge_weights m = true ->
            exists enc, edge_encoder m = Bound enc
                        /\ linear_shape 1 (heads m) enc /\ finite_linear enc;
  ok_res : exists o, res_fc m = Bound o
                     /\ match o with
                        | Some l => linear_shape in_features out_features l /\ finite_linear l
                        | None => True
                        end
}.

(** The mask test [a > 0] and its negation. *)
Definition positive (a : fp) : Prop := fgt a (Fin 0) = true.

Definition not_positive (a : fp) : Prop := fgt a (Fin 0) = false.

(** A matrix of real numbers as a tensor. *)
Definition lift (rows : list (list R)) : matrix := map (map Fin) rows.

(** The dot product of two real vectors. *)
Definition dotR (a b : list R) : R := sumR (zip_with Rmult a b).

(** The sum of the squares, and the L2 norm, of a real vector. *)
Definition sumsqR (v : list R) : R := sumR (map (fun r => r * r) v).

Definition norm2R (v : list R) : R := sqrt (sumsqR v).

(** A real number between 0 and 1. *)
Definition unit_interval (a : fp) : Prop := exists r, a = Fin r /\ 0 <= r <= 1.

(** A real number that is not negative. *)
Definition nonneg (a : fp) : Prop := finite a /\ 0 <= val a.

(** The parameters and buffers of [nn.BatchNorm1d(n)]: [n] real values
    each, and running variances that are not negative. *)
Record bn_ok (n : nat) (bn : BatchNorm1d) : Prop := {
  bn_weight_ok : length (bn_weight bn) = n /\ finite_vec (bn_weight bn);
  bn_bias_ok : length (bn_bias bn) = n /\ finite_vec (bn_bias bn);
  bn_mean_ok : length (running_mean bn) = n /\ finite_vec (running_mean bn);
  bn_var_ok : length (running_var bn) = n /\ Forall nonneg (running_var bn)
}.

(** Batch normalisation accepts a batch unless it is training on a single
    row. *)
Definition bn_accepts (bn : BatchNorm1d) (b : nat) : Prop :=
  bn_training bn = true -> b <> 1%nat.

(** The parameters of [nn.LayerNorm(n)]. *)
Record ln_ok (n : nat) (ln : LayerNorm) : Prop := {
  ln_weight_ok : length (ln_weight ln) = n /\ finite_vec (ln_weight ln);
  ln_bias_ok : length (ln_bias ln) = n /\ finite_vec (ln_bias ln)
}.

(** The fused feature maps of a batch of [b] images: [c] channels per
    image, each a non-empty map of real numbers. *)
Definition maps_ok (b c : nat) (fused : tensor4) : Prop :=
  length fused = b
  /\ Forall (fun sample =>
               length sample = c
               /\ Forall (fun channel => concat channel <> [] /\ finite_vec (concat channel))
                         sample)
            fused.

(** The learned part of an extractor that fuses [c] channels into [d]
    dimensions. *)
Record cnn_ok (c d : nat) (self : MultiScaleFeatureExtractor) : Prop := {
  cnn_linear_ok : linear_shape c d (fuse_linear self) /\ finite_linear (fuse_linear self);
  cnn_bn_ok : bn_ok d (fuse_bn self)
}.

(** A chain of well-formed layers with positive slopes, from width
    [in_dim] to width [out_dim]. *)
Fixpoint stack_ok (in_dim : nat) (ls : list WeightedMultiHeadGAT) (out_dim : nat) : Prop :=
  match ls with
  | [] => in_dim = out_dim
  | l :: rest =>
      exists mid, gat_ok in_dim mid l /\ 0 < alpha l /\ stack_ok mid rest out_dim
  end.

(** The parameters of [GCNConv(i, o)]. *)
Definition conv_ok (i o : nat) (conv : GCNConv) : Prop :=
  linear_shape i o (gcn_lin conv) /\ finite_linear (gcn_lin conv)
  /\ length (gcn_bias conv) = o /\ finite_vec (gcn_bias conv).

(** The edges join nodes of a graph with [n] nodes. *)
Definition edges_in_range (n : nat) (edges : list (nat * nat)) : Prop :=
  Forall (fun e => (fst e < n)%nat /\ (snd e < n)%nat) edges.

(** A chain of classifier layers from width [in_dim] to width
    [out_dim]. *)
Fixpoint gcn_ok (in_dim : nat) (ls : list gcn_layer) (out_dim : nat) : Prop :=
  match ls with
  | [] => in_dim = out_dim
  | LGCNConv conv :: rest => exists mid, conv_ok in_dim mid conv /\ gcn_ok mid rest out_dim
  | LReLU :: rest => gcn_ok in_dim rest out_dim
  | LBatchNorm1d bn :: rest => bn_ok in_dim bn /\ gcn_ok in_dim rest out_dim
  end.

(** Every batch normalisation of the classifier accepts a batch of [b]
    rows. *)
Definition gcn_accepts (ls : list gcn_layer) (b : nat) : Prop :=
  Forall (fun l => match l with LBatchNorm1d bn => bn_accepts bn b | _ => True end) ls.

(** What [FullModel.__init__] establishes, and training keeps, for a model
    whose backbone yields [c] channels, with embeddings of width [d],
    refined embeddings of width [dn] and [k] classes. *)
Record full_ok (c d dn k : nat) (m : FullModel) : Prop := {
  full_cnn_ok : cnn_ok c d (cnn m);
  full_gat_ok : stack_ok d (layers (gat m)) dn;
  full_norm_ok : ln_ok dn (gat_norm m);
  full_gcn_ok : gcn_ok dn (gcn_layers (gcn m)) k
}.

(** Every training flag of the model is cleared. *)
Definition in_eval_mode (m : FullModel) : Prop :=
  backbone_training (cnn m) = false
  /\ bn_training (fuse_bn (cnn m)) = false
  /\ Forall (fun l => training l = false) (layers (gat m))
  /\ Forall (fun l => match l with
                      | LBatchNorm1d bn => bn_training bn = false
                      | _ => True
                      end) (gcn_layers (gcn m))
  /\ dropout_training m = false.

(** One destination node's row of scores after [masked_fill] and
    [leaky_relu]: [adj_i] is the node's adjacency row and [t_i] its row of
    raw scores. *)
Definition score_row (slope : R) (adj_i : vector) (t_i : matrix) : matrix :=
  map (map (leaky_relu slope))
      (zip_with (fun (keep : bool) (v : vector) => if keep then v else map (fun _ => NInf) v)
                (map (fun a => fgt a (Fin 0)) adj_i) t_i).

(** The row after the softmax along the source axis. *)
Definition normalised_row (slope : R) (hd_count : nat) (adj_i : vector) (t_i : matrix)
    : matrix :=
  transpose (length (score_row slope adj_i t_i))
            (map softmax (transpose hd_count (score_row slope adj_i t_i))).

(** One row of [aggregate]. *)
Definition aggregate_row (m : WeightedMultiHeadGAT) (x : matrix) (attn_i : matrix) : vector :=
  concat (map (fun hd =>
            map (fun d =>
                   vsum (zip_with (fun (a_ij : vector) (h_j : list (list fp)) =>
                                     fmul (nth hd a_ij NaN) (nth d (nth hd h_j []) NaN))
                                  attn_i (gat_h m x)))
                (seq 0 (out_features_per_head m)))
          (seq 0 (heads m))).

(** The row of node [i] in the result of [forward], in terms of the row of
    attention weights of node [i] and of the value of [res_fc]. *)
Definition output_row (m : WeightedMultiHeadGAT) (g : rng) (x : matrix) (i : nat)
    (attn_i : matrix) (res : option Linear) : vector :=
  let attn_i := dropout_mat (dropout m) (training m) (sub_rng (sub_rng g 0) i) attn_i in
  let h_i := aggregate_row m x attn_i in
  let h_i := match res with
             | Some l => zip_with fadd h_i (linear_vec l (nth i x []))
             | None => h_i
             end in
  dropout_vec (dropout m) (training m) (sub_rng (sub_rng g 1) i)
    (map gelu (linear_vec (head_fusion m) h_i)).

(** The backbones and the stages that the channel table of
    [_get_total_channels] knows, and the width the table gives a stage. *)
Definition known_backbone (name : String.string) : Prop :=
  name = "resnet50"%string \/ name = "resnet101"%string.

Definition known_layer (name : String.string) : Prop :=
  In name ["layer1"%string; "layer2"%string; "layer3"%string; "layer4"%string].

Definition layer_channels (name : String.string) : nat :=
  if String.eqb name "layer1" then 256
  else if String.eqb name "layer2" then 512
  else if String.eqb name "layer3" then 1024
  else if String.eqb name "layer4" then 2048
  else 0.

(** A classifier layer that is a graph convolution. *)
Definition is_conv (l : gcn_layer) : Prop :=
  match l with LGCNConv _ => True | _ => False end.

(** A real number between 1/2 and 1: the adjacency weight of two
    embeddings without negative entries. *)
Definition upper_half (a : fp) : Prop := exists r, a = Fin r /\ 1 / 2 <= r <= 1.

(** The edges of the complete graph on [n] nodes, self-loops included, row
    by row. *)
Definition complete_graph (n : nat) : list (nat * nat) := list_prod (seq 0 n) (seq 0 n).

(** The class count [FullModel.__init__] uses: its argument, or one less
    than the number of columns of the label file. *)
Definition class_count (ini : full_init) (num_classes : option nat) : option nat :=
  match num_classes with
  | Some n => Some n
  | None => match train_labels_columns ini with
            | Some columns => Some (columns - 1)%nat
            | None => None
            end
  end.

(** * Properties *)

(** ** Arithmetic of [fp] *)

Lemma finite_val a : finite a -> a = Fin (val a).
Proof. destruct a; simpl; intros H; try contradiction. reflexivity. Qed.

Lemma finite_fadd a b : finite a -> finite b -> finite (fadd a b).
Proof. destruct a, b; simpl; tauto. Qed.

Lemma finite_fmul a b : finite a -> finite b -> finite (fmul a b).
Proof. destruct a, b; simpl; tauto. Qed.

Lemma fadd_NaN_r a : fadd a NaN = NaN.
Proof. destruct a; reflexivity. Qed.

Lemma scale_inf_pos r b : 0 < r -> scale_inf r b = if b then PInf else NInf.
Proof. intros H. unfold scale_inf. destruct (Rlt_dec 0 r); [reflexivity|contradiction]. Qed.

Lemma leaky_relu_finite slope a : finite a -> finite (leaky_relu slope a).
Proof.
  intros H. unfold leaky_relu. destruct (fgt a (Fin 0)); [assumption|].
  apply finite_fmul; simpl; auto.
Qed.

Lemma leaky_relu_NInf slope : 0 < slope -> leaky_relu slope NInf = NInf.
Proof. intros H. unfold leaky_relu. simpl. apply (scale_inf_pos slope false H). Qed.

(** Whatever the slope, [-inf] goes to a value that is not a real number. *)
Lemma leaky_relu_NInf_cases slope :
  leaky_relu slope NInf = NInf \/ leaky_relu slope NInf = PInf
  \/ leaky_relu slope NInf = NaN.
Proof.
  unfold leaky_relu. simpl. unfold scale_inf.
  destruct (Rlt_dec 0 slope); [auto|]. destruct (Rlt_dec slope 0); auto.
Qed.

Lemma relu_finite a : finite a -> finite (relu a) /\ 0 <= val (relu a).
Proof.
  destruct a; simpl; try tauto. intros _.
  destruct (Rlt_dec 0 r); simpl; split; auto; lra.
Qed.

Lemma dropout_elem_finite p tr k a : finite a -> finite (dropout_elem p tr k a).
Proof.
  intros H. unfold dropout_elem. destruct tr; [|assumption].
  destruct (Req_dec_T p 0); [assumption|].
  destruct (Req_dec_T p 1); [apply finite_fmul; simpl; auto|].
  apply finite_fmul; [assumption|]. destruct k; simpl; auto.
Qed.

Lemma dropout_elem_NaN p tr k : dropout_elem p tr k NaN = NaN.
Proof.
  unfold dropout_elem. destruct tr; [|reflexivity].
  destruct (Req_dec_T p 0); [reflexivity|]. destruct (Req_dec_T p 1); reflexivity.
Qed.

(** ** Sums, dot products and linear layers *)

Lemma zip_with_length {A B C} (f : A -> B -> C) l k :
  length (zip_with f l k) = Nat.min (length l) (length k).
Proof.
  revert k. induction l as [|a l IH]; intros [|b k]; simpl; auto.
Qed.

Lemma zip_with_Forall {A B C} (f : A -> B -> C) (P : A -> Prop) (Q : B -> Prop)
    (S : C -> Prop) l k :
  (forall a b, P a -> Q b -> S (f a b)) ->
  Forall P l -> Forall Q k -> Forall S (zip_with f l k).
Proof.
  intros Hf Hl. revert k. induction Hl as [|a l Ha Hl IH]; intros k Hk; simpl.
  - constructor.
  - destruct Hk as [|b k Hb Hk]; constructor; auto.
Qed.

Lemma zip_with_nth {A B C} (f : A -> B -> C) l k n da db dc :
  (n < length l)%nat -> (n < length k)%nat ->
  nth n (zip_with f l k) dc = f (nth n l da) (nth n k db).
Proof.
  revert k n. induction l as [|a l IH]; intros [|b k] [|n] Hl Hk; simpl in *;
    try lia; auto. apply IH; lia.
Qed.

Lemma vsum_finite v : Forall finite v -> finite (vsum v).
Proof.
  induction 1 as [|a v Ha Hv IH]; simpl; auto. apply finite_fadd; assumption.
Qed.

Lemma vsum_cons a v : vsum (a :: v) = fadd a (vsum v).
Proof. reflexivity. Qed.

Lemma vsum_Fin rs : vsum (map Fin rs) = Fin (sumR rs).
Proof.
  induction rs as [|r rs IH]; [reflexivity|].
  cbn [map]. rewrite vsum_cons, IH. reflexivity.
Qed.

Lemma vsum_NaN v : In NaN v -> vsum v = NaN.
Proof.
  induction v as [|a v IH]; [intros []|]. rewrite vsum_cons.
  intros [->|H]; [reflexivity|]. rewrite (IH H). apply fadd_NaN_r.
Qed.

Lemma Forall_finite_map_val v : Forall finite v -> v = map Fin (map val v).
Proof.
  induction 1 as [|a v Ha Hv IH]; simpl; [reflexivity|].
  rewrite <- IH. rewrite <- (finite_val a Ha). reflexivity.
Qed.

Lemma Forall_finite_map_Fin rs : Forall finite (map Fin rs).
Proof. induction rs; simpl; constructor; simpl; auto. Qed.

Lemma dot_finite u v : Forall finite u -> Forall finite v -> finite (dot u v).
Proof.
  intros Hu Hv. apply vsum_finite.
  apply (zip_with_Forall fmul finite finite finite); auto using finite_fmul.
Qed.

Lemma linear_vec_finite l v :
  finite_linear l -> finite_vec v -> finite_vec (linear_vec l v).
Proof.
  intros [Hw Hb] Hv. unfold linear_vec.
  assert (Hd : Forall finite (map (fun w => dot v w) (weight l))).
  { apply Forall_map. eapply Forall_impl; [|exact Hw].
    intros w Hfw. apply dot_finite; assumption. }
  destruct (bias l) as [b|]; [|exact Hd].
  apply (zip_with_Forall fadd finite finite finite); auto using finite_fadd.
Qed.

Lemma linear_vec_length i o l v :
  linear_shape i o l -> length (linear_vec l v) = o.
Proof.
  intros [[Hlen _] Hb]. unfold linear_vec.
  destruct (bias l) as [b|].
  - rewrite zip_with_length, length_map. lia.
  - rewrite length_map. assumption.
Qed.

Lemma linear_finite l m : finite_linear l -> finite_mat m -> finite_mat (linear l m).
Proof.
  intros Hl Hm. unfold linear. apply Forall_map.
  eapply Forall_impl; [|exact Hm]. intros v Hv. apply linear_vec_finite; assumption.
Qed.

Lemma linear_shape_out i o l m :
  linear_shape i o l -> has_shape (length m) o (linear l m).
Proof.
  intros Hl. unfold linear. split; [apply length_map|].
  apply Forall_map. apply Forall_forall. intros v _. eapply linear_vec_length; eauto.
Qed.

Lemma tabulate_shape r c f : has_shape r c (tabulate r c f).
Proof.
  unfold tabulate. split.
  - rewrite length_map, length_seq. reflexivity.
  - apply Forall_map. apply Forall_forall. intros i _.
    rewrite length_map, length_seq. reflexivity.
Qed.

Lemma tabulate_finite r c f : finite_mat (tabulate r c f).
Proof.
  unfold tabulate. apply Forall_map. apply Forall_forall. intros i _.
  apply Forall_map. apply Forall_forall. intros j _. exact I.
Qed.

Lemma tabulate_vec_finite n f : finite_vec (tabulate_vec n f).
Proof. unfold tabulate_vec. apply Forall_map. apply Forall_forall. intros; exact I. Qed.

Lemma tabulate_vec_length n f : length (tabulate_vec n f) = n.
Proof. unfold tabulate_vec. rewrite length_map, length_seq. reflexivity. Qed.

(** ** Construction of a layer and its residual attribute *)

Lemma WeightedMultiHeadGAT_init_ok ini in_features out_features hd edge_dim p a res uew :
  hd <> O -> (out_features mod hd = 0)%nat -> 0 <= p <= 1 ->
  exists m, WeightedMultiHeadGAT_init ini in_features out_features hd edge_dim p a res uew = Ok m
    /\ heads m = hd
    /\ out_features_per_head m = (out_features / hd)%nat
    /\ training m = true
    /\ res_fc m = (if res
                   then Bound (Some {| weight := tabulate (hd * (out_features / hd)) in_features
                                                   (init_res_weight ini);
                                       bias := Some (tabulate_vec (hd * (out_features / hd))
                                                       (init_res_bias ini)) |})
                   else Unset).
Proof.
  intros Hh Hm Hp. unfold WeightedMultiHeadGAT_init.
  destruct (Nat.eqb_spec hd 0) as [E|_]; [contradiction|].
  rewrite Hm. change (negb (0 =? 0)%nat) with false. cbv iota.
  unfold dropout_rate_ok.
  destruct (Rle_dec 0 p) as [_|N]; [|lra].
  destruct (Rle_dec p 1) as [_|N]; [|lra].
  change (negb true) with false. cbv iota.
  eexists. split; [reflexivity|]. repeat split.
Qed.

Lemma forward_without_res_fc m g x adj :
  res_fc m = Unset ->
  WeightedMultiHeadGAT_forward m g x adj = Raise AttributeError.
Proof.
  intros Hres. unfold WeightedMultiHeadGAT_forward, attention_weights, raw_scores.
  destruct (use_edge_weights m).
  - destruct (edge_encoder m); [reflexivity|].
    cbn [getattr bind]. unfold add_residual. rewrite Hres. reflexivity.
  - cbn [getattr bind]. unfold add_residual. rewrite Hres. reflexivity.
Qed.

(** C1 (code defect).  The two constructions of the residual test,
    [WeightedMultiHeadGAT(2048, 1020, residual=True)] and
    [WeightedMultiHeadGAT(2048, 1020, residual=False)] with the default
    heads 12, edge_dim 1, dropout 0.3 and alpha 0.2, both succeed for any
    initial parameter values.  With the residual enabled [res_fc] has a
    weight.  With the residual disabled [res_fc] was never assigned: the
    absence check [layer.res_fc is None] raises [AttributeError] instead of
    answering [True], and so does every call of [forward]. *)
Theorem residual_disabled_leaves_res_fc_unassigned (ini : gat_init) :
  (exists m,
      WeightedMultiHeadGAT_init ini 2048 1020 12 1 (3/10) (2/10) true true = Ok m
      /\ (v <- getattr (res_fc m) ;; Ok (hasattr_weight v)) = Ok true)
  /\ (exists m,
      WeightedMultiHeadGAT_init ini 2048 1020 12 1 (3/10) (2/10) false true = Ok m
      /\ (v <- getattr (res_fc m) ;; Ok (is_None v)) = Raise AttributeError
      /\ forall g x adj,
           WeightedMultiHeadGAT_forward m g x adj = Raise AttributeError).
Proof.
  assert (Hmod : (1020 mod 12 = 0)%nat) by reflexivity.
  split.
  - destruct (WeightedMultiHeadGAT_init_ok ini 2048 1020 12 1 (3/10) (2/10) true true) as (m & Hm & _ & _ & _ & Hres);
      [discriminate | exact Hmod | lra |].
    exists m. split; [exact Hm|]. rewrite Hres. reflexivity.
  - destruct (WeightedMultiHeadGAT_init_ok ini 2048 1020 12 1 (3/10) (2/10) false true) as (m & Hm & _ & _ & _ & Hres);
      [discriminate | exact Hmod | lra |].
    exists m. split; [exact Hm|]. split.
    + rewrite Hres. reflexivity.
    + intros. apply forward_without_res_fc. exact Hres.
Qed.

Lemma fmax_Fin_r a y : real_or_ninf a -> exists m, fmax a (Fin y) = Fin m.
Proof.
  destruct a as [x| | |]; simpl; try tauto; intros _.
  - destruct (Rlt_dec x y); eauto.
  - eauto.
Qed.

(** The maximum of a row of masked scores is [-inf] exactly when every
    score is masked. *)
Lemma vmax_cases v :
  Forall real_or_ninf v ->
  (vmax v = NInf /\ Forall (fun a => a = NInf) v)
  \/ (exists m, vmax v = Fin m).
Proof.
  induction 1 as [|a v Ha Hv IH].
  - left. split; [reflexivity|constructor].
  - change (vmax (a :: v)) with (fmax a (vmax v)).
    destruct IH as [[E F]|[m E]]; rewrite E.
    + destruct a as [x| | |]; simpl in Ha; try contradiction.
      * right. exists x. reflexivity.
      * left. split; [reflexivity|]. constructor; auto.
    + right. apply fmax_Fin_r. assumption.
Qed.

Lemma vmax_finite v :
  Forall real_or_ninf v -> Exists finite v -> exists m, vmax v = Fin m.
Proof.
  intros Hv Hex. destruct (vmax_cases v Hv) as [[_ F]|H]; [|exact H].
  exfalso. apply Exists_exists in Hex. destruct Hex as (a & Hin & Hfin).
  rewrite Forall_forall in F. rewrite (F a Hin) in Hfin. exact Hfin.
Qed.

Lemma fexp_shift m a :
  real_or_ninf a -> fexp (fsub a (Fin m)) = Fin (shifted_exp m a).
Proof. destruct a; simpl; try tauto; intros _; reflexivity. Qed.

Lemma shifted_exp_nonneg m a : 0 <= shifted_exp m a.
Proof. destruct a; simpl; try lra. left. apply exp_pos. Qed.

Lemma sumR_nonneg l : Forall (fun r => 0 <= r) l -> 0 <= sumR l.
Proof. induction 1; simpl; lra. Qed.

Lemma sumR_pos l : Forall (fun r => 0 <= r) l -> Exists (fun r => 0 < r) l -> 0 < sumR l.
Proof.
  induction 1 as [|r l Hr Hl IH]; intros E; inversion E; subst; simpl.
  - pose proof (sumR_nonneg l Hl). lra.
  - specialize (IH H0). lra.
Qed.

Lemma sumR_map_div l s : sumR (map (fun r => r / s) l) = sumR l / s.
Proof. induction l as [|r l IH]; simpl; [lra|]. rewrite IH. lra. Qed.

Lemma shifted_exp_sum_pos m v :
  Exists finite v -> 0 < sumR (map (shifted_exp m) v).
Proof.
  intros E. apply sumR_pos.
  - apply Forall_map. apply Forall_forall. intros a _. apply shifted_exp_nonneg.
  - apply Exists_exists in E. destruct E as (a & Hin & Hfin).
    apply Exists_exists. exists (shifted_exp m a). split.
    + apply in_map. exact Hin.
    + destruct a; simpl in *; try contradiction. apply exp_pos.
Qed.

(** The softmax of a row with at least one unmasked score, in closed
    form. *)
Lemma softmax_real v :
  Forall real_or_ninf v -> Exists finite v ->
  exists m, vmax v = Fin m
    /\ softmax v = map (fun a => Fin (shifted_exp m a / sumR (map (shifted_exp m) v))) v.
Proof.
  intros Hv Hex. destruct (vmax_finite v Hv Hex) as [m Hm]. exists m. split; [exact Hm|].
  unfold softmax. rewrite Hm.
  assert (He : map (fun a => fexp (fsub a (Fin m))) v = map Fin (map (shifted_exp m) v)).
  { rewrite map_map. apply map_ext_in. intros a Hin. apply fexp_shift.
    rewrite Forall_forall in Hv. auto. }
  rewrite He, vsum_Fin. rewrite !map_map. apply map_ext. intros a. simpl.
  pose proof (shifted_exp_sum_pos m v Hex) as Hpos.
  destruct (Req_dec_T (sumR (map (shifted_exp m) v)) 0); [lra|reflexivity].
Qed.

Lemma softmax_length v : length (softmax v) = length v.
Proof. unfold softmax. rewrite !length_map. reflexivity. Qed.

Lemma softmax_finite v :
  Forall real_or_ninf v -> Exists finite v -> Forall finite (softmax v).
Proof.
  intros Hv Hex. destruct (softmax_real v Hv Hex) as (m & _ & ->).
  apply Forall_map. apply Forall_forall. intros; exact I.
Qed.

(** The weights of a row with at least one unmasked score add up to 1. *)
Lemma softmax_sum_one v :
  Forall real_or_ninf v -> Exists finite v -> vsum (softmax v) = Fin 1.
Proof.
  intros Hv Hex. destruct (softmax_real v Hv Hex) as (m & _ & ->).
  rewrite <- (map_map (fun a => shifted_exp m a / sumR (map (shifted_exp m) v)) Fin).
  rewrite vsum_Fin. f_equal.
  rewrite <- (map_map (shifted_exp m) (fun r => r / sumR (map (shifted_exp m) v))).
  rewrite sumR_map_div.
  pose proof (shifted_exp_sum_pos m v Hex). field. lra.
Qed.

(** A masked score carries no weight. *)
Lemma softmax_masked_zero v n :
  Forall real_or_ninf v -> Exists finite v -> (n < length v)%nat ->
  nth n v NaN = NInf -> nth n (softmax v) NaN = Fin 0.
Proof.
  intros Hv Hex Hn E. destruct (softmax_real v Hv Hex) as (m & _ & ->).
  rewrite (nth_indep _ NaN (Fin (shifted_exp m NaN / sumR (map (shifted_exp m) v))))
    by (rewrite length_map; exact Hn).
  rewrite (map_nth (fun a => Fin (shifted_exp m a / sumR (map (shifted_exp m) v)))).
  rewrite E. simpl. f_equal. unfold Rdiv. apply Rmult_0_l.
Qed.

(** A row whose scores are all the same non-real value (every score
    masked) is normalised to NaN. *)
Lemma softmax_all_masked c v :
  c = NInf \/ c = PInf \/ c = NaN ->
  v <> [] -> Forall (fun a => a = c) v -> Forall (fun a => a = NaN) (softmax v).
Proof.
  intros Hc Hne Hall.
  assert (Hmax : vmax v = c).
  { destruct v as [|a v]; [congruence|]. clear Hne.
    revert a Hall. induction v as [|b v IH]; intros a Hall.
    - inversion Hall; subst. destruct Hc as [->|[->| ->]]; reflexivity.
    - inversion Hall; subst.
      change (vmax (c :: b :: v)) with (fmax c (vmax (b :: v))).
      rewrite (IH b H2). destruct Hc as [->|[->| ->]]; reflexivity. }
  unfold softmax. rewrite Hmax.
  assert (He : Forall (fun a => a = NaN) (map (fun a => fexp (fsub a c)) v)).
  { apply Forall_map. eapply Forall_impl; [|exact Hall]. intros a ->.
    destruct Hc as [->|[->| ->]]; reflexivity. }
  apply Forall_map. eapply Forall_impl; [|exact He]. intros a ->. reflexivity.
Qed.

(** ** Lists as tensors *)

Lemma nth_map_lt {A B} (f : A -> B) l n da db :
  (n < length l)%nat -> nth n (map f l) db = f (nth n l da).
Proof.
  intros H. rewrite (nth_indep _ db (f da)) by (rewrite length_map; exact H).
  apply map_nth.
Qed.

Lemma map_seq_nth {A} (l : list A) d :
  map (fun i => nth i l d) (seq 0 (length l)) = l.
Proof.
  induction l as [|a l IH]; [reflexivity|].
  cbn [length seq map nth]. f_equal.
  rewrite <- seq_shift, map_map. exact IH.
Qed.

Lemma Forall_nth_lt {A} (P : A -> Prop) l n d :
  Forall P l -> (n < length l)%nat -> P (nth n l d).
Proof.
  intros H Hn. rewrite Forall_forall in H. apply H. apply nth_In. exact Hn.
Qed.

Lemma Forall_map_seq {A} (P : A -> Prop) (f : nat -> A) n :
  (forall i, (i < n)%nat -> P (f i)) -> Forall P (map f (seq 0 n)).
Proof.
  intros H. apply Forall_map. apply Forall_forall. intros i Hi.
  apply in_seq in Hi. apply H. lia.
Qed.

Lemma Forall_concat {A} (P : A -> Prop) (ls : list (list A)) :
  Forall (Forall P) ls -> Forall P (concat ls).
Proof.
  induction 1 as [|l ls Hl Hls IH]; simpl; [constructor|].
  apply Forall_app. split; assumption.
Qed.

Lemma concat_length_const {A} (ls : list (list A)) d :
  Forall (fun l => length l = d) ls -> length (concat ls) = (length ls * d)%nat.
Proof.
  induction 1 as [|l ls Hl Hls IH]; simpl; [reflexivity|].
  rewrite length_app, IH, Hl. reflexivity.
Qed.

Lemma chunks_shape pieces d v :
  length v = (pieces * d)%nat -> has_shape pieces d (chunks pieces d v).
Proof.
  revert v. induction pieces as [|n IH]; intros v Hv; simpl.
  - split; [reflexivity|constructor].
  - destruct (IH (skipn d v)) as [Hl Hr].
    { rewrite length_skipn. simpl in Hv. lia. }
    split; [simpl; congruence|]. constructor; [|exact Hr].
    rewrite length_firstn. simpl in Hv. lia.
Qed.

Lemma Forall_firstn_skipn {A} (P : A -> Prop) n (l : list A) :
  Forall P l -> Forall P (firstn n l) /\ Forall P (skipn n l).
Proof.
  intros H. revert n. induction H as [|a l Ha Hl IH]; intros [|n]; simpl;
    repeat split; try constructor; auto; apply IH.
Qed.

Lemma chunks_Forall (P : fp -> Prop) pieces d v :
  Forall P v -> Forall (Forall P) (chunks pieces d v).
Proof.
  revert v. induction pieces as [|n IH]; intros v Hv; simpl; constructor.
  - apply Forall_firstn_skipn. exact Hv.
  - apply IH. apply Forall_firstn_skipn. exact Hv.
Qed.

(** Dropout keeps shapes, and maps each element by [dropout_elem]. *)
Lemma dropout_vec_length p tr g v : length (dropout_vec p tr g v) = length v.
Proof.
  unfold dropout_vec. rewrite length_map, length_combine, length_seq. lia.
Qed.

Lemma combine_seq_Forall {A} (P : A -> Prop) (Q : nat * A -> Prop) (l : list A) s :
  (forall i a, P a -> Q (i, a)) -> Forall P l -> Forall Q (combine (seq s (length l)) l).
Proof.
  intros H Hl. revert s. induction Hl as [|a l Ha Hl IH]; intros s; simpl; constructor; auto.
Qed.

Lemma dropout_vec_Forall (P : fp -> Prop) p tr g v :
  (forall k a, P a -> P (dropout_elem p tr k a)) ->
  Forall P v -> Forall P (dropout_vec p tr g v).
Proof.
  intros H Hv. unfold dropout_vec. apply Forall_map.
  apply (combine_seq_Forall P); [|exact Hv]. intros i a Ha. apply H. exact Ha.
Qed.

Lemma dropout_mat_length p tr g m : length (dropout_mat p tr g m) = length m.
Proof.
  unfold dropout_mat. rewrite length_map, length_combine, length_seq. lia.
Qed.

Lemma dropout_mat_Forall (P : vector -> Prop) (Q : vector -> Prop) p tr g m :
  (forall g' v, P v -> Q (dropout_vec p tr g' v)) ->
  Forall P m -> Forall Q (dropout_mat p tr g m).
Proof.
  intros H Hm. unfold dropout_mat. apply Forall_map.
  apply (combine_seq_Forall P); [|exact Hm]. intros i v Hv. apply H. exact Hv.
Qed.

Lemma dropout_mat_nth p tr g m i :
  (i < length m)%nat ->
  nth i (dropout_mat p tr g m) [] = dropout_vec p tr (sub_rng g i) (nth i m []).
Proof.
  intros Hi. unfold dropout_mat.
  rewrite (nth_map_lt _ _ _ (O, []) []) by (rewrite length_combine, length_seq; lia).
  rewrite combine_nth by (rewrite length_seq; reflexivity).
  rewrite seq_nth by exact Hi. reflexivity.
Qed.

Lemma dropout_mat_eval p g m : dropout_mat p false g m = m.
Proof.
  unfold dropout_mat.
  assert (H : forall s (l : matrix),
             map (fun '(i, row) => dropout_vec p false (sub_rng g i) row)
                 (combine (seq s (length l)) l) = l).
  { intros s l. revert s. induction l as [|v l IH]; intros s; simpl; [reflexivity|].
    rewrite IH. f_equal. unfold dropout_vec.
    generalize (sub_rng g s). intros g'. generalize 0%nat.
    induction v as [|a v IHv]; intros k; simpl; [reflexivity|]. rewrite IHv. reflexivity. }
  apply H.
Qed.

(** ** The attention layer on well-shaped real inputs *)

Lemma has_shape_nth r c m i :
  has_shape r c m -> (i < r)%nat -> length (nth i m []) = c.
Proof.
  intros [Hl Hr] Hi. apply (Forall_nth_lt (fun row => length row = c)); [exact Hr|lia].
Qed.

Lemma finite_mat_nth m i : finite_mat m -> finite_vec (nth i m []).
Proof.
  intros H. destruct (Nat.lt_ge_cases i (length m)) as [Hi|Hi].
  - apply (Forall_nth_lt finite_vec); assumption.
  - rewrite nth_overflow by exact Hi. constructor.
Qed.

Section GATFacts.

Variable m : WeightedMultiHeadGAT.
Variables in_features out_features : nat.
Variables x adj : matrix.

Hypothesis Hok : gat_ok in_features out_features m.
Hypothesis Hx : has_shape (length x) in_features x.
Hypothesis Hxfin : finite_mat x.
Hypothesis Hadj : has_shape (length x) (length x) adj.
Hypothesis Hadjfin : finite_mat adj.

Lemma gat_h_ok : shape3 (length x) (heads m) (out_features_per_head m) (gat_h m x) /\ finite3 (gat_h m x).
Proof.
  destruct Hok as [Hout [HWs HWf] _ _ _ _ _].
  unfold gat_h. split; [split|].
  - rewrite length_map. unfold linear. rewrite length_map. reflexivity.
  - apply Forall_map. apply Forall_forall. intros v Hv.
    apply chunks_shape. unfold linear in Hv. apply in_map_iff in Hv.
    destruct Hv as (row & <- & _). rewrite (linear_vec_length in_features out_features); auto.
  - apply Forall_map. apply Forall_forall. intros v Hv.
    apply chunks_Forall. unfold linear in Hv. apply in_map_iff in Hv.
    destruct Hv as (row & <- & Hin). apply linear_vec_finite; [exact HWf|].
    apply (proj1 (Forall_forall finite_vec x) Hxfin). exact Hin.
Qed.

Lemma head_scores_ok a :
  has_shape (heads m) (out_features_per_head m) a -> finite_mat a ->
  has_shape (length x) (heads m) (head_scores m x a) /\ finite_mat (head_scores m x a).
Proof.
  intros [Hal Har] Haf. destruct gat_h_ok as [[Hl Hs] Hf].
  unfold head_scores. split; [split|].
  - rewrite length_map. exact Hl.
  - apply Forall_map. eapply Forall_impl; [|exact Hs]. intros hn [Hn _].
    rewrite zip_with_length. lia.
  - apply Forall_map. eapply Forall_impl; [|exact Hf]. intros hn Hn.
    apply (zip_with_Forall dot finite_vec finite_vec finite); auto.
    intros u v Hu Hv. apply dot_finite; assumption.
Qed.

Lemma pair_scores_ok : shape3 (length x) (length x) (heads m) (pair_scores m x) /\ finite3 (pair_scores m x).
Proof.
  destruct Hok as [_ _ _ [Hss Hsf] [Hds Hdf] _ _].
  destruct (head_scores_ok _ Hss Hsf) as [[Sl Sr] Sf].
  destruct (head_scores_ok _ Hds Hdf) as [[Dl Dr] Df].
  unfold pair_scores. split; [split|].
  - rewrite length_map. exact Sl.
  - apply Forall_map. rewrite Forall_forall in Sr. apply Forall_forall. intros s Hs.
    split; [rewrite length_map; exact Dl|].
    apply Forall_map. eapply Forall_impl; [|exact Dr]. intros d Hd.
    rewrite zip_with_length, (Sr s Hs), Hd. apply Nat.min_id.
  - apply Forall_map. eapply Forall_impl; [|exact Sf]. intros s Hs.
    apply Forall_map. eapply Forall_impl; [|exact Df]. intros d Hd.
    apply (zip_with_Forall fadd finite finite finite); auto using finite_fadd.
Qed.

Lemma edge_weights_ok enc :
  linear_shape 1 (heads m) enc -> finite_linear enc ->
  shape3 (length x) (length x) (heads m) (edge_weights adj enc) /\ finite3 (edge_weights adj enc).
Proof.
  intros Hs Hf. destruct Hadj as [Al Ar]. unfold edge_weights. split; [split|].
  - rewrite length_map. exact Al.
  - apply Forall_map. eapply Forall_impl; [|exact Ar]. intros row Hrow.
    split; [rewrite length_map; exact Hrow|].
    apply Forall_map. apply Forall_forall. intros a _.
    apply (linear_vec_length 1 (heads m)). exact Hs.
  - apply Forall_map. eapply Forall_impl; [|exact Hadjfin]. intros row Hrow.
    apply Forall_map. eapply Forall_impl; [|exact Hrow]. intros a Ha.
    apply linear_vec_finite; [exact Hf|]. constructor; [exact Ha|constructor].
Qed.

Lemma add3_ok s t :
  shape3 (length x) (length x) (heads m) s -> finite3 s -> shape3 (length x) (length x) (heads m) t -> finite3 t ->
  shape3 (length x) (length x) (heads m) (add3 s t) /\ finite3 (add3 s t).
Proof.
  intros [Sl Sr] Sf [Tl Tr] Tf. unfold add3. split; [split|].
  - rewrite zip_with_length. lia.
  - apply (zip_with_Forall _ (has_shape (length x) (heads m)) (has_shape (length x) (heads m))); auto.
    intros a b [Al Ar] [Bl Br]. split; [rewrite zip_with_length; lia|].
    apply (zip_with_Forall _ (fun r => length r = (heads m)) (fun r => length r = (heads m))); auto.
    intros u v Hu Hv. rewrite zip_with_length. lia.
  - apply (zip_with_Forall _ finite_mat finite_mat); auto.
    intros a b Ha Hb. apply (zip_with_Forall _ finite_vec finite_vec); auto.
    intros u v Hu Hv. apply (zip_with_Forall fadd finite finite); auto using finite_fadd.
Qed.

Lemma raw_scores_ok :
  exists t, raw_scores m x adj = Ok t /\ shape3 (length x) (length x) (heads m) t /\ finite3 t.
Proof.
  unfold raw_scores. destruct pair_scores_ok as [Ps Pf].
  destruct (use_edge_weights m) eqn:E.
  - destruct (ok_edge _ _ _ Hok E) as (enc & -> & Es & Ef).
    destruct (edge_weights_ok enc Es Ef) as [Ws Wf].
    eexists. split; [reflexivity|]. apply add3_ok; assumption.
  - eexists. split; [reflexivity|]. split; assumption.
Qed.

End GATFacts.

(** ** One destination node's row of scores *)

Section ScoreRow.

Variable slope : R.
Variable hd_count : nat.
Variable adj_i : vector.
Variable t_i : matrix.

Hypothesis Hlen : length adj_i = length t_i.
Hypothesis Ht : Forall (fun v => length v = hd_count) t_i.
Hypothesis Htfin : finite_mat t_i.

Lemma score_row_length : length (score_row slope adj_i t_i) = length t_i.
Proof.
  unfold score_row. rewrite length_map, zip_with_length, length_map. lia.
Qed.

Lemma score_row_rows :
  Forall (fun row => length row = hd_count
                     /\ (finite_vec row \/ Forall (eq (leaky_relu slope NInf)) row))
         (score_row slope adj_i t_i).
Proof.
  unfold score_row. clear Hlen. revert adj_i.
  induction t_i as [|v t IH]; intros [|a l]; simpl; try constructor.
  - inversion Ht; subst. inversion Htfin; subst.
    rewrite length_map. split.
    + destruct (fgt a (Fin 0)); [reflexivity|]. rewrite length_map. reflexivity.
    + destruct (fgt a (Fin 0)).
      * left. apply Forall_map. eapply Forall_impl; [|eassumption].
        intros b Hb. apply leaky_relu_finite. exact Hb.
      * right. rewrite map_map. apply Forall_map. apply Forall_forall. reflexivity.
  - inversion Ht; subst. inversion Htfin; subst. apply IH; assumption.
Qed.

Lemma score_row_unmasked :
  Exists (fun a => fgt a (Fin 0) = true) adj_i -> Exists finite_vec (score_row slope adj_i t_i).
Proof.
  unfold score_row. revert Hlen. clear Ht. revert adj_i.
  induction t_i as [|v t IH]; intros [|a l] Hl E; simpl in *; try discriminate.
  - inversion E.
  - inversion Htfin; subst. inversion E; subst.
    + rewrite H0. apply Exists_cons_hd. apply Forall_map.
      eapply Forall_impl; [|eassumption]. intros b Hb. apply leaky_relu_finite. exact Hb.
    + apply Exists_cons_tl. apply IH; auto.
Qed.

Lemma score_row_masked :
  Forall (fun a => fgt a (Fin 0) = false) adj_i ->
  Forall (fun row => Forall (eq (leaky_relu slope NInf)) row) (score_row slope adj_i t_i).
Proof.
  unfold score_row. clear Hlen Ht Htfin. revert adj_i.
  induction t_i as [|v t IH]; intros [|a l] E; simpl; try constructor.
  - inversion E; subst. rewrite H1. rewrite map_map.
    apply Forall_map. apply Forall_forall. reflexivity.
  - inversion E; subst. apply IH. assumption.
Qed.

Lemma normalised_row_form :
  (normalised_row slope hd_count adj_i t_i)
  = map (fun j => map (fun h => nth j (softmax (column h (score_row slope adj_i t_i))) NaN) (seq 0 hd_count))
        (seq 0 (length (score_row slope adj_i t_i))).
Proof.
  unfold normalised_row, transpose. apply map_ext. intros j.
  unfold column at 1. rewrite !map_map. reflexivity.
Qed.

Lemma normalised_row_shape : has_shape (length t_i) hd_count (normalised_row slope hd_count adj_i t_i).
Proof.
  rewrite normalised_row_form. split.
  - rewrite length_map, length_seq. apply score_row_length.
  - apply Forall_map. apply Forall_forall. intros j _.
    rewrite length_map, length_seq. reflexivity.
Qed.

(** The column of head [h] of the normalised row is the softmax of the
    column of head [h] of the scores. *)
Lemma normalised_row_column h :
  (h < hd_count)%nat ->
  column h (normalised_row slope hd_count adj_i t_i) = softmax (column h (score_row slope adj_i t_i)).
Proof.
  intros Hh. rewrite normalised_row_form. unfold column at 1. rewrite map_map.
  assert (L : length (softmax (column h (score_row slope adj_i t_i))) = length (score_row slope adj_i t_i)).
  { rewrite softmax_length. unfold column. apply length_map. }
  etransitivity; [|apply (map_seq_nth (softmax (column h (score_row slope adj_i t_i))) NaN)].
  rewrite L. apply map_ext. intros j.
  rewrite (nth_map_lt _ _ _ O NaN) by (rewrite length_seq; exact Hh).
  rewrite seq_nth by exact Hh. reflexivity.
Qed.

Lemma column_real_or_ninf h :
  0 < slope -> (h < hd_count)%nat -> Forall real_or_ninf (column h (score_row slope adj_i t_i)).
Proof.
  intros Hs Hh. unfold column. apply Forall_map.
  eapply Forall_impl; [|exact score_row_rows]. intros row [Hl [Hf|Hm]].
  - assert (F : finite (nth h row NaN)) by (apply Forall_nth_lt; [exact Hf|lia]).
    destruct (nth h row NaN); simpl in *; tauto.
  - rewrite (leaky_relu_NInf slope Hs) in Hm.
    assert (F : NInf = nth h row NaN) by (apply (Forall_nth_lt (eq NInf)); [exact Hm|lia]).
    rewrite <- F. exact I.
Qed.

Lemma column_has_real h :
  (h < hd_count)%nat ->
  Exists (fun a => fgt a (Fin 0) = true) adj_i -> Exists finite (column h (score_row slope adj_i t_i)).
Proof.
  intros Hh E. apply score_row_unmasked in E. unfold column.
  apply Exists_exists in E. destruct E as (row & Hin & Hf).
  apply Exists_exists. exists (nth h row NaN).
  split; [apply (in_map (fun r => nth h r NaN)); exact Hin|].
  apply Forall_nth_lt; [exact Hf|].
  pose proof score_row_rows as R. rewrite Forall_forall in R.
  destruct (R row Hin) as [-> _]. exact Hh.
Qed.

(** With a positive slope and at least one positive adjacency entry, the
    weights of every head are real and add up to 1 over the sources. *)
Lemma normalised_row_distribution h :
  0 < slope -> (h < hd_count)%nat ->
  Exists (fun a => fgt a (Fin 0) = true) adj_i ->
  vsum (column h (normalised_row slope hd_count adj_i t_i)) = Fin 1
  /\ Forall finite (column h (normalised_row slope hd_count adj_i t_i)).
Proof.
  intros Hs Hh E. rewrite (normalised_row_column h Hh). split.
  - apply softmax_sum_one; [apply column_real_or_ninf|apply column_has_real]; assumption.
  - apply softmax_finite; [apply column_real_or_ninf|apply column_has_real]; assumption.
Qed.

Lemma normalised_row_finite :
  0 < slope -> Exists (fun a => fgt a (Fin 0) = true) adj_i -> finite_mat (normalised_row slope hd_count adj_i t_i).
Proof.
  intros Hs E. rewrite normalised_row_form.
  apply Forall_map_seq. intros j Hj. apply Forall_map_seq. intros h Hh.
  apply Forall_nth_lt.
  - apply softmax_finite; [apply column_real_or_ninf|apply column_has_real]; assumption.
  - rewrite softmax_length. unfold column. rewrite length_map. exact Hj.
Qed.

(** With no positive adjacency entry every weight of the row is NaN. *)
Lemma normalised_row_all_masked :
  t_i <> [] ->
  Forall (fun a => fgt a (Fin 0) = false) adj_i ->
  Forall (fun row => Forall (eq NaN) row) (normalised_row slope hd_count adj_i t_i).
Proof.
  intros Hne E. rewrite normalised_row_form.
  apply Forall_map_seq. intros j Hj. apply Forall_map_seq. intros h Hh.
  assert (Hall : Forall (fun a => a = NaN) (softmax (column h (score_row slope adj_i t_i)))).
  { apply (softmax_all_masked (leaky_relu slope NInf)).
    - apply leaky_relu_NInf_cases.
    - unfold column. intros C. apply (f_equal (@length fp)) in C.
      rewrite length_map, score_row_length in C. destruct t_i; [congruence|discriminate].
    - unfold column. apply Forall_map.
      pose proof (score_row_masked E) as M. pose proof score_row_rows as R.
      rewrite Forall_forall in M, R. apply Forall_forall. intros row Hin.
      symmetry. apply (Forall_nth_lt (eq (leaky_relu slope NInf))); [apply M; exact Hin|].
      destruct (R row Hin) as [-> _]. exact Hh. }
  destruct (Nat.lt_ge_cases j (length (softmax (column h (score_row slope adj_i t_i))))) as [Hlt|Hge].
  - symmetry. apply (Forall_nth_lt (fun a => a = NaN)); assumption.
  - rewrite nth_overflow by exact Hge. reflexivity.
Qed.

End ScoreRow.

(** ** The attention weights of a layer *)

Lemma attention_nth m adj t i :
  (i < length adj)%nat -> (i < length t)%nat ->
  nth i (attention m adj t) []
  = normalised_row (alpha m) (heads m) (nth i adj []) (nth i t []).
Proof.
  intros Ha Ht. unfold attention, softmax_dim1, masked_fill, mask.
  unfold normalised_row, score_row.
  assert (Hz : (i < length (zip_with
             (zip_with (fun (keep : bool) (v : vector) =>
                          if keep then v else map (fun _ => NInf) v))
             (map (map (fun a => fgt a (Fin 0))) adj) t))%nat).
  { rewrite zip_with_length, length_map. lia. }
  rewrite (nth_map_lt _ _ _ [] []) by (rewrite length_map; exact Hz).
  rewrite (nth_map_lt _ _ _ [] []) by exact Hz.
  rewrite (zip_with_nth _ _ _ _ [] [] []) by (rewrite ?length_map; assumption).
  rewrite (nth_map_lt _ _ _ [] []) by exact Ha.
  reflexivity.
Qed.

Lemma attention_length m adj t :
  length (attention m adj t) = Nat.min (length adj) (length t).
Proof.
  unfold attention, softmax_dim1, masked_fill, mask.
  rewrite !length_map, zip_with_length, length_map. reflexivity.
Qed.

Section AttentionFacts.

Variable m : WeightedMultiHeadGAT.
Variables in_features out_features : nat.
Variables x adj : matrix.

Hypothesis Hok : gat_ok in_features out_features m.
Hypothesis Hx : has_shape (length x) in_features x.
Hypothesis Hxfin : finite_mat x.
Hypothesis Hadj : has_shape (length x) (length x) adj.
Hypothesis Hadjfin : finite_mat adj.

Lemma attention_weights_rows :
  exists t, raw_scores m x adj = Ok t
    /\ shape3 (length x) (length x) (heads m) t /\ finite3 t
    /\ attention_weights m x adj = Ok (attention m adj t)
    /\ length (attention m adj t) = length x
    /\ forall i, (i < length x)%nat ->
         nth i (attention m adj t) []
         = normalised_row (alpha m) (heads m) (nth i adj []) (nth i t [])
         /\ length (nth i adj []) = length (nth i t [])
         /\ Forall (fun v => length v = heads m) (nth i t [])
         /\ finite_mat (nth i t [])
         /\ length (nth i t []) = length x.
Proof.
  destruct (raw_scores_ok m in_features out_features x adj Hok Hxfin Hadj Hadjfin)
    as (t & Ht & [Tl Tr] & Tf).
  exists t. split; [exact Ht|]. split; [split; assumption|]. split; [exact Tf|].
  destruct Hadj as [Al Ar].
  split; [unfold attention_weights; rewrite Ht; reflexivity|].
  split; [rewrite attention_length; lia|].
  intros i Hi.
  assert (Hti : has_shape (length x) (heads m) (nth i t [])).
  { apply (Forall_nth_lt (has_shape (length x) (heads m))); [exact Tr|lia]. }
  destruct Hti as [Til Tir].
  split; [apply attention_nth; lia|].
  split; [rewrite (has_shape_nth (length x) (length x) adj i Hadj Hi); lia|].
  split; [exact Tir|]. split; [|exact Til].
  apply (Forall_nth_lt finite_mat); [exact Tf|lia].
Qed.

End AttentionFacts.

(** C3 (amended).  For a well-formed layer with a positive leaky slope, real
    node features of shape [N x in_features] and a real [N x N] adjacency
    matrix, the attention weights exist, and for every destination node [i]
    and head [h]: when row [i] of the adjacency has a positive entry, the
    weights over the source nodes are real and add up to 1; when it has
    none, every weight of the row is NaN (so the sum is NaN, not 0). *)
Theorem attention_weights_distribution (m : WeightedMultiHeadGAT)
    (in_features out_features : nat) (x adj : matrix) :
  gat_ok in_features out_features m ->
  0 < alpha m ->
  has_shape (length x) in_features x -> finite_mat x ->
  has_shape (length x) (length x) adj -> finite_mat adj ->
  exists attn,
    attention_weights m x adj = Ok attn
    /\ length attn = length x
    /\ forall i h, (i < length x)%nat -> (h < heads m)%nat ->
         (Exists positive (nth i adj []) ->
            vsum (column h (nth i attn [])) = Fin 1
            /\ Forall finite (column h (nth i attn [])))
         /\ (Forall not_positive (nth i adj []) ->
            vsum (column h (nth i attn [])) = NaN
            /\ Forall (eq NaN) (column h (nth i attn []))).
Proof.
  intros Hok Hs Hx Hxf Hadj Hadjf.
  destruct (attention_weights_rows m in_features out_features x adj Hok Hxf Hadj Hadjf)
    as (t & _ & _ & _ & Hw & Hl & Hrows).
  exists (attention m adj t). split; [exact Hw|]. split; [exact Hl|].
  intros i h Hi Hh. destruct (Hrows i Hi) as (-> & Hlen & Hw' & Hf & Hn).
  split.
  - intros E. apply normalised_row_distribution; assumption.
  - intros E.
    assert (Hne : nth i t [] <> []).
    { intros C. rewrite C in Hn. simpl in Hn. lia. }
    assert (Hall : Forall (fun row => Forall (eq NaN) row)
              (normalised_row (alpha m) (heads m) (nth i adj []) (nth i t [])))
      by (apply normalised_row_all_masked; assumption).
    assert (Hshape : has_shape (length (nth i t [])) (heads m)
              (normalised_row (alpha m) (heads m) (nth i adj []) (nth i t [])))
      by (apply normalised_row_shape; assumption).
    destruct Hshape as [Sl Sr].
    assert (Hcol : Forall (eq NaN)
              (column h (normalised_row (alpha m) (heads m) (nth i adj []) (nth i t [])))).
    { unfold column. apply Forall_map. rewrite Forall_forall in Hall, Sr.
      apply Forall_forall. intros row Hin.
      apply (Forall_nth_lt (eq NaN)); [apply Hall; exact Hin|].
      rewrite (Sr row Hin). exact Hh. }
    split; [|exact Hcol].
    apply vsum_NaN.
    destruct (column h (normalised_row (alpha m) (heads m) (nth i adj []) (nth i t [])))
      as [|a l] eqn:Ec.
    + apply (f_equal (@length fp)) in Ec. unfold column in Ec.
      rewrite length_map, Sl in Ec. simpl in Ec. lia.
    + inversion Hcol; subst. left. reflexivity.
Qed.

(** ** The output of a layer, row by row *)

Lemma gelu_finite a : finite a -> finite (gelu a).
Proof. destruct a; simpl; tauto. Qed.

Lemma gelu_NaN : gelu NaN = NaN.
Proof. reflexivity. Qed.

Lemma dot_NaN u w : u <> [] -> w <> [] -> Forall (eq NaN) u -> dot u w = NaN.
Proof.
  intros Hu Hw Hall. destruct u as [|a u]; [congruence|]. destruct w as [|b w]; [congruence|].
  inversion Hall; subst. unfold dot. simpl. reflexivity.
Qed.

Lemma linear_vec_NaN i o l v :
  linear_shape i o l -> (0 < i)%nat -> length v = i -> Forall (eq NaN) v ->
  Forall (eq NaN) (linear_vec l v).
Proof.
  intros [[Hl Hr] Hb] Hi Hv Hall. unfold linear_vec.
  assert (Hd : Forall (eq NaN) (map (fun w => dot v w) (weight l))).
  { apply Forall_map. eapply Forall_impl; [|exact Hr]. intros w Hw. symmetry.
    apply dot_NaN; [| |exact Hall].
    - intros C. rewrite C in Hv. simpl in Hv. lia.
    - intros C. rewrite C in Hw. simpl in Hw. lia. }
  destruct (bias l) as [b|]; [|exact Hd].
  apply (zip_with_Forall fadd (eq NaN) (fun _ => True) (eq NaN)).
  - intros a c <- _. reflexivity.
  - exact Hd.
  - apply Forall_forall. intros; exact I.
Qed.

Section LayerRow.

Variable m : WeightedMultiHeadGAT.
Variable g : rng.
Variables in_features out_features : nat.
Variables x adj : matrix.

Hypothesis Hok : gat_ok in_features out_features m.
Hypothesis Hx : has_shape (length x) in_features x.
Hypothesis Hxfin : finite_mat x.
Hypothesis Hadj : has_shape (length x) (length x) adj.
Hypothesis Hadjfin : finite_mat adj.

Lemma aggregate_row_length attn_i : length (aggregate_row m x attn_i) = out_features.
Proof.
  unfold aggregate_row.
  rewrite (concat_length_const _ (out_features_per_head m)).
  - rewrite length_map, length_seq. symmetry. apply (ok_out _ _ _ Hok).
  - apply Forall_map_seq. intros hd _. rewrite length_map, length_seq. reflexivity.
Qed.

Lemma aggregate_row_finite attn_i :
  Forall (fun v => length v = heads m) attn_i -> finite_mat attn_i ->
  finite_vec (aggregate_row m x attn_i).
Proof.
  intros Hs Hf. unfold aggregate_row. apply Forall_concat.
  apply Forall_map_seq. intros hd Hhd. apply Forall_map_seq. intros d Hd.
  apply vsum_finite.
  destruct (gat_h_ok m in_features out_features x Hok Hxfin) as [[Gl Gs] Gf].
  assert (Hboth : Forall (fun v => length v = heads m /\ finite_vec v) attn_i).
  { rewrite Forall_forall in Hs, Hf. apply Forall_forall. intros v Hv. split; auto. }
  assert (Gboth : Forall (fun k => has_shape (heads m) (out_features_per_head m) k
                                   /\ finite_mat k) (gat_h m x)).
  { rewrite Forall_forall in Gs, Gf. apply Forall_forall. intros v Hv. split; auto. }
  eapply zip_with_Forall; [|exact Hboth|exact Gboth].
  intros a k [Ha1 Ha2] [Hk1 Hk2]. apply finite_fmul.
  - apply Forall_nth_lt; [exact Ha2|lia].
  - apply Forall_nth_lt.
    + apply finite_mat_nth. exact Hk2.
    + rewrite (has_shape_nth _ _ _ hd Hk1 Hhd). exact Hd.
Qed.

Lemma aggregate_row_NaN attn_i :
  length attn_i = length x -> (0 < length x)%nat ->
  Forall (fun row => Forall (eq NaN) row) attn_i ->
  Forall (eq NaN) (aggregate_row m x attn_i).
Proof.
  intros Hl Hn Hall. unfold aggregate_row. apply Forall_concat.
  apply Forall_map_seq. intros hd Hhd. apply Forall_map_seq. intros d Hd.
  symmetry. apply vsum_NaN.
  destruct (gat_h_ok m in_features out_features x Hok Hxfin) as [[Gl _] _].
  destruct attn_i as [|a l]; [simpl in Hl; lia|].
  destruct (gat_h m x) as [|k ks]; [simpl in Gl; lia|].
  simpl. left. inversion Hall; subst.
  assert (E : nth hd a NaN = NaN).
  { destruct (Nat.lt_ge_cases hd (length a)) as [L|L].
    - symmetry. apply (Forall_nth_lt (eq NaN)); assumption.
    - apply nth_overflow. exact L. }
  rewrite E. reflexivity.
Qed.

Lemma forward_rows (t : tensor3) (res : option Linear) :
  raw_scores m x adj = Ok t -> res_fc m = Bound res ->
  length (attention m adj t) = length x ->
  exists out,
    WeightedMultiHeadGAT_forward m g x adj = Ok out
    /\ length out = length x
    /\ forall i, (i < length x)%nat ->
         nth i out [] = output_row m g x i (nth i (attention m adj t) []) res.
Proof.
  intros Ht Hres Hl.
  unfold WeightedMultiHeadGAT_forward, attention_weights. rewrite Ht.
  cbn [bind]. unfold add_residual. rewrite Hres. cbn [getattr bind].
  set (attn := attention m adj t) in *.
  assert (Hd3 : length (dropout3 m g attn) = length x).
  { unfold dropout3. rewrite length_map, length_combine, length_seq. lia. }
  assert (Hagg : length (aggregate m x (dropout3 m g attn)) = length x).
  { unfold aggregate. rewrite length_map. exact Hd3. }
  assert (Hrow : forall i, (i < length x)%nat ->
            nth i (aggregate m x (dropout3 m g attn)) []
            = aggregate_row m x (dropout_mat (dropout m) (training m)
                               (sub_rng (sub_rng g 0) i) (nth i attn []))).
  { intros i Hi. unfold aggregate.
    rewrite (nth_map_lt _ _ _ [] []) by (rewrite Hd3; exact Hi).
    unfold dropout3.
    rewrite (nth_map_lt _ _ _ (O, []) []) by (rewrite length_combine, length_seq; lia).
    rewrite combine_nth by (rewrite length_seq; reflexivity).
    rewrite seq_nth by lia. reflexivity. }
  destruct res as [l|].
  - eexists. split; [reflexivity|]. unfold apply_head_fusion.
    assert (Hz : length (zip_with (zip_with fadd) (aggregate m x (dropout3 m g attn))
                                  (linear l x)) = length x).
    { rewrite zip_with_length, Hagg. unfold linear. rewrite length_map. lia. }
    split.
    + rewrite dropout_mat_length, length_map. unfold linear at 1. rewrite length_map.
      exact Hz.
    + intros i Hi. rewrite dropout_mat_nth
        by (rewrite length_map; unfold linear at 1; rewrite length_map, Hz; exact Hi).
      unfold output_row. f_equal.
      rewrite (nth_map_lt _ _ _ [] [])
        by (unfold linear at 1; rewrite length_map, Hz; exact Hi).
      f_equal. unfold linear at 1.
      rewrite (nth_map_lt _ _ _ [] []) by (rewrite Hz; exact Hi).
      f_equal.
      rewrite (zip_with_nth _ _ _ _ [] [] [])
        by (rewrite ?Hagg; unfold linear; rewrite ?length_map; exact Hi).
      rewrite Hrow by exact Hi. f_equal. unfold linear.
      apply (nth_map_lt _ _ _ [] []). exact Hi.
  - eexists. split; [reflexivity|]. unfold apply_head_fusion. split.
    + rewrite dropout_mat_length, length_map. unfold linear. rewrite length_map.
      exact Hagg.
    + intros i Hi. rewrite dropout_mat_nth
        by (rewrite length_map; unfold linear; rewrite length_map, Hagg; exact Hi).
      unfold output_row. f_equal.
      rewrite (nth_map_lt _ _ _ [] [])
        by (unfold linear; rewrite length_map, Hagg; exact Hi).
      f_equal. unfold linear.
      rewrite (nth_map_lt _ _ _ [] []) by (rewrite Hagg; exact Hi).
      f_equal. apply Hrow. exact Hi.
Qed.

End LayerRow.

Section LayerResult.

Variable m : WeightedMultiHeadGAT.
Variable g : rng.
Variables in_features out_features : nat.
Variables x adj : matrix.

Hypothesis Hok : gat_ok in_features out_features m.
Hypothesis Hx : has_shape (length x) in_features x.
Hypothesis Hxfin : finite_mat x.
Hypothesis Hadj : has_shape (length x) (length x) adj.
Hypothesis Hadjfin : finite_mat adj.

Lemma output_row_length i attn_i res :
  length (output_row m g x i attn_i res) = out_features.
Proof.
  unfold output_row. rewrite dropout_vec_length, length_map.
  apply (linear_vec_length out_features out_features). apply (ok_fusion _ _ _ Hok).
Qed.

Lemma output_row_finite i attn_i res :
  match res with
  | Some l => linear_shape in_features out_features l /\ finite_linear l
  | None => True
  end ->
  Forall (fun v => length v = heads m) attn_i -> finite_mat attn_i ->
  finite_vec (output_row m g x i attn_i res).
Proof.
  intros Hres Hs Hf. unfold output_row.
  apply dropout_vec_Forall; [intros; apply dropout_elem_finite; assumption|].
  apply Forall_map.
  assert (Hagg : finite_vec (aggregate_row m x
                   (dropout_mat (dropout m) (training m) (sub_rng (sub_rng g 0) i) attn_i))).
  { apply (aggregate_row_finite m in_features out_features x Hok Hxfin).
    - apply (dropout_mat_Forall (fun v => length v = heads m)); [|exact Hs].
      intros g' v Hv. rewrite dropout_vec_length. exact Hv.
    - apply (dropout_mat_Forall finite_vec); [|exact Hf].
      intros g' v Hv. apply dropout_vec_Forall; [|exact Hv].
      intros; apply dropout_elem_finite; assumption. }
  eapply Forall_impl; [intros a Ha; apply gelu_finite; exact Ha|].
  apply linear_vec_finite; [apply (ok_fusion _ _ _ Hok)|].
  destruct res as [l|]; [|exact Hagg].
  apply (zip_with_Forall fadd finite finite finite); auto using finite_fadd.
  apply linear_vec_finite; [apply Hres|]. apply finite_mat_nth. exact Hxfin.
Qed.

Lemma output_row_NaN i attn_i res :
  (0 < out_features)%nat ->
  match res with
  | Some l => linear_shape in_features out_features l /\ finite_linear l
  | None => True
  end ->
  length attn_i = length x -> (0 < length x)%nat ->
  Forall (fun row => Forall (eq NaN) row) attn_i ->
  Forall (eq NaN) (output_row m g x i attn_i res).
Proof.
  intros Hout Hres Hl Hn Hall. unfold output_row.
  apply dropout_vec_Forall; [intros k a <-; symmetry; apply dropout_elem_NaN|].
  apply Forall_map.
  set (attn' := dropout_mat (dropout m) (training m) (sub_rng (sub_rng g 0) i) attn_i).
  assert (Hagg : Forall (eq NaN) (aggregate_row m x attn')).
  { apply (aggregate_row_NaN m in_features out_features x Hok Hxfin); [|exact Hn|].
    - unfold attn'. rewrite dropout_mat_length. exact Hl.
    - unfold attn'. apply (dropout_mat_Forall (fun row => Forall (eq NaN) row)); [|exact Hall].
      intros g' v Hv. apply dropout_vec_Forall; [|exact Hv].
      intros k a <-. symmetry. apply dropout_elem_NaN. }
  pose proof (aggregate_row_length m in_features out_features x Hok attn') as Hlen.
  apply (Forall_impl (P := eq NaN)); [intros a <-; symmetry; apply gelu_NaN|].
  apply (linear_vec_NaN out_features out_features); [apply (ok_fusion _ _ _ Hok)|exact Hout| |].
  - destruct res as [l|]; [|exact Hlen].
    rewrite zip_with_length, Hlen.
    rewrite (linear_vec_length in_features out_features) by apply Hres. apply Nat.min_id.
  - destruct res as [l|]; [|exact Hagg].
    apply (zip_with_Forall fadd (eq NaN) (fun _ => True) (eq NaN)).
    + intros a c <- _. reflexivity.
    + exact Hagg.
    + apply Forall_forall. intros; exact I.
Qed.

(** The result of [forward] on well-shaped real inputs: a matrix with one
    row of width [out_features] per node; the row of a node with a positive
    adjacency entry is real (for a positive leaky slope), and the row of a
    node with none is NaN throughout. *)
Lemma forward_result :
  exists out,
    WeightedMultiHeadGAT_forward m g x adj = Ok out
    /\ has_shape (length x) out_features out
    /\ forall i, (i < length x)%nat ->
         (0 < alpha m -> Exists positive (nth i adj []) -> finite_vec (nth i out []))
         /\ ((0 < out_features)%nat -> Forall not_positive (nth i adj []) ->
             Forall (eq NaN) (nth i out [])).
Proof.
  destruct (attention_weights_rows m in_features out_features x adj Hok Hxfin Hadj Hadjfin)
    as (t & Ht & _ & _ & _ & Hl & Hrows).
  destruct (ok_res _ _ _ Hok) as (res & Hres & Hresok).
  destruct (forward_rows m g x adj t res Ht Hres Hl) as (out & Hout & Hlen & Hrow).
  exists out. split; [exact Hout|]. split.
  - split; [exact Hlen|]. apply Forall_forall. intros row Hin.
    apply (In_nth _ _ []) in Hin. destruct Hin as (i & Hi & <-).
    rewrite Hlen in Hi. rewrite (Hrow i Hi).
    apply output_row_length.
  - intros i Hi. rewrite (Hrow i Hi).
    destruct (Hrows i Hi) as (-> & Hlen' & Hw & Hf & Hn). split.
    + intros Hs E. apply output_row_finite; [exact Hresok| |].
      * assert (S : has_shape (length (nth i t [])) (heads m)
                      (normalised_row (alpha m) (heads m) (nth i adj []) (nth i t [])))
          by (apply normalised_row_shape; assumption).
        apply S.
      * apply normalised_row_finite; assumption.
    + intros Ho E. apply output_row_NaN; [exact Ho|exact Hresok| |lia|].
      * assert (S : has_shape (length (nth i t [])) (heads m)
                      (normalised_row (alpha m) (heads m) (nth i adj []) (nth i t [])))
          by (apply normalised_row_shape; assumption).
        destruct S as [S _]. rewrite S. exact Hn.
      * apply normalised_row_all_masked; try assumption.
        intros C. rewrite C in Hn. simpl in Hn. lia.
Qed.

End LayerResult.

(** C2 (amended).  The layer has no special case for a destination node
    without a positive adjacency entry: on well-shaped real inputs [forward]
    returns, and the row of such a node holds [out_features] values that are
    all NaN, the engine's result for a softmax over scores that are all
    [-inf]. *)
Theorem all_masked_row_is_nan (m : WeightedMultiHeadGAT) (g : rng)
    (in_features out_features : nat) (x adj : matrix) (i : nat) :
  gat_ok in_features out_features m ->
  has_shape (length x) in_features x -> finite_mat x ->
  has_shape (length x) (length x) adj -> finite_mat adj ->
  (0 < out_features)%nat ->
  (i < length x)%nat ->
  Forall not_positive (nth i adj []) ->
  exists out,
    WeightedMultiHeadGAT_forward m g x adj = Ok out
    /\ length (nth i out []) = out_features
    /\ Forall (eq NaN) (nth i out []).
Proof.
  intros Hok Hx Hxf Hadj Hadjf Ho Hi Hmask.
  destruct (forward_result m g in_features out_features x adj Hok Hxf Hadj Hadjf)
    as (out & Hout & Hshape & Hrows).
  exists out. split; [exact Hout|]. split.
  - apply (has_shape_nth (length x) out_features out i Hshape Hi).
  - apply (Hrows i Hi); assumption.
Qed.

(** ** What the constructor establishes *)

Lemma WeightedMultiHeadGAT_init_gat_ok ini in_features out_features hd edge_dim p a uew m :
  WeightedMultiHeadGAT_init ini in_features out_features hd edge_dim p a true uew = Ok m ->
  (uew = true -> edge_dim = 1%nat) ->
  gat_ok in_features out_features m
  /\ alpha m = a /\ dropout m = p /\ training m = true /\ heads m = hd.
Proof.
  unfold WeightedMultiHeadGAT_init. intros Hm Hed.
  destruct (Nat.eqb_spec hd 0) as [|Hhd]; [discriminate|].
  destruct (Nat.eqb_spec (out_features mod hd) 0) as [Hmod|]; [|discriminate].
  cbn [negb] in Hm. destruct (dropout_rate_ok p); [|discriminate].
  cbn [negb] in Hm. injection Hm as <-.
  assert (Hout : out_features = (hd * (out_features / hd))%nat).
  { apply Nat.Div0.div_exact. exact Hmod. }
  split; [|repeat split]. constructor; cbn.
  - exact Hout.
  - rewrite <- Hout. split; [split; [apply tabulate_shape|exact I]|].
    split; [apply tabulate_finite|exact I].
  - rewrite <- Hout. split; [split; [apply tabulate_shape|apply tabulate_vec_length]|].
    split; [apply tabulate_finite|apply tabulate_vec_finite].
  - split; [apply tabulate_shape|apply tabulate_finite].
  - split; [apply tabulate_shape|apply tabulate_finite].
  - intros ->. rewrite (Hed eq_refl). eexists. split; [reflexivity|].
    split; [split; [apply tabulate_shape|apply tabulate_vec_length]|].
    split; [apply tabulate_finite|apply tabulate_vec_finite].
  - eexists. split; [reflexivity|]. cbn. rewrite <- Hout.
    split; [split; [apply tabulate_shape|apply tabulate_vec_length]|].
    split; [apply tabulate_finite|apply tabulate_vec_finite].
Qed.

Lemma sample_layer_init :
  WeightedMultiHeadGAT_init sample_init 1 1 1 1 (3 / 10) (2 / 10) true true = Ok sample_layer.
Proof.
  unfold WeightedMultiHeadGAT_init, dropout_rate_ok. cbn [Nat.eqb Nat.modulo negb].
  destruct (Rle_dec 0 (3 / 10)) as [_|N]; [|exfalso; lra].
  destruct (Rle_dec (3 / 10) 1) as [_|N]; [|exfalso; lra].
  reflexivity.
Qed.

Lemma sample_layer_ok : gat_ok 1 1 sample_layer.
Proof.
  apply (WeightedMultiHeadGAT_init_gat_ok sample_init 1 1 1 1 (3 / 10) (2 / 10) true).
  - exact sample_layer_init.
  - reflexivity.
Qed.

Lemma sample_x_shape : has_shape (length sample_x) 1 sample_x /\ finite_mat sample_x.
Proof. split; [split; [reflexivity|]|]; repeat constructor. Qed.

Lemma sample_adj_shape :
  has_shape (length sample_x) (length sample_x) sample_adj /\ finite_mat sample_adj.
Proof. split; [split; [reflexivity|]|]; repeat constructor. Qed.

Lemma not_positive_zero : not_positive (Fin 0).
Proof. unfold not_positive. simpl. destruct (Rlt_dec 0 0); [lra|reflexivity]. Qed.

Lemma positive_one : positive (Fin 1).
Proof. unfold positive. simpl. destruct (Rlt_dec 0 1); [reflexivity|lra]. Qed.

Lemma sample_adj_masked_row : Forall not_positive (nth 1 sample_adj []).
Proof. repeat constructor; apply not_positive_zero. Qed.

(** Witness for [all_masked_row_is_nan]: node 1 of the sample graph. *)
Lemma all_masked_row_is_nan_witness :
  exists out,
    WeightedMultiHeadGAT_forward sample_layer keep_all sample_x sample_adj = Ok out
    /\ length (nth 1 out []) = 1%nat
    /\ Forall (eq NaN) (nth 1 out []).
Proof.
  apply (all_masked_row_is_nan sample_layer keep_all 1 1 sample_x sample_adj 1).
  - exact sample_layer_ok.
  - exact (proj1 sample_x_shape).
  - exact (proj2 sample_x_shape).
  - exact (proj1 sample_adj_shape).
  - exact (proj2 sample_adj_shape).
  - lia.
  - simpl. lia.
  - exact sample_adj_masked_row.
Defined.

(** C2 (counterexample).  On the sample graph the output row of node 1,
    which has no positive adjacency entry, is the single value NaN. *)
Lemma all_masked_row_counterexample :
  exists out,
    WeightedMultiHeadGAT_forward sample_layer keep_all sample_x sample_adj = Ok out
    /\ nth 1 out [] = [NaN].
Proof.
  destruct (forward_result sample_layer keep_all 1 1 sample_x sample_adj sample_layer_ok
              (proj2 sample_x_shape) (proj1 sample_adj_shape) (proj2 sample_adj_shape))
    as (out & Hout & Hshape & Hrows).
  exists out. split; [exact Hout|].
  assert (Hlen : length (nth 1 out []) = 1%nat).
  { apply (has_shape_nth (length sample_x) 1 out 1 Hshape). simpl. lia. }
  assert (Hnan : Forall (eq NaN) (nth 1 out [])).
  { apply (Hrows 1%nat); [simpl; lia|lia|exact sample_adj_masked_row]. }
  destruct (nth 1 out []) as [|a [|b l]]; simpl in Hlen; try discriminate.
  inversion Hnan; subst. reflexivity.
Qed.

(** Witness for [attention_weights_distribution]: the sample graph, whose
    node 0 has positive adjacency entries and whose node 1 has none. *)
Lemma attention_weights_distribution_witness :
  exists attn,
    attention_weights sample_layer sample_x sample_adj = Ok attn
    /\ length attn = length sample_x
    /\ forall i h, (i < length sample_x)%nat -> (h < heads sample_layer)%nat ->
         (Exists positive (nth i sample_adj []) ->
            vsum (column h (nth i attn [])) = Fin 1
            /\ Forall finite (column h (nth i attn [])))
         /\ (Forall not_positive (nth i sample_adj []) ->
            vsum (column h (nth i attn [])) = NaN
            /\ Forall (eq NaN) (column h (nth i attn []))).
Proof.
  apply (attention_weights_distribution sample_layer 1 1 sample_x sample_adj).
  - exact sample_layer_ok.
  - simpl. lra.
  - exact (proj1 sample_x_shape).
  - exact (proj2 sample_x_shape).
  - exact (proj1 sample_adj_shape).
  - exact (proj2 sample_adj_shape).
Defined.

(** C3 (counterexample).  On the sample graph the attention weights of
    node 1 (no positive adjacency entry), head 0, add up to NaN: neither 1
    nor 0. *)
Lemma attention_sum_counterexample :
  exists attn,
    attention_weights sample_layer sample_x sample_adj = Ok attn
    /\ vsum (column 0 (nth 1 attn [])) = NaN
    /\ vsum (column 0 (nth 1 attn [])) <> Fin 1
    /\ vsum (column 0 (nth 1 attn [])) <> Fin 0.
Proof.
  destruct (attention_weights_rows sample_layer 1 1 sample_x sample_adj sample_layer_ok
              (proj2 sample_x_shape) (proj1 sample_adj_shape) (proj2 sample_adj_shape))
    as (t & _ & _ & _ & Hw & Hl & Hrows).
  exists (attention sample_layer sample_adj t). split; [exact Hw|].
  assert (Hi : (1 < length sample_x)%nat) by (simpl; lia).
  destruct (Hrows 1%nat Hi) as (Hrow & Hlen & Hwd & Hf & Hn).
  assert (Hne : nth 1 t [] <> []).
  { intros C. rewrite C in Hn. simpl in Hn. lia. }
  assert (Hall : Forall (fun row => Forall (eq NaN) row)
            (nth 1 (attention sample_layer sample_adj t) [])).
  { rewrite Hrow. apply normalised_row_all_masked; try assumption.
    exact sample_adj_masked_row. }
  assert (Hshape : has_shape (length (nth 1 t [])) (heads sample_layer)
            (nth 1 (attention sample_layer sample_adj t) [])).
  { rewrite Hrow. apply normalised_row_shape; assumption. }
  assert (Hsum : vsum (column 0 (nth 1 (attention sample_layer sample_adj t) [])) = NaN).
  { apply vsum_NaN. destruct Hshape as [Sl Sr].
    destruct (nth 1 (attention sample_layer sample_adj t) []) as [|row rows].
    - simpl in Sl. rewrite Hn in Sl. discriminate.
    - left. inversion Hall; subst. inversion Sr; subst.
      destruct row as [|a row]; [discriminate|]. inversion H1; subst. reflexivity. }
  rewrite Hsum. repeat split; discriminate.
Qed.

(** ** An empty stack of attention layers *)

Lemma FullModel_init_empty_dims ini cnn_feat_dim n gat_heads gat_dropout :
  FullModel_init ini cnn_feat_dim [] (Some n) gat_heads gat_dropout
  = match assoc "resnet50"%string (models_table ini) with
    | Ok _ => Raise IndexError
    | Raise e => Raise e
    end.
Proof.
  unfold FullModel_init, MultiScaleFeatureExtractor_init. cbn [bind].
  destruct (assoc "resnet50"%string (models_table ini)) as [net|e]; reflexivity.
Qed.

(** C9 (amended).  [StackedGAT([])] is not refused: whatever the other
    arguments, the constructor returns a stack with no layers, whose
    [forward] returns its input unchanged.  The empty list is fatal one level
    up: [FullModel.__init__] with [gat_dims = []] raises [IndexError] at
    [gat_dims[-1]], once the backbone has been found. *)
Theorem empty_stack_is_constructed (inis : nat -> gat_init) (in_features heads : nat)
    (p : R) (edge_dim : nat) (res : bool) :
  StackedGAT_init inis in_features [] heads p edge_dim res = Ok {| layers := [] |}
  /\ (forall g x adj, StackedGAT_forward {| layers := [] |} g x adj = Ok x)
  /\ (forall ini cnn_feat_dim n gat_heads gat_dropout,
        FullModel_init ini cnn_feat_dim [] (Some n) gat_heads gat_dropout
        = match assoc "resnet50"%string (models_table ini) with
          | Ok _ => Raise IndexError
          | Raise e => Raise e
          end).
Proof.
  split; [reflexivity|]. split; [reflexivity|].
  intros. apply FullModel_init_empty_dims.
Qed.

(** C9 (counterexample).  With the defaults of [FullModel]
    ([in_features = 2048], 12 heads, dropout 0.3) an empty list of hidden
    dimensions constructs a stack. *)
Lemma empty_stack_counterexample :
  StackedGAT_init (fun _ => sample_init) 2048 [] 12 (3 / 10) 1 true = Ok {| layers := [] |}.
Proof. reflexivity. Qed.

(** ** The focal loss *)

Lemma fmax_Fin a b : fmax (Fin a) (Fin b) = Fin (Rmax a b).
Proof.
  simpl. unfold Rmax.
  destruct (Rlt_dec a b), (Rle_dec a b); try reflexivity; try (f_equal; lra); lra.
Qed.

Lemma flog_pos r : 0 < r -> flog (Fin r) = Fin (ln r).
Proof. intros H. simpl. destruct (Rlt_dec 0 r); [reflexivity|contradiction]. Qed.

Lemma sigmoid_range x : 0 < 1 / (1 + exp (- x)) < 1.
Proof.
  pose proof (exp_pos (- x)) as He.
  assert (H1 : 0 < 1 + exp (- x)) by lra.
  split.
  - apply Rdiv_lt_0_compat; lra.
  - apply (Rmult_lt_reg_r (1 + exp (- x))); [exact H1|].
    unfold Rdiv. rewrite Rmult_assoc, Rinv_l by lra. lra.
Qed.

(** On real logits and targets, the cross-entropy with logits is the
    cross-entropy of the sigmoid of the logits. *)
Lemma bce_with_logits_is_bce_of_sigmoid x t :
  bce_with_logits (Fin x) (Fin t) = bce (sigmoid (Fin x)) (Fin t).
Proof.
  unfold bce_with_logits, bce. cbn [fneg sigmoid]. rewrite fmax_Fin.
  cbn [fneg fsub fadd fmul fexp].
  set (m := Rmax (- x) 0). set (L := ln (1 + exp (- x))).
  pose proof (exp_pos (- x)) as Hx. pose proof (exp_pos (- m)) as Hm.
  pose proof (exp_pos (- x + - m)) as Hxm.
  pose proof (sigmoid_range x) as [Hp0 Hp1].
  rewrite flog_pos by lra. rewrite flog_pos by exact Hp0. rewrite flog_pos by lra.
  cbn [fneg fsub fadd fmul]. f_equal.
  assert (E1 : ln (exp (- m) + exp (- x + - m)) = - m + L).
  { replace (exp (- m) + exp (- x + - m)) with (exp (- m) * (1 + exp (- x))).
    - rewrite ln_mult by lra. rewrite ln_exp. reflexivity.
    - rewrite exp_plus. ring. }
  assert (E2 : ln (1 / (1 + exp (- x))) = - L).
  { unfold Rdiv. rewrite Rmult_1_l. apply ln_Rinv. lra. }
  assert (E3 : ln (1 + - (1 / (1 + exp (- x)))) = - x - L).
  { replace (1 + - (1 / (1 + exp (- x)))) with (exp (- x) * / (1 + exp (- x)))
      by (field; lra).
    rewrite ln_mult; [|exact Hx|apply Rinv_0_lt_compat; lra].
    rewrite ln_exp, ln_Rinv by lra. reflexivity. }
  rewrite E1, E2, E3. ring.
Qed.

(** The cross-entropy of a real logit against a real target, as a real
    number. *)
Lemma bce_with_logits_real x t :
  bce_with_logits (Fin x) (Fin t)
  = Fin (- (t * ln (1 / (1 + exp (- x))) + (1 - t) * ln (1 - 1 / (1 + exp (- x))))).
Proof.
  rewrite bce_with_logits_is_bce_of_sigmoid. unfold bce. cbn [sigmoid fsub fneg fadd].
  pose proof (sigmoid_range x) as [H0 H1].
  rewrite !flog_pos by lra. reflexivity.
Qed.

(** On real logits and targets every term of [FocalLoss.forward] is the
    term of the specification. *)
Lemma focal_terms_of_logits (torch_pow : fp -> R -> fp) (self : FocalLoss)
    (xs ts : list (list R)) :
  map (map (focal_term torch_pow self))
      (zip_with (zip_with bce_with_logits) (lift xs) (lift ts))
  = zip_with (zip_with (focal_of_logit torch_pow (focal_gamma self) (focal_alpha self)))
             xs ts.
Proof.
  unfold lift. revert ts.
  induction xs as [|u xs IH]; intros [|v ts]; simpl; try reflexivity.
  rewrite IH. f_equal. clear IH. revert v.
  induction u as [|a u IHu]; intros [|b v]; simpl; try reflexivity.
  rewrite IHu, bce_with_logits_real. reflexivity.
Qed.

(** The scores of the classifier are values of [torch.sigmoid]: NaN or a
    real number in [0, 1]. *)
Lemma sigmoid_values (z : matrix) :
  Forall (Forall (fun a => a = NaN \/ unit_interval a)) (map (map sigmoid) z).
Proof.
  apply Forall_map. apply Forall_forall. intros row _.
  apply Forall_map. apply Forall_forall. intros a _.
  destruct a as [r| | |]; cbn [sigmoid].
  - right. eexists. split; [reflexivity|]. pose proof (sigmoid_range r). lra.
  - right. exists 1. split; [reflexivity|lra].
  - right. exists 0. split; [reflexivity|lra].
  - left. reflexivity.
Qed.

(** C10.  On real logits [xs] and targets [ts], [FocalLoss.forward] refuses
    mismatched shapes and otherwise returns the mean over the elements of
    [alpha * (1 - exp(-bce))^gamma * bce], where [bce] is the binary
    cross-entropy [-(t * ln p + (1 - t) * ln (1 - p))] of the probability
    [p = 1 / (1 + exp(-x))]: the loss applies the sigmoid to its inputs
    itself (the power function of the engine is left open).  The scores
    that [FullModel.forward] returns have already been through a sigmoid:
    they are the image under [torch.sigmoid] of the classifier's last
    activations, each NaN or a real number in [0, 1]. *)
Theorem focal_loss_takes_logits (torch_pow : fp -> R -> fp) (self : FocalLoss)
    (xs ts : list (list R)) :
  FocalLoss_forward torch_pow self (lift xs) (lift ts)
  = (if same_shape (lift xs) (lift ts)
     then Ok (focal_of_logits torch_pow (focal_gamma self) (focal_alpha self) xs ts)
     else Raise ValueError)
  /\ (forall (interpolate : nat * nat -> tensor4 -> tensor4) (m : FullModel) (g : rng)
        (x_img : tensor4) (scores : matrix) (m' : FullModel),
        FullModel_forward interpolate m g x_img = Ok (scores, m') ->
        (exists z, scores = map (map sigmoid) z)
        /\ Forall (Forall (fun a => a = NaN \/ unit_interval a)) scores).
Proof.
  split.
  - unfold FocalLoss_forward, focal_of_logits.
    destruct (same_shape (lift xs) (lift ts)); [|reflexivity].
    rewrite focal_terms_of_logits. reflexivity.
  - intros interpolate m g x_img scores m' H. unfold FullModel_forward in H.
    destruct (MultiScaleFeatureExtractor_forward interpolate (cnn m) x_img)
      as [[features cnn']|e]; [|discriminate]. cbn [bind] in H.
    destruct (StackedGAT_forward _ _ _ _) as [gat_out|e]; [|discriminate]. cbn [bind] in H.
    unfold GCNClassifier_forward in H.
    destruct (run_gcn_layers _ _ _) as [[z ls]|e]; [|discriminate]. cbn [bind] in H.
    injection H as <- _. split; [exists z; reflexivity|apply sigmoid_values].
Qed.

(** ** The adjacency matrix *)

Lemma fmul_comm a b : fmul a b = fmul b a.
Proof. destruct a, b; simpl; try reflexivity. f_equal. apply Rmult_comm. Qed.

Lemma dot_comm u v : dot u v = dot v u.
Proof.
  unfold dot. f_equal. revert v.
  induction u as [|a u IH]; intros [|b v]; simpl; try reflexivity.
  rewrite IH, fmul_comm. reflexivity.
Qed.

Lemma cosine_similarity_comm u v : cosine_similarity u v = cosine_similarity v u.
Proof. unfold cosine_similarity. cbv zeta. apply dot_comm. Qed.

Lemma sumsqR_nonneg v : 0 <= sumsqR v.
Proof.
  unfold sumsqR. apply sumR_nonneg. apply Forall_map. apply Forall_forall.
  intros r _. nra.
Qed.

Lemma dot_Fin a b : dot (map Fin a) (map Fin b) = Fin (dotR a b).
Proof.
  unfold dot, dotR. rewrite <- vsum_Fin. f_equal. revert b.
  induction a as [|x a IH]; intros [|y b]; simpl; try reflexivity.
  rewrite IH. reflexivity.
Qed.

Lemma l2_norm_Fin v : l2_norm (map Fin v) = Fin (norm2R v).
Proof.
  unfold l2_norm, norm2R, sumsqR. rewrite map_map.
  rewrite <- (map_map (fun r => r * r) Fin). rewrite vsum_Fin. simpl.
  pose proof (sumsqR_nonneg v) as H. unfold sumsqR in H.
  destruct (Rlt_dec (sumR (map (fun r => r * r) v)) 0); [lra|reflexivity].
Qed.

Lemma norm2R_nonneg v : 0 <= norm2R v.
Proof. apply sqrt_pos. Qed.

Lemma norm2R_sqr v : norm2R v * norm2R v = sumsqR v.
Proof. apply sqrt_sqrt. apply sumsqR_nonneg. Qed.

(** Division of a real vector by a clamped norm. *)
Lemma clamp_divide v eps :
  0 < eps ->
  map (fun a => fdiv a (fmax (l2_norm (map Fin v)) (Fin eps))) (map Fin v)
  = map Fin (map (fun r => r / Rmax (norm2R v) eps) v).
Proof.
  intros He. rewrite l2_norm_Fin, fmax_Fin, !map_map. apply map_ext. intros r. simpl.
  pose proof (Rmax_r (norm2R v) eps).
  destruct (Req_dec_T (Rmax (norm2R v) eps) 0); [lra|reflexivity].
Qed.

Lemma sumsqR_scaled v n : n <> 0 -> sumsqR (map (fun r => r / n) v) = sumsqR v / (n * n).
Proof.
  intros Hn. unfold sumsqR. induction v as [|r v IH]; simpl.
  - unfold Rdiv. rewrite Rmult_0_l. reflexivity.
  - rewrite IH. field. exact Hn.
Qed.

Lemma dotR_self v : dotR v v = sumsqR v.
Proof.
  unfold dotR, sumsqR. induction v as [|r v IH]; simpl; [reflexivity|].
  rewrite IH. reflexivity.
Qed.

(** [|a . b| <= (|a|^2 + |b|^2) / 2], also when the lengths differ. *)
Lemma dotR_bound a b :
  - (sumsqR a + sumsqR b) <= 2 * dotR a b <= sumsqR a + sumsqR b.
Proof.
  revert b. induction a as [|x a IH]; intros b.
  - pose proof (sumsqR_nonneg b) as Hb. change (dotR [] b) with 0.
    change (sumsqR []) with 0. lra.
  - destruct b as [|y b].
    + pose proof (sumsqR_nonneg (x :: a)) as Ha. change (dotR (x :: a) []) with 0.
      change (sumsqR []) with 0. lra.
    + specialize (IH b).
      change (dotR (x :: a) (y :: b)) with (x * y + dotR a b).
      change (sumsqR (x :: a)) with (x * x + sumsqR a).
      change (sumsqR (y :: b)) with (y * y + sumsqR b).
      pose proof (Rle_0_sqr (x - y)) as Hm. pose proof (Rle_0_sqr (x + y)) as Hp.
      unfold Rsqr in Hm, Hp. lra.
Qed.

Lemma clamped_sumsq_le_one v eps :
  0 < eps -> sumsqR (map (fun r => r / Rmax (norm2R v) eps) v) <= 1.
Proof.
  intros He. pose proof (Rmax_r (norm2R v) eps) as Hr.
  pose proof (Rmax_l (norm2R v) eps) as Hl. pose proof (norm2R_nonneg v) as Hn.
  set (n := Rmax (norm2R v) eps) in *.
  rewrite sumsqR_scaled by lra.
  apply (Rmult_le_reg_r (n * n)); [nra|].
  unfold Rdiv. rewrite Rmult_assoc, Rinv_l by nra.
  rewrite <- norm2R_sqr. nra.
Qed.

Lemma cosine_similarity_Fin u v :
  cosine_similarity (map Fin u) (map Fin v)
  = Fin (dotR (map (fun r => r / Rmax (norm2R u) cosine_eps) u)
              (map (fun r => r / Rmax (norm2R v) cosine_eps) v)).
Proof.
  assert (He : 0 < cosine_eps).
  { unfold cosine_eps. apply Rinv_0_lt_compat. apply pow_lt. lra. }
  unfold cosine_similarity. cbv zeta.
  rewrite !clamp_divide by exact He. apply dot_Fin.
Qed.

Lemma cosine_eps_pos : 0 < cosine_eps.
Proof. unfold cosine_eps. apply Rinv_0_lt_compat. apply pow_lt. lra. Qed.

Lemma cosine_similarity_range u v :
  exists c, cosine_similarity (map Fin u) (map Fin v) = Fin c /\ -1 <= c <= 1.
Proof.
  rewrite cosine_similarity_Fin. eexists. split; [reflexivity|].
  pose proof (clamped_sumsq_le_one u cosine_eps cosine_eps_pos).
  pose proof (clamped_sumsq_le_one v cosine_eps cosine_eps_pos).
  pose proof (dotR_bound (map (fun r => r / Rmax (norm2R u) cosine_eps) u)
                         (map (fun r => r / Rmax (norm2R v) cosine_eps) v)).
  lra.
Qed.

(** The similarity of a vector with itself: 1 when its norm reaches
    [eps], and never negative. *)
Lemma cosine_similarity_self v :
  exists c, cosine_similarity (map Fin v) (map Fin v) = Fin c /\ 0 <= c
            /\ (cosine_eps <= norm2R v -> c = 1).
Proof.
  rewrite cosine_similarity_Fin, dotR_self. eexists. split; [reflexivity|].
  pose proof cosine_eps_pos as He.
  pose proof (Rmax_r (norm2R v) cosine_eps) as Hr.
  split; [apply sumsqR_nonneg|].
  intros Hn. rewrite Rmax_left by exact Hn.
  rewrite sumsqR_scaled by lra. rewrite norm2R_sqr.
  pose proof (norm2R_sqr v). unfold Rdiv. apply Rinv_r. nra.
Qed.

Lemma rescale_Fin c : fdiv (fadd (Fin c) (Fin 1)) (Fin 2) = Fin ((c + 1) / 2).
Proof. simpl. destruct (Req_dec_T 2 0); [lra|reflexivity]. Qed.

Lemma build_adjacency_nth features i j :
  (i < length features)%nat -> (j < length features)%nat ->
  nth j (nth i (build_adjacency features) []) NaN
  = fdiv (fadd (cosine_similarity (nth i features []) (nth j features [])) (Fin 1)) (Fin 2).
Proof.
  intros Hi Hj. unfold build_adjacency, sim_matrix.
  rewrite (nth_map_lt _ _ _ [] []) by (rewrite length_map; exact Hi).
  rewrite (nth_map_lt _ _ _ [] []) by exact Hi.
  rewrite (nth_map_lt _ _ _ NaN NaN) by (rewrite length_map; exact Hj).
  rewrite (nth_map_lt _ _ _ [] NaN) by exact Hj. reflexivity.
Qed.

Lemma build_adjacency_shape features :
  has_shape (length features) (length features) (build_adjacency features).
Proof.
  unfold build_adjacency, sim_matrix. split.
  - rewrite !length_map. reflexivity.
  - apply Forall_map. apply Forall_map. apply Forall_forall. intros fi _.
    rewrite !length_map. reflexivity.
Qed.

Lemma build_adjacency_symmetric features i j :
  nth j (nth i (build_adjacency features) []) NaN
  = nth i (nth j (build_adjacency features) []) NaN.
Proof.
  pose proof (build_adjacency_shape features) as Hs.
  assert (Hout : forall a b, (length features <= b)%nat ->
            nth b (nth a (build_adjacency features) []) NaN = NaN
            /\ nth a (nth b (build_adjacency features) []) NaN = NaN).
  { intros a b Hb. split.
    - destruct (Nat.lt_ge_cases a (length features)) as [Ha|Ha].
      + apply nth_overflow. rewrite (has_shape_nth _ _ _ a Hs Ha). exact Hb.
      + rewrite (nth_overflow (build_adjacency features)) by (destruct Hs; lia).
        destruct b; reflexivity.
    - rewrite (nth_overflow (build_adjacency features)) by (destruct Hs; lia).
      destruct a; reflexivity. }
  destruct (Nat.lt_ge_cases i (length features)) as [Hi|Hi];
    destruct (Nat.lt_ge_cases j (length features)) as [Hj|Hj].
  - rewrite !build_adjacency_nth by assumption. rewrite cosine_similarity_comm. reflexivity.
  - destruct (Hout i j Hj) as [-> ->]. reflexivity.
  - destruct (Hout j i Hi) as [-> ->]. reflexivity.
  - destruct (Hout i j Hj) as [-> ->]. reflexivity.
Qed.

Lemma lift_nth rows i : nth i (lift rows) [] = map Fin (nth i rows []).
Proof.
  unfold lift. destruct (Nat.lt_ge_cases i (length rows)) as [Hi|Hi].
  - apply (nth_map_lt _ _ _ [] []). exact Hi.
  - rewrite !nth_overflow by (rewrite ?length_map; exact Hi). reflexivity.
Qed.

Lemma lift_length rows : length (lift rows) = length rows.
Proof. apply length_map. Qed.

Lemma build_adjacency_range rows :
  Forall (Forall unit_interval) (build_adjacency (lift rows)).
Proof.
  unfold build_adjacency, sim_matrix, lift.
  apply Forall_map. apply Forall_map. apply Forall_map. apply Forall_forall. intros u _.
  apply Forall_map. apply Forall_map. apply Forall_map. apply Forall_forall. intros v _.
  destruct (cosine_similarity_range u v) as (c & -> & Hc).
  rewrite rescale_Fin. eexists. split; [reflexivity|]. lra.
Qed.

Lemma build_adjacency_diagonal rows i :
  (i < length rows)%nat ->
  exists r, nth i (nth i (build_adjacency (lift rows)) []) NaN = Fin r
            /\ 1 / 2 <= r <= 1
            /\ (cosine_eps <= norm2R (nth i rows []) -> r = 1).
Proof.
  intros Hi. rewrite build_adjacency_nth by (rewrite lift_length; exact Hi).
  rewrite lift_nth.
  destruct (cosine_similarity_self (nth i rows [])) as (c & Hc & Hc0 & Hc1).
  destruct (cosine_similarity_range (nth i rows []) (nth i rows [])) as (c' & Hc' & Hr).
  rewrite Hc in Hc'. injection Hc' as <-.
  rewrite Hc, rescale_Fin. eexists. split; [reflexivity|]. split; [lra|].
  intros Hn. rewrite (Hc1 Hn). lra.
Qed.

(** C4 (amended).  The adjacency matrix built from a batch of real
    embeddings is square, symmetric, and has every entry in [0, 1]; the
    diagonal entry of an embedding is 1 when the embedding's L2 norm is at
    least the [eps = 1e-8] of the cosine similarity (in particular for a
    unit-norm embedding), and lies between 1/2 and 1 in any case. *)
Theorem adjacency_symmetric_bounded (rows : list (list R)) :
  has_shape (length rows) (length rows) (build_adjacency (lift rows))
  /\ (forall i j,
        nth j (nth i (build_adjacency (lift rows)) []) NaN
        = nth i (nth j (build_adjacency (lift rows)) []) NaN)
  /\ Forall (Forall unit_interval) (build_adjacency (lift rows))
  /\ (forall i, (i < length rows)%nat ->
        exists r, nth i (nth i (build_adjacency (lift rows)) []) NaN = Fin r
                  /\ 1 / 2 <= r <= 1
                  /\ (cosine_eps <= norm2R (nth i rows []) -> r = 1)).
Proof.
  split; [|split; [|split]].
  - rewrite <- (lift_length rows) at 1 2. apply build_adjacency_shape.
  - intros i j. apply build_adjacency_symmetric.
  - apply build_adjacency_range.
  - intros i Hi. apply build_adjacency_diagonal. exact Hi.
Qed.

(** C4 (counterexample).  A batch holding one zero embedding (what the
    extractor returns when the ReLU output is zero, and what dropout can
    leave): the only entry of the adjacency matrix, on the diagonal, is
    1/2. *)
Lemma adjacency_diagonal_counterexample :
  build_adjacency [[Fin 0]] = [[Fin (1 / 2)]].
Proof.
  change [[Fin 0]] with (lift [[0]]).
  destruct (build_adjacency_shape (lift [[0]])) as [Hl Hr].
  pose proof (build_adjacency_nth (lift [[0]]) 0 0) as Hnth.
  destruct (build_adjacency (lift [[0]])) as [|row [|row' rest]]; try discriminate.
  inversion Hr; subst. destruct row as [|a [|b row]]; try discriminate.
  simpl in Hnth. rewrite Hnth by (simpl; lia).
  change [Fin 0] with (map Fin [0]). rewrite cosine_similarity_Fin, rescale_Fin.
  do 3 f_equal. unfold dotR. simpl. field.
  pose proof cosine_eps_pos. pose proof (Rmax_r (norm2R [0]) cosine_eps). lra.
Qed.

(** ** Batch and layer normalisation *)

Lemma norm_eps_pos : 0 < norm_eps.
Proof. unfold norm_eps. apply Rinv_0_lt_compat. apply pow_lt. lra. Qed.

Lemma INR_length_pos {A} (l : list A) : l <> [] -> 0 < INR (length l).
Proof. intros H. destruct l; [congruence|]. apply lt_0_INR. simpl. lia. Qed.

Lemma mean_Fin rs : rs <> [] -> mean (map Fin rs) = Fin (sumR rs / INR (length rs)).
Proof.
  intros H. unfold mean. rewrite vsum_Fin, length_map. simpl.
  pose proof (INR_length_pos rs H).
  destruct (Req_dec_T (INR (length rs)) 0); [lra|reflexivity].
Qed.

Lemma mean_finite v : v <> [] -> finite_vec v -> finite (mean v).
Proof.
  intros Hne Hf. rewrite (Forall_finite_map_val v Hf). rewrite mean_Fin; [exact I|].
  destruct v; [congruence|discriminate].
Qed.

Lemma mean_nonneg v : v <> [] -> Forall nonneg v -> nonneg (mean v).
Proof.
  intros Hne Hv.
  assert (Hf : finite_vec v) by (eapply Forall_impl; [|exact Hv]; intros a [F _]; exact F).
  rewrite (Forall_finite_map_val v Hf). rewrite mean_Fin by (destruct v; [congruence|discriminate]).
  split; [exact I|]. simpl. rewrite length_map.
  apply Rmult_le_pos.
  - apply sumR_nonneg. apply Forall_map. eapply Forall_impl; [|exact Hv]. intros a [_ N]. exact N.
  - left. apply Rinv_0_lt_compat. apply INR_length_pos. exact Hne.
Qed.

Lemma variance_nonneg mu v : v <> [] -> finite mu -> finite_vec v -> nonneg (variance mu v).
Proof.
  intros Hne Hmu Hv. unfold variance. apply mean_nonneg.
  - destruct v; [congruence|discriminate].
  - apply Forall_map. eapply Forall_impl; [|exact Hv]. intros a Ha.
    destruct a, mu; simpl in *; try contradiction. split; [exact I|]. simpl.
    apply Rle_0_sqr.
Qed.

Lemma normalise_elem_finite mu var w b a :
  finite mu -> nonneg var -> finite w -> finite b -> finite a ->
  finite (normalise_elem mu var w b a).
Proof.
  intros Hmu [Hvf Hv] Hw Hb Ha. unfold normalise_elem.
  destruct mu, var as [v| | |], w, b, a; simpl in *; try contradiction.
  pose proof norm_eps_pos as He.
  destruct (Rlt_dec (v + norm_eps) 0); [lra|].
  assert (Hs : 0 < sqrt (v + norm_eps)) by (apply sqrt_lt_R0; lra).
  cbn [fdiv fmul fadd]. destruct (Req_dec_T (sqrt (v + norm_eps)) 0); [lra|exact I].
Qed.

Lemma column_finite c k (m : matrix) :
  Forall (fun r => length r = c) m -> finite_mat m -> (k < c)%nat ->
  finite_vec (column k m).
Proof.
  intros Hs Hf Hk. unfold column. apply Forall_map.
  rewrite Forall_forall in Hs, Hf. apply Forall_forall. intros row Hin.
  apply Forall_nth_lt; [apply Hf; exact Hin|]. rewrite (Hs row Hin). exact Hk.
Qed.

Lemma bn_apply_ok bn n means vars b x :
  bn_ok n bn -> has_shape b n x -> finite_mat x ->
  length means = n -> finite_vec means ->
  length vars = n -> Forall nonneg vars ->
  has_shape b n (bn_apply bn means vars x) /\ finite_mat (bn_apply bn means vars x).
Proof.
  intros [[Wl Wf] [Bl Bf] _ _] [Xl Xr] Xf Ml Mf Vl Vf. unfold bn_apply. split; [split|].
  - rewrite length_map. exact Xl.
  - apply Forall_map. apply Forall_forall. intros row _.
    rewrite length_map, length_seq. exact Wl.
  - apply Forall_map. rewrite Forall_forall in Xr, Xf. apply Forall_forall. intros row Hin.
    apply Forall_map_seq. intros c Hc. rewrite Wl in Hc.
    apply normalise_elem_finite.
    + apply Forall_nth_lt; [exact Mf|lia].
    + apply (Forall_nth_lt nonneg); [exact Vf|lia].
    + apply Forall_nth_lt; [exact Wf|lia].
    + apply Forall_nth_lt; [exact Bf|lia].
    + apply Forall_nth_lt; [apply Xf; exact Hin|]. rewrite (Xr row Hin). exact Hc.
Qed.

Lemma BatchNorm1d_forward_ok bn n b x :
  bn_ok n bn -> has_shape b n x -> finite_mat x -> bn_accepts bn b ->
  exists y bn',
    BatchNorm1d_forward bn x = Ok (y, bn')
    /\ has_shape b n y /\ finite_mat y
    /\ (bn_training bn = false -> bn' = bn).
Proof.
  intros Hok Hx Hxf Hacc. unfold BatchNorm1d_forward.
  destruct (bn_training bn) eqn:Et.
  - destruct Hx as [Xl Xr].
    destruct (Nat.eqb_spec (length x) 1) as [E|E]; [exfalso; apply (Hacc Et); lia|].
    eexists. eexists. split; [reflexivity|].
    destruct x as [|r0 x'].
    + simpl in Xl. subst b. unfold bn_apply. simpl. repeat split; try constructor.
      discriminate.
    + set (x := r0 :: x') in *.
      assert (Hcols : forall k, (k < n)%nat ->
                column k x <> [] /\ finite_vec (column k x)).
      { intros k Hk. split; [unfold column, x; simpl; discriminate|].
        apply (column_finite n); assumption. }
      destruct (bn_weight_ok _ _ Hok) as [Wl _].
      assert (Hm : length (map mean (transpose (length (bn_weight bn)) x)) = n
                   /\ finite_vec (map mean (transpose (length (bn_weight bn)) x))).
      { unfold transpose. rewrite !length_map, length_seq, Wl. split; [reflexivity|].
        rewrite map_map. apply Forall_map_seq. intros k Hk.
        apply mean_finite; apply Hcols; exact Hk. }
      assert (Hv : length (zip_with variance (map mean (transpose (length (bn_weight bn)) x))
                             (transpose (length (bn_weight bn)) x)) = n
                   /\ Forall nonneg (zip_with variance
                             (map mean (transpose (length (bn_weight bn)) x))
                             (transpose (length (bn_weight bn)) x))).
      { split.
        - rewrite zip_with_length. destruct Hm as [-> _]. unfold transpose.
          rewrite length_map, length_seq, Wl. apply Nat.min_id.
        - apply (zip_with_Forall variance finite
                   (fun col => col <> [] /\ finite_vec col) nonneg).
          + intros mu col Hmu [Hne Hf]. apply variance_nonneg; assumption.
          + apply Hm.
          + unfold transpose. rewrite Wl. apply Forall_map_seq. exact Hcols. }
      split; [|split; [|discriminate]];
        apply (bn_apply_ok bn n _ _ b x Hok (conj Xl Xr) Hxf); try apply Hm; apply Hv.
  - destruct Hok as [W B [Ml Mf] [Vl Vf]].
    eexists. eexists. split; [reflexivity|].
    split; [|split; [|reflexivity]];
      apply (bn_apply_ok bn n _ _ b x); try assumption; constructor; try assumption;
        split; assumption.
Qed.

Lemma BatchNorm1d_init_ok n : bn_ok n (BatchNorm1d_init n).
Proof.
  constructor; simpl; (split; [apply repeat_length|]);
    apply Forall_forall; intros a Ha; apply repeat_spec in Ha; subst; simpl; auto.
  split; [exact I|]. simpl. lra.
Qed.

Lemma LayerNorm_forward_ok ln n b x :
  ln_ok n ln -> has_shape b n x -> finite_mat x ->
  has_shape b n (LayerNorm_forward ln x) /\ finite_mat (LayerNorm_forward ln x).
Proof.
  intros [[Wl Wf] [Bl Bf]] [Xl Xr] Xf. unfold LayerNorm_forward. split; [split|].
  - rewrite length_map. exact Xl.
  - apply Forall_map. apply Forall_forall. intros row _. cbv zeta.
    rewrite length_map, length_seq. exact Wl.
  - apply Forall_map. rewrite Forall_forall in Xr, Xf. apply Forall_forall. intros row Hin.
    cbv zeta. apply Forall_map_seq. intros c Hc. rewrite Wl in Hc.
    assert (Hne : row <> []).
    { intros C. specialize (Xr row Hin). rewrite C in Xr. simpl in Xr. lia. }
    apply normalise_elem_finite.
    + apply mean_finite; [exact Hne|apply Xf; exact Hin].
    + apply variance_nonneg; [exact Hne| |apply Xf; exact Hin].
      apply mean_finite; [exact Hne|apply Xf; exact Hin].
    + apply Forall_nth_lt; [exact Wf|lia].
    + apply Forall_nth_lt; [exact Bf|lia].
    + apply Forall_nth_lt; [apply Xf; exact Hin|]. rewrite (Xr row Hin). exact Hc.
Qed.

Lemma LayerNorm_init_ok n : ln_ok n (LayerNorm_init n).
Proof.
  constructor; simpl; (split; [apply repeat_length|]);
    apply Forall_forall; intros a Ha; apply repeat_spec in Ha; subst; exact I.
Qed.

(** ** The feature extractor *)

Lemma avg_pool_flatten_ok b c fused :
  maps_ok b c fused ->
  has_shape b c (avg_pool_flatten fused) /\ finite_mat (avg_pool_flatten fused).
Proof.
  intros [Hl Hr]. unfold avg_pool_flatten. split; [split|].
  - rewrite length_map. exact Hl.
  - apply Forall_map. eapply Forall_impl; [|exact Hr]. intros sample [Hs _].
    rewrite length_map. exact Hs.
  - apply Forall_map. eapply Forall_impl; [|exact Hr]. intros sample [_ Hs].
    apply Forall_map. eapply Forall_impl; [|exact Hs]. intros ch [Hne Hf].
    apply mean_finite; assumption.
Qed.

Lemma normalize_eps_pos : 0 < normalize_eps.
Proof. unfold normalize_eps. apply Rinv_0_lt_compat. apply pow_lt. lra. Qed.

Lemma normalize_row_Fin v :
  normalize_row (map Fin v) = map Fin (map (fun r => r / Rmax (norm2R v) normalize_eps) v).
Proof. unfold normalize_row. cbv zeta. apply clamp_divide. apply normalize_eps_pos. Qed.

Lemma norm2R_scaled v n : 0 < n -> norm2R (map (fun r => r / n) v) = norm2R v / n.
Proof.
  intros Hn. unfold norm2R. rewrite sumsqR_scaled by lra.
  rewrite sqrt_div_alt by nra. rewrite sqrt_square by lra. reflexivity.
Qed.

(** The norm of a normalised real row. *)
Lemma normalize_row_norm v :
  l2_norm (normalize_row (map Fin v)) = Fin (norm2R v / Rmax (norm2R v) normalize_eps)
  /\ (normalize_eps <= norm2R v -> l2_norm (normalize_row (map Fin v)) = Fin 1).
Proof.
  pose proof normalize_eps_pos as He.
  pose proof (Rmax_r (norm2R v) normalize_eps) as Hr.
  rewrite normalize_row_Fin, l2_norm_Fin, norm2R_scaled by lra.
  split; [reflexivity|]. intros Hn. rewrite Rmax_left by exact Hn.
  f_equal. unfold Rdiv. apply Rinv_r. lra.
Qed.

Lemma normalize_row_nonneg v :
  finite_vec v -> finite_vec (normalize_row v)
  /\ (Forall nonneg v -> Forall nonneg (normalize_row v)).
Proof.
  intros Hf. split.
  - rewrite (Forall_finite_map_val v Hf), normalize_row_Fin. apply Forall_finite_map_Fin.
  - intros Hn. unfold normalize_row. cbv zeta. apply Forall_map.
    assert (HN : exists n, fmax (l2_norm v) (Fin normalize_eps) = Fin n /\ 0 < n).
    { rewrite (Forall_finite_map_val v Hf), l2_norm_Fin, fmax_Fin.
      eexists. split; [reflexivity|].
      pose proof normalize_eps_pos.
      pose proof (Rmax_r (norm2R (map val v)) normalize_eps). lra. }
    destruct HN as (n & -> & HN). eapply Forall_impl; [|exact Hn]. intros a [Fa Na].
    destruct a; simpl in *; try contradiction.
    destruct (Req_dec_T n 0); [lra|]. split; [exact I|]. simpl.
    apply Rmult_le_pos; [exact Na|]. left. apply Rinv_0_lt_compat. exact HN.
Qed.

Lemma normalize_row_length v : length (normalize_row v) = length v.
Proof. unfold normalize_row. cbv zeta. apply length_map. Qed.

Section ExtractorFacts.

Variable interpolate : nat * nat -> tensor4 -> tensor4.
Variable self : MultiScaleFeatureExtractor.
Variable x fused : tensor4.
Variables b c d : nat.

Hypothesis Hfused : fused_features interpolate self x = Ok fused.
Hypothesis Hmaps : maps_ok b c fused.
Hypothesis Hok : cnn_ok c d self.
Hypothesis Hacc : bn_accepts (fuse_bn self) b.

Lemma fuse_ok :
  exists y bn',
    fuse self fused = Ok (y, bn')
    /\ has_shape b d y /\ Forall (Forall nonneg) y
    /\ (bn_training (fuse_bn self) = false -> bn' = fuse_bn self).
Proof.
  destruct (avg_pool_flatten_ok b c fused Hmaps) as [[Pl Pr] Pf].
  destruct Hok as [[Ls Lf] Hbn].
  pose proof (linear_shape_out c d (fuse_linear self) (avg_pool_flatten fused) Ls) as Hs.
  rewrite Pl in Hs.
  pose proof (linear_finite (fuse_linear self) (avg_pool_flatten fused) Lf Pf) as Hf.
  destruct (BatchNorm1d_forward_ok (fuse_bn self) d b _ Hbn Hs Hf Hacc)
    as (y & bn' & Hy & [Yl Yr] & Yf & Hsame).
  exists (map (map relu) y), bn'. unfold fuse. rewrite Hy. cbn [bind].
  split; [reflexivity|]. split; [split|split].
  - rewrite length_map. exact Yl.
  - apply Forall_map. eapply Forall_impl; [|exact Yr]. intros row Hrow.
    rewrite length_map. exact Hrow.
  - apply Forall_map. eapply Forall_impl; [|exact Yf]. intros row Hrow.
    apply Forall_map. eapply Forall_impl; [|exact Hrow]. intros a Ha.
    apply relu_finite. exact Ha.
  - exact Hsame.
Qed.

Lemma extractor_forward_ok :
  exists y bn',
    fuse self fused = Ok (y, bn')
    /\ MultiScaleFeatureExtractor_forward interpolate self x
       = Ok (map normalize_row y, with_fuse_bn self bn')
    /\ has_shape b d y /\ Forall (Forall nonneg) y
    /\ has_shape b d (map normalize_row y)
    /\ Forall (Forall nonneg) (map normalize_row y)
    /\ (bn_training (fuse_bn self) = false -> bn' = fuse_bn self).
Proof.
  destruct fuse_ok as (y & bn' & Hy & [Yl Yr] & Yn & Hsame).
  exists y, bn'. split; [exact Hy|].
  split; [unfold MultiScaleFeatureExtractor_forward; rewrite Hfused; cbn [bind];
          rewrite Hy; reflexivity|].
  split; [split; assumption|]. split; [exact Yn|]. split; [split|split].
  - rewrite length_map. exact Yl.
  - apply Forall_map. eapply Forall_impl; [|exact Yr]. intros row Hrow.
    rewrite normalize_row_length. exact Hrow.
  - apply Forall_map. eapply Forall_impl; [|exact Yn]. intros row Hrow.
    apply normalize_row_nonneg; [|exact Hrow].
    eapply Forall_impl; [|exact Hrow]. intros a [Ha _]. exact Ha.
  - exact Hsame.
Qed.

End ExtractorFacts.

(** C6 (amended).  When the backbone yields [c] non-empty real feature maps
    per image and batch normalisation accepts the batch, [forward] returns
    the rows of [self.fuse] normalised one by one; an output row has L2 norm
    [|v| / max(|v|, 1e-12)], where [v] is the row before the normalisation:
    norm 1 when [|v|] is at least [1e-12], and norm 0 when [v] is the zero
    row. *)
Theorem embeddings_unit_norm (interpolate : nat * nat -> tensor4 -> tensor4)
    (self : MultiScaleFeatureExtractor) (x fused : tensor4) (b c d : nat) :
  fused_features interpolate self x = Ok fused ->
  maps_ok b c fused ->
  cnn_ok c d self ->
  bn_accepts (fuse_bn self) b ->
  exists y out self',
    fuse self fused = Ok (y, fuse_bn self')
    /\ MultiScaleFeatureExtractor_forward interpolate self x = Ok (out, self')
    /\ has_shape b d out
    /\ forall i, (i < b)%nat ->
         exists v : list R,
           nth i y [] = map Fin v
           /\ l2_norm (nth i out []) = Fin (norm2R v / Rmax (norm2R v) normalize_eps)
           /\ (normalize_eps <= norm2R v -> l2_norm (nth i out []) = Fin 1)
           /\ (norm2R v = 0 -> l2_norm (nth i out []) = Fin 0).
Proof.
  intros Hfused Hmaps Hok Hacc.
  destruct (extractor_forward_ok interpolate self x fused b c d Hfused Hmaps Hok Hacc)
    as (y & bn' & Hy & Hfw & [Yl Yr] & Yn & Hs & _ & _).
  exists y, (map normalize_row y), (with_fuse_bn self bn').
  split; [exact Hy|]. split; [exact Hfw|]. split; [exact Hs|].
  intros i Hi.
  assert (Hfin : finite_vec (nth i y [])).
  { apply (Forall_nth_lt (Forall nonneg) y i []) in Yn; [|lia].
    eapply Forall_impl; [|exact Yn]. intros a [Ha _]. exact Ha. }
  pose proof (Forall_finite_map_val _ Hfin) as E.
  set (v := map val (nth i y [])) in *. clearbody v.
  exists v. split; [exact E|].
  rewrite (nth_map_lt _ _ _ [] []) by lia. rewrite E.
  destruct (normalize_row_norm v) as [N1 N2].
  split; [exact N1|]. split; [exact N2|].
  intros Hz. rewrite N1, Hz. f_equal. unfold Rdiv. apply Rmult_0_l.
Qed.

(** ** Two identical images in a training batch *)


Lemma sample_fused :
  fused_features no_interpolation sample_extractor sample_images
  = Ok [repeat [[Fin 1]] 2048; repeat [[Fin 1]] 2048].
Proof. reflexivity. Qed.

Lemma sample_maps_ok :
  maps_ok 2 2048 [repeat [[Fin 1]] 2048; repeat [[Fin 1]] 2048].
Proof.
  split; [reflexivity|].
  assert (H : length (repeat [[Fin 1]] 2048) = 2048%nat
              /\ Forall (fun channel : list (list fp) =>
                           concat channel <> [] /\ finite_vec (concat channel))
                        (repeat [[Fin 1]] 2048)).
  { split; [apply repeat_length|]. apply Forall_forall. intros ch Hin.
    apply repeat_spec in Hin. subst ch. split; [discriminate|]. repeat constructor. }
  constructor; [exact H|]. constructor; [exact H|]. constructor.
Qed.

Lemma Linear_init_ok ini i o :
  linear_shape i o (Linear_init ini i o) /\ finite_linear (Linear_init ini i o).
Proof.
  unfold Linear_init. split; split; simpl.
  - apply tabulate_shape.
  - apply tabulate_vec_length.
  - apply tabulate_finite.
  - apply tabulate_vec_finite.
Qed.

Lemma sample_extractor_ok : cnn_ok 2048 2 sample_extractor.
Proof.
  constructor.
  - apply Linear_init_ok.
  - apply BatchNorm1d_init_ok.
Qed.

Lemma sample_extractor_accepts : bn_accepts (fuse_bn sample_extractor) 2.
Proof. intros _. discriminate. Qed.

(** Witness for [embeddings_unit_norm]: a fresh extractor on two
    images. *)
Lemma embeddings_unit_norm_witness :
  exists y out self',
    fuse sample_extractor [repeat [[Fin 1]] 2048; repeat [[Fin 1]] 2048]
    = Ok (y, fuse_bn self')
    /\ MultiScaleFeatureExtractor_forward no_interpolation sample_extractor sample_images
       = Ok (out, self')
    /\ has_shape 2 2 out
    /\ forall i, (i < 2)%nat ->
         exists v : list R,
           nth i y [] = map Fin v
           /\ l2_norm (nth i out []) = Fin (norm2R v / Rmax (norm2R v) normalize_eps)
           /\ (normalize_eps <= norm2R v -> l2_norm (nth i out []) = Fin 1)
           /\ (norm2R v = 0 -> l2_norm (nth i out []) = Fin 0).
Proof.
  apply (embeddings_unit_norm no_interpolation sample_extractor sample_images
           [repeat [[Fin 1]] 2048; repeat [[Fin 1]] 2048] 2 2048 2).
  - exact sample_fused.
  - exact sample_maps_ok.
  - exact sample_extractor_ok.
  - exact sample_extractor_accepts.
Defined.

(** A fresh batch normalisation in training mode maps two equal real rows
    to zero rows. *)
Lemma normalise_identical v :
  normalise_elem (mean [Fin v; Fin v]) (variance (mean [Fin v; Fin v]) [Fin v; Fin v])
    (Fin 1) (Fin 0) (Fin v) = Fin 0.
Proof.
  assert (H2 : INR 2 = 2) by (simpl; lra).
  assert (Hmean : mean [Fin v; Fin v] = Fin v).
  { change [Fin v; Fin v] with (map Fin [v; v]). rewrite mean_Fin by discriminate.
    f_equal. simpl length. rewrite H2. simpl. field. }
  rewrite Hmean.
  assert (Hvar : variance (Fin v) [Fin v; Fin v] = Fin 0).
  { unfold variance. cbn [map fsub fneg fadd fmul].
    change [Fin ((v + - v) * (v + - v)); Fin ((v + - v) * (v + - v))]
      with (map Fin [(v + - v) * (v + - v); (v + - v) * (v + - v)]).
    rewrite mean_Fin by discriminate. f_equal. simpl length. rewrite H2. simpl. field. }
  rewrite Hvar. unfold normalise_elem. cbn [fsub fneg fadd].
  pose proof norm_eps_pos as He. simpl fsqrt.
  destruct (Rlt_dec (0 + norm_eps) 0); [lra|].
  assert (Hs : 0 < sqrt (0 + norm_eps)) by (apply sqrt_lt_R0; lra).
  cbn [fdiv]. destruct (Req_dec_T (sqrt (0 + norm_eps)) 0); [lra|].
  cbn [fmul fadd]. f_equal. field. lra.
Qed.

Lemma fresh_bn_identical_rows d (r : list R) :
  length r = d ->
  exists bn',
    BatchNorm1d_forward (BatchNorm1d_init d) [map Fin r; map Fin r]
    = Ok ([repeat (Fin 0) d; repeat (Fin 0) d], bn').
Proof.
  intros Hr. unfold BatchNorm1d_forward. cbn [bn_training BatchNorm1d_init length Nat.eqb].
  eexists. f_equal. f_equal.
  unfold bn_apply. cbn [map].
  change (bn_weight (BatchNorm1d_init d)) with (repeat (Fin 1) d).
  change (bn_bias (BatchNorm1d_init d)) with (repeat (Fin 0) d).
  rewrite repeat_length.
  assert (Hrow : map (fun c =>
             normalise_elem
               (nth c (map mean (transpose d [map Fin r; map Fin r])) NaN)
               (nth c (zip_with variance (map mean (transpose d [map Fin r; map Fin r]))
                         (transpose d [map Fin r; map Fin r])) NaN)
               (nth c (repeat (Fin 1) d) NaN) (nth c (repeat (Fin 0) d) NaN)
               (nth c (map Fin r) NaN)) (seq 0 d) = repeat (Fin 0) d).
  { transitivity (map (fun _ : nat => Fin 0) (seq 0 d));
      [|rewrite map_const, length_seq; reflexivity].
    apply map_ext_in. intros c Hc. apply in_seq in Hc.
    assert (Hcol : nth c (transpose d [map Fin r; map Fin r]) []
                   = [Fin (nth c r 0); Fin (nth c r 0)]).
    { unfold transpose. rewrite (nth_map_lt _ _ _ O []) by (rewrite length_seq; lia).
      rewrite seq_nth by lia. unfold column. cbn [map].
      rewrite (nth_map_lt _ _ _ 0 NaN) by lia. reflexivity. }
    assert (Hlen : length (transpose d [map Fin r; map Fin r]) = d)
      by (unfold transpose; rewrite length_map, length_seq; reflexivity).
    rewrite (nth_map_lt _ _ _ [] NaN) by lia.
    rewrite (zip_with_nth _ _ _ _ NaN [] NaN) by (rewrite ?length_map; lia).
    rewrite (nth_map_lt _ _ _ [] NaN) by lia.
    rewrite Hcol. rewrite !nth_repeat_lt by lia.
    rewrite (nth_map_lt _ _ _ 0 NaN) by lia.
    apply normalise_identical. }
  rewrite Hrow. reflexivity.
Qed.

Lemma relu_zero : relu (Fin 0) = Fin 0.
Proof. simpl. destruct (Rlt_dec 0 0); [lra|reflexivity]. Qed.

Lemma norm2R_zeros d : norm2R (repeat 0 d) = 0.
Proof.
  unfold norm2R. replace (sumsqR (repeat 0 d)) with 0; [apply sqrt_0|].
  unfold sumsqR. induction d as [|d IH]; simpl; [reflexivity|]. rewrite <- IH. lra.
Qed.

(** C6 (counterexample).  A freshly constructed extractor in training mode
    on a batch of two identical images: batch normalisation maps both rows
    to its bias 0, the ReLU keeps 0, and the normalisation leaves the zero
    rows as they are, so the embeddings have norm 0. *)
Lemma zero_embedding_counterexample :
  exists out self',
    MultiScaleFeatureExtractor_forward no_interpolation sample_extractor sample_images
    = Ok (out, self')
    /\ l2_norm (nth 0 out []) = Fin 0
    /\ l2_norm (nth 1 out []) = Fin 0.
Proof.
  unfold MultiScaleFeatureExtractor_forward. rewrite sample_fused. cbn [bind].
  unfold fuse.
  destruct (avg_pool_flatten_ok 2 2048 _ sample_maps_ok) as [_ Pf].
  set (p := avg_pool_flatten [repeat [[Fin 1]] 2048; repeat [[Fin 1]] 2048]) in *.
  assert (Hp : exists q, p = [q; q] /\ finite_vec q).
  { unfold p, avg_pool_flatten. cbn [map]. eexists. split; [reflexivity|].
    inversion Pf; subst. assumption. }
  destruct Hp as (q & -> & Hq). cbn [linear map].
  assert (Hr : finite_vec (linear_vec (fuse_linear sample_extractor) q)
               /\ length (linear_vec (fuse_linear sample_extractor) q) = 2%nat).
  { split.
    - apply linear_vec_finite; [apply sample_extractor_ok|exact Hq].
    - apply (linear_vec_length 2048 2). apply sample_extractor_ok. }
  destruct Hr as [Hrf Hrl].
  rewrite (Forall_finite_map_val _ Hrf).
  destruct (fresh_bn_identical_rows 2
              (map val (linear_vec (fuse_linear sample_extractor) q))) as (bn' & Hbn).
  { rewrite length_map. exact Hrl. }
  change (fuse_bn sample_extractor) with (BatchNorm1d_init 2). rewrite Hbn.
  cbn [bind repeat map]. rewrite relu_zero.
  eexists. eexists. split; [reflexivity|]. cbn [nth].
  change [Fin 0; Fin 0] with (map Fin (repeat 0 2)).
  destruct (normalize_row_norm (repeat 0 2)) as [-> _].
  rewrite norm2R_zeros. split; f_equal; unfold Rdiv; apply Rmult_0_l.
Qed.

(** ** The stacked attention stage *)

Lemma forward_finite l g in_dim out_dim x adj :
  gat_ok in_dim out_dim l -> 0 < alpha l ->
  has_shape (length x) in_dim x -> finite_mat x ->
  has_shape (length x) (length x) adj -> finite_mat adj ->
  Forall (Exists positive) adj ->
  exists out,
    WeightedMultiHeadGAT_forward l g x adj = Ok out
    /\ has_shape (length x) out_dim out /\ finite_mat out.
Proof.
  intros Hok Ha Hx Hxf Hadj Hadjf Hpos.
  destruct (forward_result l g in_dim out_dim x adj Hok Hxf Hadj Hadjf)
    as (out & Hout & Hs & Hrows).
  exists out. split; [exact Hout|]. split; [exact Hs|].
  apply Forall_forall. intros row Hin. apply (In_nth _ _ []) in Hin.
  destruct Hin as (i & Hi & <-). destruct Hs as [Hl _]. rewrite Hl in Hi.
  apply (Hrows i Hi); [exact Ha|].
  apply (Forall_nth_lt (Exists positive)); [exact Hpos|]. destruct Hadj as [Al _]. lia.
Qed.

Lemma run_gat_layers_ok ls : forall k g in_dim out_dim x adj,
  stack_ok in_dim ls out_dim ->
  has_shape (length x) in_dim x -> finite_mat x ->
  has_shape (length x) (length x) adj -> finite_mat adj ->
  Forall (Exists positive) adj ->
  exists out,
    run_gat_layers ls k g x adj = Ok out
    /\ has_shape (length x) out_dim out /\ finite_mat out.
Proof.
  induction ls as [|l ls IH]; intros k g in_dim out_dim x adj Hok Hx Hxf Hadj Hadjf Hpos.
  - simpl in Hok. subst out_dim. exists x. repeat split; try assumption; apply Hx.
  - destruct Hok as (mid & Hl & Ha & Hrest). cbn [run_gat_layers].
    destruct (forward_finite l (sub_rng g k) in_dim mid x adj Hl Ha Hx Hxf Hadj Hadjf Hpos)
      as (y & Hy & Hys & Hyf).
    rewrite Hy. cbn [bind].
    assert (Hlen : length y = length x) by apply Hys.
    rewrite <- Hlen in Hys, Hadj.
    destruct (IH (S k) g mid out_dim y adj Hrest Hys Hyf Hadj Hadjf Hpos)
      as (out & Hout & Hos & Hof).
    exists out. rewrite <- Hlen. repeat split; try assumption; apply Hos.
Qed.

(** Every node of the adjacency matrix of real features has a positive
    entry: its own, on the diagonal. *)
Lemma build_adjacency_positive rows :
  Forall (Exists positive) (build_adjacency (lift rows)).
Proof.
  pose proof (build_adjacency_shape (lift rows)) as Hs. rewrite lift_length in Hs.
  apply Forall_forall. intros row Hin. apply (In_nth _ _ []) in Hin.
  destruct Hin as (i & Hi & <-). destruct Hs as [Hl Hr]. rewrite Hl in Hi.
  destruct (build_adjacency_diagonal rows i Hi) as (r & Hr1 & Hr2 & _).
  apply Exists_exists. exists (Fin r). split.
  - rewrite <- Hr1. apply nth_In.
    rewrite (has_shape_nth _ _ _ i (conj Hl Hr) Hi). exact Hi.
  - unfold positive. simpl. destruct (Rlt_dec 0 r); [reflexivity|lra].
Qed.

Lemma build_adjacency_finite rows : finite_mat (build_adjacency (lift rows)).
Proof.
  pose proof (build_adjacency_range rows) as H.
  eapply Forall_impl; [|exact H]. intros row Hrow.
  eapply Forall_impl; [|exact Hrow]. intros a (r & -> & _). exact I.
Qed.

(** C7.  For a batch of one image with a real embedding [v], the
    adjacency matrix is the 1 x 1 matrix of the node's self-edge weight,
    which lies between 1/2 and 1, and the stacked attention stage returns
    one row of real numbers: no NaN and no infinity. *)
Theorem single_node_attention_is_real (s : StackedGAT) (g : rng) (in_dim out_dim : nat)
    (v : list R) :
  stack_ok in_dim (layers s) out_dim ->
  length v = in_dim ->
  exists a out,
    build_adjacency (lift [v]) = [[Fin a]] /\ 1 / 2 <= a <= 1
    /\ StackedGAT_forward s g (lift [v]) (build_adjacency (lift [v])) = Ok out
    /\ has_shape 1 out_dim out /\ finite_mat out.
Proof.
  intros Hok Hv.
  assert (Hx : has_shape (length (lift [v])) in_dim (lift [v])).
  { split; [reflexivity|]. constructor; [|constructor]. rewrite length_map. exact Hv. }
  assert (Hxf : finite_mat (lift [v])).
  { constructor; [apply Forall_finite_map_Fin|constructor]. }
  destruct (run_gat_layers_ok (layers s) 0 g in_dim out_dim (lift [v])
              (build_adjacency (lift [v])) Hok Hx Hxf
              (build_adjacency_shape (lift [v])) (build_adjacency_finite [v])
              (build_adjacency_positive [v])) as (out & Hout & Hos & Hof).
  destruct (build_adjacency_diagonal [v] 0) as (a & Ha & Hr & _); [simpl; lia|].
  exists a, out. split; [|split; [exact Hr|split; [exact Hout|split; assumption]]].
  destruct (build_adjacency_shape (lift [v])) as [Hl Hrows].
  destruct (build_adjacency (lift [v])) as [|row [|row' rest]]; try discriminate.
  inversion Hrows; subst. destruct row as [|a0 [|b row]]; try discriminate.
  simpl in Ha. rewrite Ha. reflexivity.
Qed.

Lemma sample_stack_ok : stack_ok 1 [sample_layer] 1.
Proof.
  exists 1%nat. split; [exact sample_layer_ok|]. split; [simpl; lra|reflexivity].
Qed.

(** Witness for [single_node_attention_is_real]: one sample layer on the
    embedding [1]. *)
Lemma single_node_attention_is_real_witness :
  exists a out,
    build_adjacency (lift [[1]]) = [[Fin a]] /\ 1 / 2 <= a <= 1
    /\ StackedGAT_forward {| layers := [sample_layer] |} keep_all (lift [[1]])
         (build_adjacency (lift [[1]])) = Ok out
    /\ has_shape 1 1 out /\ finite_mat out.
Proof.
  apply (single_node_attention_is_real {| layers := [sample_layer] |} keep_all 1 1 [1]).
  - exact sample_stack_ok.
  - reflexivity.
Defined.

(** ** The graph-convolutional classifier *)

Lemma Forall_filter {A} (P : A -> Prop) f (l : list A) :
  Forall P l -> Forall P (filter f l).
Proof.
  induction 1 as [|a l Ha Hl IH]; simpl; [constructor|].
  destruct (f a); [constructor|]; assumption.
Qed.

Lemma add_remaining_self_loops_in_range n edges :
  edges_in_range n edges -> edges_in_range n (add_remaining_self_loops n edges).
Proof.
  intros H. unfold add_remaining_self_loops, edges_in_range. apply Forall_app. split.
  - apply Forall_filter. exact H.
  - apply Forall_map_seq. intros i Hi. simpl. split; exact Hi.
Qed.

Lemma nonzero_in_range n (m : matrix) :
  has_shape n n m -> edges_in_range n (nonzero m).
Proof.
  intros [Hl Hr]. unfold nonzero, edges_in_range. apply Forall_concat.
  apply Forall_map. apply Forall_forall. intros [i row] Hin.
  assert (Hi : (i < n)%nat /\ length row = n).
  { apply in_combine_l in Hin as Hi. apply in_combine_r in Hin as Hrow.
    apply in_seq in Hi. rewrite Forall_forall in Hr. split; [lia|apply Hr; exact Hrow]. }
  destruct Hi as [Hi Hrow]. apply Forall_map. apply Forall_filter.
  apply Forall_forall. intros [j a] Hj. apply in_combine_l in Hj. apply in_seq in Hj.
  simpl. lia.
Qed.

Lemma GCNConv_forward_ok conv i o n x edges :
  conv_ok i o conv -> has_shape n i x -> finite_mat x -> edges_in_range n edges ->
  has_shape n o (GCNConv_forward conv x edges)
  /\ finite_mat (GCNConv_forward conv x edges).
Proof.
  intros (Ls & Lf & Bl & Bf) [Xl Xr] Xf He. unfold GCNConv_forward. cbv zeta. rewrite Xl.
  set (es := add_remaining_self_loops n edges).
  assert (Hes : edges_in_range n es) by (apply add_remaining_self_loops_in_range; exact He).
  pose proof (linear_shape_out i o (gcn_lin conv) x Ls) as Hxw. rewrite Xl in Hxw.
  pose proof (linear_finite (gcn_lin conv) x Lf Xf) as Hxwf.
  set (xw := linear (gcn_lin conv) x) in *.
  assert (Hagg : forall c (inc : list (nat * nat)), edges_in_range n inc ->
            let agg := fold_right
                         (fun '(r, _) acc =>
                            zip_with fadd
                              (map (fmul (Fin (deg_inv_sqrt es r * deg_inv_sqrt es c)))
                                   (nth r xw [])) acc)
                         (map (fun _ => Fin 0) (gcn_bias conv)) inc in
            length agg = o /\ finite_vec agg).
  { intros c inc Hinc. induction Hinc as [|[r c'] inc [Hr _] Hinc IH]; cbv zeta.
    - simpl. rewrite length_map. split; [exact Bl|].
      apply Forall_map. apply Forall_forall. intros; exact I.
    - cbn [fold_right]. cbv zeta in IH. destruct IH as [IHl IHf]. simpl in Hr. split.
      + rewrite zip_with_length, length_map, IHl.
        rewrite (has_shape_nth n o xw r Hxw Hr). apply Nat.min_id.
      + apply (zip_with_Forall fadd finite finite finite); auto using finite_fadd.
        apply Forall_map. eapply Forall_impl; [|apply finite_mat_nth; exact Hxwf].
        intros a Ha. apply finite_fmul; [exact I|exact Ha]. }
  split; [split|].
  - rewrite length_map, length_seq. reflexivity.
  - apply Forall_map_seq. intros c Hc.
    destruct (Hagg c (filter (fun '(_, c') => (c' =? c)%nat) es)) as [Al Af];
      [apply Forall_filter; exact Hes|].
    rewrite zip_with_length, Al, Bl. apply Nat.min_id.
  - apply Forall_map_seq. intros c Hc.
    destruct (Hagg c (filter (fun '(_, c') => (c' =? c)%nat) es)) as [Al Af];
      [apply Forall_filter; exact Hes|].
    apply (zip_with_Forall fadd finite finite finite); auto using finite_fadd.
Qed.

Lemma run_gcn_layers_ok ls : forall in_dim out_dim n x edges,
  gcn_ok in_dim ls out_dim -> gcn_accepts ls n ->
  has_shape n in_dim x -> finite_mat x -> edges_in_range n edges ->
  exists y ls',
    run_gcn_layers ls x edges = Ok (y, ls')
    /\ has_shape n out_dim y /\ finite_mat y.
Proof.
  induction ls as [|l ls IH]; intros in_dim out_dim n x edges Hok Hacc Hx Hxf He.
  - simpl in Hok. subst out_dim. exists x, []. repeat split; try assumption; apply Hx.
  - inversion Hacc as [|l' ls' Hl Hrest]; subst.
    destruct l as [conv| |bn]; cbn [run_gcn_layers].
    + destruct Hok as (mid & Hc & Hok).
      destruct (GCNConv_forward_ok conv in_dim mid n x edges Hc Hx Hxf He) as [Hs Hf].
      destruct (IH mid out_dim n _ edges Hok Hrest Hs Hf He) as (y & ls' & Hy & Hys & Hyf).
      rewrite Hy. cbn [bind]. eexists. eexists. split; [reflexivity|]. split; assumption.
    + assert (Hs : has_shape n in_dim (map (map relu) x)).
      { destruct Hx as [Xl Xr]. split; [rewrite length_map; exact Xl|].
        apply Forall_map. eapply Forall_impl; [|exact Xr]. intros row Hrow.
        rewrite length_map. exact Hrow. }
      assert (Hf : finite_mat (map (map relu) x)).
      { apply Forall_map. eapply Forall_impl; [|exact Hxf]. intros row Hrow.
        apply Forall_map. eapply Forall_impl; [|exact Hrow]. intros a Ha.
        apply relu_finite. exact Ha. }
      destruct (IH in_dim out_dim n _ edges Hok Hrest Hs Hf He) as (y & ls' & Hy & Hys & Hyf).
      rewrite Hy. cbn [bind]. eexists. eexists. split; [reflexivity|]. split; assumption.
    + destruct Hok as [Hbn Hok].
      destruct (BatchNorm1d_forward_ok bn in_dim n x Hbn Hx Hxf Hl)
        as (x' & bn' & Hx' & Hs & Hf & _).
      rewrite Hx'. cbn [bind].
      destruct (IH in_dim out_dim n _ edges Hok Hrest Hs Hf He) as (y & ls' & Hy & Hys & Hyf).
      rewrite Hy. cbn [bind]. eexists. eexists. split; [reflexivity|]. split; assumption.
Qed.

Lemma sigmoid_unit_interval a : finite a -> unit_interval (sigmoid a).
Proof.
  destruct a; simpl; try contradiction. intros _. eexists. split; [reflexivity|].
  pose proof (sigmoid_range r). lra.
Qed.

Lemma GCNClassifier_forward_ok self in_dim out_dim n x edges :
  gcn_ok in_dim (gcn_layers self) out_dim -> gcn_accepts (gcn_layers self) n ->
  has_shape n in_dim x -> finite_mat x -> edges_in_range n edges ->
  exists out self',
    GCNClassifier_forward self x edges = Ok (out, self')
    /\ has_shape n out_dim out /\ Forall (Forall unit_interval) out.
Proof.
  intros Hok Hacc Hx Hxf He.
  destruct (run_gcn_layers_ok (gcn_layers self) in_dim out_dim n x edges Hok Hacc Hx Hxf He)
    as (y & ls' & Hy & [Yl Yr] & Yf).
  unfold GCNClassifier_forward. rewrite Hy. cbn [bind].
  eexists. eexists. split; [reflexivity|]. split; [split|].
  - rewrite length_map. exact Yl.
  - apply Forall_map. eapply Forall_impl; [|exact Yr]. intros row Hrow.
    rewrite length_map. exact Hrow.
  - apply Forall_map. eapply Forall_impl; [|exact Yf]. intros row Hrow.
    apply Forall_map. eapply Forall_impl; [|exact Hrow]. intros a Ha.
    apply sigmoid_unit_interval. exact Ha.
Qed.

(** ** The whole pipeline *)

Lemma finite_mat_lift (m : matrix) : finite_mat m -> m = lift (map (map val) m).
Proof.
  intros H. unfold lift. rewrite map_map. rewrite <- (map_id m) at 1.
  apply map_ext_in. intros row Hin. rewrite Forall_forall in H.
  apply Forall_finite_map_val. apply H. exact Hin.
Qed.

Lemma dropout_mat_ok p tr g b d (m : matrix) :
  has_shape b d m -> finite_mat m ->
  has_shape b d (dropout_mat p tr g m) /\ finite_mat (dropout_mat p tr g m).
Proof.
  intros [Hl Hr] Hf. split; [split|].
  - rewrite dropout_mat_length. exact Hl.
  - apply (dropout_mat_Forall (fun v => length v = d)); [|exact Hr].
    intros g' v Hv. rewrite dropout_vec_length. exact Hv.
  - apply (dropout_mat_Forall finite_vec); [|exact Hf].
    intros g' v Hv. apply dropout_vec_Forall; [|exact Hv].
    intros; apply dropout_elem_finite; assumption.
Qed.

(** C5.  When the backbone yields [c] non-empty real feature maps for each
    of the [b] images and the batch normalisations accept the batch (always
    in evaluation mode, and in training mode unless [b = 1]), [forward] of a
    well-formed model with [k] classes returns a [b x k] matrix whose every
    value is a real number in [0, 1].  The claim is the case [b = 4],
    [k = 20]. *)
Theorem full_model_output_range (interpolate : nat * nat -> tensor4 -> tensor4)
    (m : FullModel) (g : rng) (x_img fused : tensor4) (b c d dn k : nat) :
  fused_features interpolate (cnn m) x_img = Ok fused ->
  maps_ok b c fused ->
  full_ok c d dn k m ->
  bn_accepts (fuse_bn (cnn m)) b ->
  gcn_accepts (gcn_layers (gcn m)) b ->
  exists out m',
    FullModel_forward interpolate m g x_img = Ok (out, m')
    /\ has_shape b k out
    /\ Forall (Forall unit_interval) out.
Proof.
  intros Hfused Hmaps [Hcnn Hgat Hln Hgcn] Hacc Hgacc.
  destruct (extractor_forward_ok interpolate (cnn m) x_img fused b c d Hfused Hmaps Hcnn Hacc)
    as (y & bn' & _ & Hfw & _ & _ & Hs & Hn & _).
  unfold FullModel_forward. rewrite Hfw. cbn [bind].
  assert (Hf : finite_mat (map normalize_row y)).
  { eapply Forall_impl; [|exact Hn]. intros row Hrow.
    eapply Forall_impl; [|exact Hrow]. intros a [Ha _]. exact Ha. }
  destruct (dropout_mat_ok (3 / 10) (dropout_training m) (sub_rng g 0) b d _ Hs Hf)
    as [Fs Ff].
  set (features := dropout_mat (3 / 10) (dropout_training m) (sub_rng g 0)
                     (map normalize_row y)) in *.
  assert (Fl : length features = b) by apply Fs.
  pose proof (finite_mat_lift features Ff) as Elift.
  assert (Hadj : has_shape (length features) (length features) (build_adjacency features)
                 /\ finite_mat (build_adjacency features)
                 /\ Forall (Exists positive) (build_adjacency features)).
  { split; [apply build_adjacency_shape|]. rewrite Elift.
    split; [apply build_adjacency_finite|apply build_adjacency_positive]. }
  destruct Hadj as (As & Af & Ap).
  rewrite <- Fl in Fs.
  destruct (run_gat_layers_ok (layers (gat m)) 0 (sub_rng g 1) d dn features
              (build_adjacency features) Hgat Fs Ff As Af Ap) as (go & Hgo & Gs & Gf).
  unfold StackedGAT_forward. rewrite Hgo. cbn [bind].
  destruct (LayerNorm_forward_ok (gat_norm m) dn (length features) go Hln Gs Gf) as [Ns Nf].
  assert (Hleaky : has_shape (length features) dn
                     (map (map (leaky_relu (2 / 10))) (LayerNorm_forward (gat_norm m) go))
                   /\ finite_mat
                     (map (map (leaky_relu (2 / 10))) (LayerNorm_forward (gat_norm m) go))).
  { destruct Ns as [Nl Nr]. split; [split|].
    - rewrite length_map. exact Nl.
    - apply Forall_map. eapply Forall_impl; [|exact Nr]. intros row Hrow.
      rewrite length_map. exact Hrow.
    - apply Forall_map. eapply Forall_impl; [|exact Nf]. intros row Hrow.
      apply Forall_map. eapply Forall_impl; [|exact Hrow]. intros a Ha.
      apply leaky_relu_finite. exact Ha. }
  destruct Hleaky as [Ls Lf].
  destruct (dropout_mat_ok (3 / 10) (dropout_training m) (sub_rng g 2) _ _ _ Ls Lf)
    as [Ds Df].
  rewrite Fl in Ds, As.
  destruct (GCNClassifier_forward_ok (gcn m) dn k b _ (nonzero (build_adjacency features))
              Hgcn Hgacc Ds Df (nonzero_in_range b _ As)) as (out & gcn' & Hout & Os & Or).
  rewrite Hout. cbn [bind]. eexists. eexists. split; [reflexivity|]. split; assumption.
Qed.

(** ** What the constructors of the pipeline establish *)

Lemma last_default {A} (l : list A) d d' : l <> [] -> last l d = last l d'.
Proof.
  induction l as [|a l IH]; [congruence|]. intros _.
  destruct l as [|b l]; [reflexivity|]. apply IH. discriminate.
Qed.

Lemma check_hidden_dims_ok dims hd :
  hd <> O -> Forall (fun h => h mod hd = 0)%nat dims -> check_hidden_dims dims hd = Ok tt.
Proof.
  intros Hh. induction 1 as [|h dims Hd Hdims IH]; simpl; [reflexivity|].
  destruct (Nat.eqb_spec hd 0); [contradiction|]. rewrite Hd. exact IH.
Qed.

Lemma build_gat_layers_ok inis hd p dims : forall k in_dim,
  hd <> O -> Forall (fun h => h mod hd = 0)%nat dims -> 0 <= p <= 1 ->
  exists ls,
    build_gat_layers inis k in_dim dims hd 1 p true = Ok ls
    /\ stack_ok in_dim ls (last dims in_dim).
Proof.
  induction dims as [|h dims IH]; intros k in_dim Hh Hd Hp.
  - exists []. split; reflexivity.
  - inversion Hd as [|h' dims' Hmod Hrest]; subst. cbn [build_gat_layers].
    destruct (WeightedMultiHeadGAT_init_ok (inis k) in_dim h hd 1 p (2 / 10) true true
                Hh Hmod Hp) as (l & Hl & _).
    rewrite Hl. cbn [bind].
    destruct (WeightedMultiHeadGAT_init_gat_ok _ _ _ _ _ _ _ _ _ Hl (fun _ => eq_refl))
      as (Hok & Ha & _).
    destruct (IH (S k) h Hh Hrest Hp) as (ls & Hls & Hstack).
    rewrite Hls. cbn [bind]. eexists. split; [reflexivity|].
    exists h. split; [exact Hok|]. split; [rewrite Ha; lra|].
    destruct dims as [|h2 dims]; [exact Hstack|].
    change (last (h :: h2 :: dims) in_dim) with (last (h2 :: dims) in_dim).
    rewrite (last_default (h2 :: dims) in_dim h) by discriminate. exact Hstack.
Qed.

Lemma GCNConv_init_ok ini i o : conv_ok i o (GCNConv_init ini i o).
Proof.
  unfold GCNConv_init, conv_ok. cbn [gcn_lin gcn_bias].
  split; [split; [apply tabulate_shape|exact I]|].
  split; [split; [apply tabulate_finite|exact I]|].
  split; [apply tabulate_vec_length|apply tabulate_vec_finite].
Qed.

Lemma GCNClassifier_init_ok inis in_features num_classes :
  gcn_ok in_features (gcn_layers (GCNClassifier_init inis in_features num_classes [256%nat]))
         num_classes.
Proof.
  unfold GCNClassifier_init. cbn [gcn_layers app build_gcn_layers gcn_ok].
  exists 256%nat. split; [apply GCNConv_init_ok|]. split; [apply BatchNorm1d_init_ok|].
  exists num_classes. split; [apply GCNConv_init_ok|reflexivity].
Qed.

Lemma gcn_accepts_batch ls b : b <> 1%nat -> gcn_accepts ls b.
Proof.
  intros Hb. apply Forall_forall. intros [conv| |bn] _; try exact I. intros _. exact Hb.
Qed.

Lemma last_item_ok dims : dims <> [] -> last_item dims = Ok (last dims O).
Proof. destruct dims; [congruence|reflexivity]. Qed.

(** [FullModel.__init__] with an explicit class count, a known backbone,
    a non-empty list of attention widths that the head count divides, and a
    dropout rate in [0, 1]. *)
Lemma FullModel_init_ok ini extractor cnn_feat_dim dims k hd p :
  MultiScaleFeatureExtractor_init (models_table ini) (init_fuse ini) "resnet50"%string
    cnn_feat_dim ["layer3"%string; "layer4"%string] = Ok extractor ->
  hd <> O -> dims <> [] -> Forall (fun h => h mod hd = 0)%nat dims -> 0 <= p <= 1 ->
  exists m,
    FullModel_init ini cnn_feat_dim dims (Some k) hd p = Ok m
    /\ cnn m = extractor
    /\ full_ok 3072 cnn_feat_dim (last dims O) k m.
Proof.
  intros Hext Hh Hne Hd Hp. unfold FullModel_init. cbn [bind]. rewrite Hext. cbn [bind].
  unfold StackedGAT_init. rewrite (check_hidden_dims_ok dims hd Hh Hd). cbn [bind].
  destruct (build_gat_layers_ok (init_gat ini) hd p dims 0 cnn_feat_dim Hh Hd Hp)
    as (ls & Hls & Hstack).
  rewrite Hls. cbn [bind]. rewrite (last_item_ok dims Hne). cbn [bind].
  eexists. split; [reflexivity|]. split; [reflexivity|]. constructor; cbn.
  - unfold MultiScaleFeatureExtractor_init in Hext.
    destruct (assoc "resnet50"%string (models_table ini)) as [net|]; [|discriminate].
    cbn [bind] in Hext. injection Hext as <-. constructor; cbn.
    + apply Linear_init_ok.
    + apply BatchNorm1d_init_ok.
  - rewrite (last_default dims O cnn_feat_dim Hne). exact Hstack.
  - apply LayerNorm_init_ok.
  - apply GCNClassifier_init_ok.
Qed.

(** The extractor of the sample model. *)
Lemma sample_full_extractor :
  MultiScaleFeatureExtractor_init (models_table sample_full_init) (init_fuse sample_full_init)
    "resnet50"%string 2048 ["layer3"%string; "layer4"%string]
  = Ok {| cnn_type := "resnet50"%string;
          output_dims := 2048;
          layers_to_extract := ["layer3"%string; "layer4"%string];
          backbone_training := true;
          initial_layers := stem sample_backbone;
          feature_layers := [("layer1"%string, layer1 sample_backbone);
                             ("layer2"%string, layer2 sample_backbone);
                             ("layer3"%string, layer3 sample_backbone);
                             ("layer4"%string, layer4 sample_backbone)];
          fuse_linear := Linear_init sample_linear_init 3072 2048;
          fuse_bn := BatchNorm1d_init 2048 |}.
Proof. reflexivity. Qed.

Lemma sample_batch_fused extractor :
  MultiScaleFeatureExtractor_init (models_table sample_full_init) (init_fuse sample_full_init)
    "resnet50"%string 2048 ["layer3"%string; "layer4"%string] = Ok extractor ->
  fused_features no_interpolation extractor sample_batch = Ok sample_fused_maps.
Proof.
  rewrite sample_full_extractor. intros H. injection H as <-. reflexivity.
Qed.

Lemma sample_fused_maps_ok : maps_ok 4 3072 sample_fused_maps.
Proof.
  unfold maps_ok, sample_fused_maps. split; [apply repeat_length|].
  apply Forall_forall. intros sample Hin. apply repeat_spec in Hin. subst sample. split.
  - rewrite !length_app, !repeat_length. reflexivity.
  - apply Forall_app. split; [|apply Forall_app; split; [|constructor]];
      apply Forall_forall; intros ch Hin; apply repeat_spec in Hin; subst ch;
        (split; [discriminate|repeat constructor]).
Qed.

(** Witness for [full_model_output_range]: [FullModel(num_classes=20)]
    with its default widths, freshly constructed, on four images of shape
    3 x 224 x 224. *)
Lemma full_model_output_range_witness :
  exists m,
    FullModel_init sample_full_init 2048 [1020; 504; 252]%nat (Some 20%nat) 12 (3 / 10) = Ok m
    /\ exists out m',
         FullModel_forward no_interpolation m keep_all sample_batch = Ok (out, m')
         /\ has_shape 4 20 out
         /\ Forall (Forall unit_interval) out.
Proof.
  destruct (FullModel_init_ok sample_full_init _ 2048 [1020; 504; 252]%nat 20 12 (3 / 10)
              sample_full_extractor) as (m & Hm & Hcnn & Hok).
  - discriminate.
  - discriminate.
  - repeat constructor.
  - lra.
  - exists m. split; [exact Hm|].
    apply (full_model_output_range no_interpolation m keep_all sample_batch
             sample_fused_maps 4 3072 2048 252 20).
    + rewrite Hcnn. apply sample_batch_fused. exact sample_full_extractor.
    + exact sample_fused_maps_ok.
    + exact Hok.
    + intros _. discriminate.
    + apply gcn_accepts_batch. discriminate.
Defined.

(** ** Evaluation mode *)

Lemma FullModel_eval_in_eval_mode m : in_eval_mode (FullModel_eval m).
Proof.
  unfold in_eval_mode, FullModel_eval. cbn. repeat split.
  - apply Forall_map. apply Forall_forall. intros l _. reflexivity.
  - apply Forall_map. apply Forall_forall. intros [conv| |bn] _; cbn; auto.
Qed.

Lemma FullModel_eval_idempotent m : FullModel_eval (FullModel_eval m) = FullModel_eval m.
Proof.
  unfold FullModel_eval. cbn. f_equal.
  - f_equal. rewrite map_map. apply map_ext. intros l. reflexivity.
  - f_equal. rewrite map_map. apply map_ext. intros [conv| |bn]; reflexivity.
Qed.

Lemma dropout3_eval l g t : training l = false -> dropout3 l g t = t.
Proof.
  intros Ht. unfold dropout3. rewrite Ht.
  assert (H : forall s (u : tensor3),
             map (fun '(i, slice) => dropout_mat (dropout l) false (sub_rng (sub_rng g 0) i) slice)
                 (combine (seq s (length u)) u) = u).
  { intros s u. revert s. induction u as [|a u IH]; intros s; simpl; [reflexivity|].
    rewrite IH, dropout_mat_eval. reflexivity. }
  apply H.
Qed.

(** In evaluation mode the result of a layer does not depend on the
    dropout draws. *)
Lemma forward_eval_rng l g g' x adj :
  training l = false ->
  WeightedMultiHeadGAT_forward l g x adj = WeightedMultiHeadGAT_forward l g' x adj.
Proof.
  intros Ht. unfold WeightedMultiHeadGAT_forward.
  destruct (attention_weights l x adj) as [attn|e]; [|reflexivity]. cbn [bind].
  rewrite !dropout3_eval by exact Ht.
  destruct (add_residual l x (aggregate l x attn)) as [h|e]; [|reflexivity]. cbn [bind].
  unfold apply_head_fusion. rewrite Ht, !dropout_mat_eval. reflexivity.
Qed.

Lemma run_gat_layers_eval_rng ls : forall k g g' x adj,
  Forall (fun l => training l = false) ls ->
  run_gat_layers ls k g x adj = run_gat_layers ls k g' x adj.
Proof.
  induction ls as [|l ls IH]; intros k g g' x adj H; [reflexivity|].
  inversion H; subst. cbn [run_gat_layers].
  rewrite (forward_eval_rng l (sub_rng g k) (sub_rng g' k)) by assumption.
  destruct (WeightedMultiHeadGAT_forward l (sub_rng g' k) x adj) as [y|e]; [|reflexivity].
  cbn [bind]. apply IH. assumption.
Qed.

(** In evaluation mode batch normalisation leaves the module as it is. *)
Lemma BatchNorm1d_forward_eval bn x :
  bn_training bn = false ->
  BatchNorm1d_forward bn x = Ok (bn_apply bn (running_mean bn) (running_var bn) x, bn).
Proof. intros H. unfold BatchNorm1d_forward. rewrite H. reflexivity. Qed.

Lemma run_gcn_layers_eval ls : forall x e,
  Forall (fun l => match l with
                   | LBatchNorm1d bn => bn_training bn = false
                   | _ => True
                   end) ls ->
  exists y, run_gcn_layers ls x e = Ok (y, ls).
Proof.
  induction ls as [|l ls IH]; intros x e H; [eexists; reflexivity|].
  inversion H as [|l' ls' Hl Hrest]; subst.
  destruct l as [conv| |bn]; cbn [run_gcn_layers].
  - destruct (IH (GCNConv_forward conv x e) e Hrest) as (y & ->). cbn [bind].
    eexists. reflexivity.
  - destruct (IH (map (map relu) x) e Hrest) as (y & ->). cbn [bind]. eexists. reflexivity.
  - rewrite (BatchNorm1d_forward_eval bn x Hl). cbn [bind].
    destruct (IH (bn_apply bn (running_mean bn) (running_var bn) x) e Hrest) as (y & ->).
    cbn [bind]. eexists. reflexivity.
Qed.

Section EvalMode.

Variable interpolate : nat * nat -> tensor4 -> tensor4.

Lemma extractor_forward_eval c x :
  bn_training (fuse_bn c) = false ->
  (exists e, MultiScaleFeatureExtractor_forward interpolate c x = Raise e)
  \/ (exists features, MultiScaleFeatureExtractor_forward interpolate c x = Ok (features, c)).
Proof.
  intros Hbn. unfold MultiScaleFeatureExtractor_forward.
  destruct (fused_features interpolate c x) as [fused|e]; [|left; eexists; reflexivity].
  cbn [bind]. unfold fuse. rewrite (BatchNorm1d_forward_eval _ _ Hbn). cbn [bind].
  right. eexists. f_equal. f_equal. destruct c. reflexivity.
Qed.

(** In evaluation mode [FullModel.forward] does not depend on the dropout
    draws and leaves the model as it is. *)
Lemma FullModel_forward_eval m g g' x :
  in_eval_mode m ->
  FullModel_forward interpolate m g x = FullModel_forward interpolate m g' x
  /\ match FullModel_forward interpolate m g x with
     | Ok (_, m') => m' = m
     | Raise _ => True
     end.
Proof.
  intros (_ & Hbn & Hgat & Hgcn & Hdrop). unfold FullModel_forward.
  destruct (extractor_forward_eval (cnn m) x Hbn) as [(e & ->)|(features & ->)];
    [split; [reflexivity|exact I]|].
  cbn [bind]. rewrite Hdrop, !dropout_mat_eval. unfold StackedGAT_forward.
  rewrite (run_gat_layers_eval_rng (layers (gat m)) 0 (sub_rng g 1) (sub_rng g' 1))
    by exact Hgat.
  destruct (run_gat_layers (layers (gat m)) 0 (sub_rng g' 1) features
              (build_adjacency features)) as [gat_out|e]; [|split; [reflexivity|exact I]].
  cbn [bind]. rewrite !dropout_mat_eval. split; [reflexivity|].
  unfold GCNClassifier_forward.
  destruct (run_gcn_layers_eval (gcn_layers (gcn m))
              (map (map (leaky_relu (2 / 10))) (LayerNorm_forward (gat_norm m) gat_out))
              (nonzero (build_adjacency features)) Hgcn) as (y & ->).
  cbn [bind]. destruct m as [c s [ls] dt ln]. cbn in *. rewrite Hdrop. reflexivity.
Qed.

Variable image : Type.
Variable open_image : String.string -> option image.
Variable preprocess : image -> list (list (list fp)).

(** C8.  The wrapper runs the model in evaluation mode and with gradient
    tracking off: after a call every training flag of the wrapped model is
    cleared, the interpreter's gradient mode is what it was before the call,
    and a returned tensor does not require gradients.  Two calls in a row on
    the same path, whatever the dropout draws [g1] and [g2], give the same
    result (the same tensor, or the same exception), and the second call
    leaves the state the first one left. *)
Theorem wrapper_is_idempotent (s : pipeline_state) (g1 g2 : rng) (path : String.string) :
  let first := ImageGraphPipeline_forward interpolate image open_image preprocess s g1 path in
  let second :=
    ImageGraphPipeline_forward interpolate image open_image preprocess (snd first) g2 path in
  fst second = fst first
  /\ snd second = snd first
  /\ model (snd first) = FullModel_eval (model s)
  /\ in_eval_mode (model (snd first))
  /\ grad_enabled (snd first) = grad_enabled s
  /\ match fst first with
     | Ok out => requires_grad out = false
     | Raise _ => True
     end.
Proof.
  cbv zeta.
  assert (Hfirst : model (snd (ImageGraphPipeline_forward interpolate image open_image preprocess
                                 s g1 path)) = FullModel_eval (model s)
                   /\ grad_enabled (snd (ImageGraphPipeline_forward interpolate image open_image
                                           preprocess s g1 path)) = grad_enabled s
                   /\ match fst (ImageGraphPipeline_forward interpolate image open_image preprocess
                                   s g1 path) with
                      | Ok out => requires_grad out = false
                      | Raise _ => True
                      end).
  { unfold ImageGraphPipeline_forward. cbv zeta.
    destruct (open_image path) as [img|]; [|repeat split].
    destruct (FullModel_forward_eval (FullModel_eval (model s)) g1 g1 [preprocess img]
                (FullModel_eval_in_eval_mode (model s))) as [_ Hstate].
    destruct (FullModel_forward interpolate (FullModel_eval (model s)) g1 [preprocess img])
      as [[output m']|e]; [|repeat split].
    subst m'. destruct output; repeat split. }
  destruct Hfirst as (Hm & Hg & Hr).
  split; [|split; [|split; [exact Hm|split; [|split; [exact Hg|exact Hr]]]]].
  - unfold ImageGraphPipeline_forward at 1. cbv zeta. rewrite Hm, FullModel_eval_idempotent.
    unfold ImageGraphPipeline_forward. cbv zeta.
    destruct (open_image path) as [img|]; [|reflexivity].
    destruct (FullModel_forward_eval (FullModel_eval (model s)) g2 g1 [preprocess img]
                (FullModel_eval_in_eval_mode (model s))) as [-> _].
    destruct (FullModel_forward interpolate (FullModel_eval (model s)) g1 [preprocess img])
      as [[output m']|e]; reflexivity.
  - unfold ImageGraphPipeline_forward at 1. cbv zeta.
    rewrite Hm, Hg, FullModel_eval_idempotent.
    unfold ImageGraphPipeline_forward. cbv zeta.
    destruct (open_image path) as [img|]; [|reflexivity].
    destruct (FullModel_forward_eval (FullModel_eval (model s)) g2 g1 [preprocess img]
                (FullModel_eval_in_eval_mode (model s))) as [-> Hstate].
    destruct (FullModel_forward interpolate (FullModel_eval (model s)) g1 [preprocess img])
      as [[output m']|e]; [|reflexivity].
    reflexivity.
  - rewrite Hm. apply FullModel_eval_in_eval_mode.
Qed.

End EvalMode.

(** * Further properties of the model classes *)

(** ** The channel table of the extractor *)

Lemma assoc_error {A} key (l : list (String.string * A)) e :
  assoc key l = Raise e -> e = KeyError.
Proof.
  induction l as [|[k v] l IH]; cbn [assoc]; [congruence|].
  destruct (String.eqb key k); [discriminate|exact IH].
Qed.

Lemma assoc_channel_map cnn_type :
  (known_backbone cnn_type
   /\ assoc cnn_type channel_map
      = Ok [("layer1"%string, 256%nat); ("layer2"%string, 512%nat);
            ("layer3"%string, 1024%nat); ("layer4"%string, 2048%nat)])
  \/ (~ known_backbone cnn_type /\ assoc cnn_type channel_map = Raise KeyError).
Proof.
  unfold channel_map, known_backbone. cbn [assoc].
  destruct (String.eqb_spec cnn_type "resnet50") as [->|N1].
  - left. split; [left; reflexivity|reflexivity].
  - destruct (String.eqb_spec cnn_type "resnet101") as [->|N2].
    + left. split; [right; reflexivity|reflexivity].
    + right. split; [intros [E|E]; contradiction|reflexivity].
Qed.

Lemma assoc_layer name :
  (known_layer name
   /\ assoc name [("layer1"%string, 256%nat); ("layer2"%string, 512%nat);
                  ("layer3"%string, 1024%nat); ("layer4"%string, 2048%nat)]
      = Ok (layer_channels name))
  \/ (~ known_layer name
      /\ assoc name [("layer1"%string, 256%nat); ("layer2"%string, 512%nat);
                     ("layer3"%string, 1024%nat); ("layer4"%string, 2048%nat)]
         = Raise KeyError).
Proof.
  unfold known_layer, layer_channels. cbn [assoc In].
  destruct (String.eqb_spec name "layer1") as [->|N1]; [left; split; [tauto|reflexivity]|].
  destruct (String.eqb_spec name "layer2") as [->|N2]; [left; split; [tauto|reflexivity]|].
  destruct (String.eqb_spec name "layer3") as [->|N3]; [left; split; [tauto|reflexivity]|].
  destruct (String.eqb_spec name "layer4") as [->|N4]; [left; split; [tauto|reflexivity]|].
  right. split; [|reflexivity].
  intros [E|[E|[E|[E|[]]]]]; symmetry in E; contradiction.
Qed.

Lemma total_channels_known cnn_type layers :
  known_backbone cnn_type -> Forall known_layer layers ->
  _get_total_channels cnn_type layers = Ok (list_sum (map layer_channels layers)).
Proof.
  intros Hb. induction 1 as [|name layers Hn Hl IH]; [reflexivity|].
  cbn [_get_total_channels map list_sum].
  destruct (assoc_channel_map cnn_type) as [[_ ->]|[N _]]; [|contradiction].
  cbn [bind]. destruct (assoc_layer name) as [[_ ->]|[N _]]; [|contradiction].
  cbn [bind]. rewrite IH. reflexivity.
Qed.

Lemma total_channels_unknown cnn_type layers :
  layers <> [] -> ~ (known_backbone cnn_type /\ Forall known_layer layers) ->
  _get_total_channels cnn_type layers = Raise KeyError.
Proof.
  induction layers as [|name layers IH]; [congruence|]. intros _ N.
  cbn [_get_total_channels].
  destruct (assoc_channel_map cnn_type) as [[Hb ->]|[_ ->]]; [|reflexivity].
  cbn [bind]. destruct (assoc_layer name) as [[Hn ->]|[_ ->]]; [|reflexivity].
  cbn [bind]. destruct layers as [|name' layers].
  - exfalso. apply N. split; [exact Hb|]. constructor; [exact Hn|constructor].
  - rewrite IH; [reflexivity|discriminate|].
    intros [_ Hl]. apply N. split; [exact Hb|]. constructor; assumption.
Qed.

Lemma total_channels_ok_known cnn_type layers n :
  _get_total_channels cnn_type layers = Ok n -> Forall known_layer layers.
Proof.
  revert n. induction layers as [|name layers IH]; intros n H; [constructor|].
  cbn [_get_total_channels] in H.
  destruct (assoc_channel_map cnn_type) as [[_ E]|[_ E]]; rewrite E in H; [|discriminate].
  cbn [bind] in H.
  destruct (assoc_layer name) as [[Hn E']|[_ E']]; rewrite E' in H; [|discriminate].
  cbn [bind] in H.
  destruct (_get_total_channels cnn_type layers) as [t|e] eqn:Et; [|discriminate].
  constructor; [exact Hn|]. apply (IH t). reflexivity.
Qed.

(** X1.  [_get_total_channels] returns 0 for an empty list of layers,
    whatever the backbone name; for a backbone of the table ([resnet50],
    [resnet101]) and layers among [layer1] ... [layer4] it returns the sum of
    the layers' widths, a layer named twice counted twice; and for a
    non-empty list with any other backbone or layer name it raises
    [KeyError]. *)
Theorem total_channels_or_key_error (cnn_type : String.string) (layers : list String.string) :
  (_get_total_channels cnn_type [] = Ok O)
  /\ (known_backbone cnn_type /\ Forall known_layer layers ->
      _get_total_channels cnn_type layers = Ok (list_sum (map layer_channels layers)))
  /\ (layers <> [] /\ ~ (known_backbone cnn_type /\ Forall known_layer layers) ->
      _get_total_channels cnn_type layers = Raise KeyError).
Proof.
  split; [reflexivity|]. split.
  - intros [Hb Hl]. apply total_channels_known; assumption.
  - intros [Hne N]. apply total_channels_unknown; assumption.
Qed.

(** ** The maps the extractor takes from the backbone *)

Lemma run_stages_nonempty training to_extract stages x name :
  In name to_extract -> In name (map fst stages) ->
  run_stages training to_extract stages x <> [].
Proof.
  intros Hin. revert x. induction stages as [|[n layer] stages IH]; intros x Hs; [destruct Hs|].
  cbn [run_stages]. destruct (existsb (String.eqb n) to_extract) eqn:E; [discriminate|].
  apply IH. destruct Hs as [Hs|Hs]; [|exact Hs]. simpl in Hs. subst n.
  exfalso. assert (T : existsb (String.eqb name) to_extract = true).
  { apply existsb_exists. exists name. split; [exact Hin|apply String.eqb_refl]. }
  congruence.
Qed.

Lemma run_stages_none training to_extract stages x :
  (forall name, In name to_extract -> ~ In name (map fst stages)) ->
  run_stages training to_extract stages x = [].
Proof.
  revert x. induction stages as [|[n layer] stages IH]; intros x H; [reflexivity|].
  cbn [run_stages]. destruct (existsb (String.eqb n) to_extract) eqn:E.
  - exfalso. apply existsb_exists in E. destruct E as (name & Hin & Heq).
    apply String.eqb_eq in Heq. subst name. apply (H n Hin). left. reflexivity.
  - apply IH. intros name Hin Hs. apply (H name Hin). right. exact Hs.
Qed.


Lemma fused_features_cases interpolate self x :
  (run_stages (backbone_training self) (layers_to_extract self) (feature_layers self)
     (initial_layers self (backbone_training self) x) = []
   /\ fused_features interpolate self x = Raise IndexError)
  \/ (run_stages (backbone_training self) (layers_to_extract self) (feature_layers self)
        (initial_layers self (backbone_training self) x) <> []
      /\ exists fused, fused_features interpolate self x = Ok fused).
Proof.
  unfold fused_features. cbv zeta.
  destruct (run_stages (backbone_training self) (layers_to_extract self) (feature_layers self)
              (initial_layers self (backbone_training self) x)) as [|f [|f' fs]].
  - left. split; reflexivity.
  - right. split; [discriminate|]. eexists. reflexivity.
  - right. split; [discriminate|]. eexists. reflexivity.
Qed.

(** X2.  An extractor that [__init__] has built fails in the feature
    selection of [forward] exactly when it was given no layer: with
    [layers_to_extract=[]] the constructor succeeds (the fusion layer gets 0
    input channels) and every call of [forward] raises [IndexError] at
    [features[0]]; with a non-empty list the names are stages of the
    backbone and the selection yields a fused map. *)
Theorem extractor_without_layers_cannot_run
    (interpolate : nat * nat -> tensor4 -> tensor4)
    (models : list (String.string * backbone)) (ini : linear_init)
    (cnn_type : String.string) (output_dims : nat) (layers : list String.string)
    (self : MultiScaleFeatureExtractor) :
  MultiScaleFeatureExtractor_init models ini cnn_type output_dims layers = Ok self ->
  (layers = [] ->
     forall x, MultiScaleFeatureExtractor_forward interpolate self x = Raise IndexError)
  /\ (layers <> [] ->
     forall x, exists fused, fused_features interpolate self x = Ok fused).
Proof.
  unfold MultiScaleFeatureExtractor_init. intros H.
  destruct (assoc cnn_type models) as [net|e]; [|discriminate]. cbn [bind] in H.
  destruct (_get_total_channels cnn_type layers) as [total|e] eqn:Et; [|discriminate].
  cbn [bind] in H. injection H as <-. split.
  - intros -> x. unfold MultiScaleFeatureExtractor_forward.
    destruct (fused_features_cases interpolate
                {| cnn_type := cnn_type; output_dims := output_dims; layers_to_extract := [];
                   backbone_training := true; initial_layers := stem net;
                   feature_layers := [("layer1"%string, layer1 net); ("layer2"%string, layer2 net);
                                      ("layer3"%string, layer3 net); ("layer4"%string, layer4 net)];
                   fuse_linear := Linear_init ini total output_dims;
                   fuse_bn := BatchNorm1d_init output_dims |} x) as [[_ ->]|[N _]];
      [reflexivity|].
    exfalso. apply N. apply run_stages_none. intros name [].
  - intros Hne x.
    destruct (fused_features_cases interpolate
                {| cnn_type := cnn_type; output_dims := output_dims; layers_to_extract := layers;
                   backbone_training := true; initial_layers := stem net;
                   feature_layers := [("layer1"%string, layer1 net); ("layer2"%string, layer2 net);
                                      ("layer3"%string, layer3 net); ("layer4"%string, layer4 net)];
                   fuse_linear := Linear_init ini total output_dims;
                   fuse_bn := BatchNorm1d_init output_dims |} x) as [[E _]|[_ Hok]];
      [|exact Hok].
    exfalso. destruct layers as [|name layers]; [congruence|].
    pose proof (total_channels_ok_known _ _ _ Et) as Hk. inversion Hk; subst.
    revert E. apply (run_stages_nonempty _ _ _ _ name); [left; reflexivity|].
    cbn [map fst feature_layers]. assumption.
Qed.

(** Witness for [extractor_without_layers_cannot_run]:
    [MultiScaleFeatureExtractor('resnet50', True, 2, [])]. *)
Lemma extractor_without_layers_cannot_run_witness :
  exists self,
    MultiScaleFeatureExtractor_init sample_models sample_linear_init "resnet50"%string 2 []
    = Ok self
    /\ forall x, MultiScaleFeatureExtractor_forward no_interpolation self x = Raise IndexError.
Proof.
  eexists. split; [reflexivity|].
  refine (proj1 (extractor_without_layers_cannot_run no_interpolation sample_models
                   sample_linear_init "resnet50"%string 2 [] _ eq_refl) eq_refl).
Defined.





(** ** The constructors of the attention layers *)

Lemma dropout_rate_ok_iff p : dropout_rate_ok p = true <-> 0 <= p <= 1.
Proof.
  unfold dropout_rate_ok.
  destruct (Rle_dec 0 p); [destruct (Rle_dec p 1)|]; split; intros H;
    try reflexivity; try discriminate; lra.
Qed.

(** Every outcome of [WeightedMultiHeadGAT.__init__]. *)
Lemma WeightedMultiHeadGAT_init_cases (ini : gat_init)
    (in_features out_features hd edge_dim : nat) (p a : R) (res uew : bool) :
  match WeightedMultiHeadGAT_init ini in_features out_features hd edge_dim p a res uew with
  | Ok l =>
      hd <> O /\ (out_features mod hd = 0)%nat /\ 0 <= p <= 1
      /\ heads l = hd /\ (heads l * out_features_per_head l = out_features)%nat
      /\ alpha l = a /\ dropout l = p /\ training l = true
      /\ residual l = res /\ use_edge_weights l = uew
      /\ (res_fc l = Unset <-> res = false)
      /\ (edge_encoder l = Unset <-> uew = false)
  | Raise e =>
      (e = ZeroDivisionError /\ hd = O)
      \/ (e = AssertionError /\ hd <> O /\ (out_features mod hd <> 0)%nat)
      \/ (e = ValueError /\ hd <> O /\ (out_features mod hd = 0)%nat /\ ~ 0 <= p <= 1)
  end.
Proof.
  unfold WeightedMultiHeadGAT_init.
  destruct (Nat.eqb_spec hd 0) as [Hh|Hh]; [left; split; [reflexivity|exact Hh]|].
  destruct (Nat.eqb_spec (out_features mod hd) 0) as [Hm|Hm]; cbn [negb];
    [|right; left; repeat split; assumption].
  destruct (dropout_rate_ok p) eqn:Hp; cbn [negb].
  - apply dropout_rate_ok_iff in Hp.
    cbn [heads out_features_per_head alpha dropout training res_fc edge_encoder
         residual use_edge_weights].
    split; [exact Hh|]. split; [exact Hm|]. split; [exact Hp|]. split; [reflexivity|].
    split; [symmetry; apply Nat.Div0.div_exact; exact Hm|].
    split; [reflexivity|]. split; [reflexivity|]. split; [reflexivity|].
    split; [reflexivity|]. split; [reflexivity|].
    split; [destruct res|destruct uew]; split; intros H; try reflexivity; discriminate.
  - right. right. split; [reflexivity|]. split; [exact Hh|]. split; [exact Hm|].
    intros H. apply dropout_rate_ok_iff in H. congruence.
Qed.

Lemma check_hidden_dims_cases hidden hd :
  match check_hidden_dims hidden hd with
  | Ok _ => hidden = [] \/ (hd <> O /\ Forall (fun h => h mod hd = 0)%nat hidden)
  | Raise e =>
      hidden <> []
      /\ ((e = ZeroDivisionError /\ hd = O)
          \/ (e = AssertionError /\ hd <> O /\ Exists (fun h => h mod hd <> 0)%nat hidden))
  end.
Proof.
  induction hidden as [|h hidden IH]; [left; reflexivity|].
  cbn [check_hidden_dims].
  destruct (Nat.eqb_spec hd 0) as [Hh|Hh];
    [split; [discriminate|left; split; [reflexivity|exact Hh]]|].
  destruct (Nat.eqb_spec (h mod hd) 0) as [Hm|Hm]; cbn [negb].
  - destruct (check_hidden_dims hidden hd) as [u|e].
    + right. split; [exact Hh|]. constructor; [exact Hm|].
      destruct IH as [->|[_ H]]; [constructor|exact H].
    + destruct IH as [_ [[-> E]|(-> & _ & E)]]; [contradiction|].
      split; [discriminate|]. right. split; [reflexivity|]. split; [exact Hh|].
      apply Exists_cons_tl. exact E.
  - split; [discriminate|]. right. split; [reflexivity|]. split; [exact Hh|].
    apply Exists_cons_hd. exact Hm.
Qed.

Lemma build_gat_layers_cases inis hd edge_dim p res hidden : forall k in_dim,
  hd <> O -> Forall (fun h => h mod hd = 0)%nat hidden ->
  match build_gat_layers inis k in_dim hidden hd edge_dim p res with
  | Ok ls =>
      (hidden = [] \/ 0 <= p <= 1)
      /\ map (fun l => heads l * out_features_per_head l)%nat ls = hidden
      /\ Forall (fun l => heads l = hd /\ alpha l = 2 / 10 /\ dropout l = p
                          /\ training l = true /\ use_edge_weights l = true
                          /\ (res_fc l = Unset <-> res = false)) ls
  | Raise e => hidden <> [] /\ e = ValueError /\ ~ 0 <= p <= 1
  end.
Proof.
  induction hidden as [|h hidden IH]; intros k in_dim Hh Hd.
  - cbn. split; [left; reflexivity|]. split; [reflexivity|constructor].
  - inversion Hd as [|h' hidden' Hm Hrest]; subst. cbn [build_gat_layers].
    pose proof (WeightedMultiHeadGAT_init_cases (inis k) in_dim h hd edge_dim p (2 / 10) res true)
      as Hl.
    destruct (WeightedMultiHeadGAT_init (inis k) in_dim h hd edge_dim p (2 / 10) res true)
      as [l|e]; cbn [bind].
    + destruct Hl as (_ & _ & Hp & H1 & H2 & H3 & H4 & H5 & _ & H8 & H6 & H7).
      specialize (IH (S k) h Hh Hrest).
      destruct (build_gat_layers inis (S k) h hidden hd edge_dim p res) as [ls|e]; cbn [bind].
      * destruct IH as (_ & Hw & Hall). split; [right; exact Hp|].
        split; [cbn [map]; rewrite Hw, H2; reflexivity|].
        constructor; [|exact Hall]. repeat split; try assumption; apply H6.
      * destruct IH as (_ & -> & Np). contradiction.
    + split; [discriminate|].
      destruct Hl as [[_ E]|[(_ & _ & E)|(-> & _ & _ & Np)]];
        [contradiction|contradiction|]. split; [reflexivity|exact Np].
Qed.

(** Every outcome of [StackedGAT.__init__]. *)
Lemma StackedGAT_init_cases (inis : nat -> gat_init) (in_features : nat)
    (hidden_dims : list nat) (hd : nat) (p : R) (edge_dim : nat) (res : bool) :
  match StackedGAT_init inis in_features hidden_dims hd p edge_dim res with
  | Ok s =>
      (hidden_dims = []
       \/ (hd <> O /\ Forall (fun h => h mod hd = 0)%nat hidden_dims /\ 0 <= p <= 1))
      /\ map (fun l => heads l * out_features_per_head l)%nat (layers s) = hidden_dims
      /\ Forall (fun l => heads l = hd /\ alpha l = 2 / 10 /\ dropout l = p
                          /\ training l = true /\ use_edge_weights l = true
                          /\ (res_fc l = Unset <-> res = false)) (layers s)
  | Raise e =>
      hidden_dims <> []
      /\ ((e = ZeroDivisionError /\ hd = O)
          \/ (e = AssertionError /\ hd <> O
              /\ Exists (fun h => h mod hd <> 0)%nat hidden_dims)
          \/ (e = ValueError /\ hd <> O
              /\ Forall (fun h => h mod hd = 0)%nat hidden_dims /\ ~ 0 <= p <= 1))
  end.
Proof.
  unfold StackedGAT_init.
  pose proof (check_hidden_dims_cases hidden_dims hd) as Hc.
  destruct (check_hidden_dims hidden_dims hd) as [u|e]; cbn [bind].
  - destruct Hc as [->|[Hh Hd]].
    + cbn. split; [left; reflexivity|]. split; [reflexivity|constructor].
    + pose proof (build_gat_layers_cases inis hd edge_dim p res hidden_dims 0 in_features
                    Hh Hd) as Hb.
      destruct (build_gat_layers inis 0 in_features hidden_dims hd edge_dim p res) as [ls|e];
        cbn [bind layers].
      * destruct Hb as ([->|Hp] & Hw & Hall).
        -- split; [left; reflexivity|]. split; assumption.
        -- split; [right; repeat split; try assumption; apply Hp|]. split; assumption.
      * destruct Hb as (Hne & -> & Np). split; [exact Hne|]. right. right.
        repeat split; assumption.
  - destruct Hc as [Hne [H|H]]; (split; [exact Hne|]); [left|right; left]; exact H.
Qed.

(** A stack of two sample layers, of widths 2 and 1, is constructed. *)
Lemma sample_stack_init (res : bool) :
  exists s, StackedGAT_init (fun _ => sample_init) 1 [2; 1]%nat 1 (3 / 10) 1 res = Ok s.
Proof.
  pose proof (StackedGAT_init_cases (fun _ => sample_init) 1 [2; 1]%nat 1 (3 / 10) 1 res) as C.
  destruct (StackedGAT_init (fun _ => sample_init) 1 [2; 1]%nat 1 (3 / 10) 1 res) as [s|e].
  - exists s. reflexivity.
  - exfalso. destruct C as (_ & [[_ C]|[(_ & _ & C)|(_ & _ & _ & C)]]).
    + discriminate.
    + repeat match goal with
             | H : Exists _ _ |- _ => inversion H; clear H; subst
             end; match goal with H : _ <> _ |- _ => apply H; reflexivity end.
    + apply C. lra.
Qed.

(** X5.  The outcomes of [WeightedMultiHeadGAT.__init__] for a positive
    output width: [ZeroDivisionError] for [heads = 0] (from the modulo of the
    assertion), [AssertionError] when [heads] does not divide
    [out_features], [ValueError] (from [nn.Dropout]) for a rate outside
    [0, 1], in this order; otherwise a layer in training mode whose
    [heads * out_features_per_head] is exactly [out_features], with
    [edge_encoder] assigned exactly when [use_edge_weights] and [res_fc]
    exactly when [residual]. *)
Theorem layer_construction_outcome (ini : gat_init)
    (in_features out_features hd edge_dim : nat) (p a : R) (res uew : bool) :
  out_features <> O ->
  match WeightedMultiHeadGAT_init ini in_features out_features hd edge_dim p a res uew with
  | Ok l =>
      hd <> O /\ (out_features mod hd = 0)%nat /\ 0 <= p <= 1
      /\ heads l = hd /\ (heads l * out_features_per_head l = out_features)%nat
      /\ alpha l = a /\ dropout l = p /\ training l = true
      /\ residual l = res /\ use_edge_weights l = uew
      /\ (res_fc l = Unset <-> res = false)
      /\ (edge_encoder l = Unset <-> uew = false)
  | Raise e =>
      (e = ZeroDivisionError /\ hd = O)
      \/ (e = AssertionError /\ hd <> O /\ (out_features mod hd <> 0)%nat)
      \/ (e = ValueError /\ hd <> O /\ (out_features mod hd = 0)%nat /\ ~ 0 <= p <= 1)
  end.
Proof. intros _. apply WeightedMultiHeadGAT_init_cases. Qed.

(** Witness for [layer_construction_outcome]: the construction of the
    sample layer. *)
Lemma layer_construction_outcome_witness :
  match WeightedMultiHeadGAT_init sample_init 1 1 1 1 (3 / 10) (2 / 10) true true with
  | Ok l =>
      1%nat <> O /\ (1 mod 1 = 0)%nat /\ 0 <= 3 / 10 <= 1
      /\ heads l = 1%nat /\ (heads l * out_features_per_head l = 1)%nat
      /\ alpha l = 2 / 10 /\ dropout l = 3 / 10 /\ training l = true
      /\ residual l = true /\ use_edge_weights l = true
      /\ (res_fc l = Unset <-> true = false)
      /\ (edge_encoder l = Unset <-> true = false)
  | Raise e =>
      (e = ZeroDivisionError /\ 1%nat = O)
      \/ (e = AssertionError /\ 1%nat <> O /\ (1 mod 1 <> 0)%nat)
      \/ (e = ValueError /\ 1%nat <> O /\ (1 mod 1 = 0)%nat /\ ~ 0 <= 3 / 10 <= 1)
  end.
Proof.
  apply (layer_construction_outcome sample_init 1 1 1 1 (3 / 10) (2 / 10) true true).
  discriminate.
Defined.

(** X6.  The outcomes of [StackedGAT.__init__] for positive hidden widths.
    An empty [hidden_dims] always gives a stack without layers.  Otherwise
    the dimension check runs over the whole list before any layer is built:
    [ZeroDivisionError] for [heads = 0], [AssertionError] when [heads] fails
    to divide some width, and only then [ValueError] for a dropout rate
    outside [0, 1].  A constructed stack has one layer per hidden width, of
    that output width, with the given [heads] and [dropout], the default
    slope 0.2 and edge weights in use. *)
Theorem stack_construction_outcome (inis : nat -> gat_init) (in_features : nat)
    (hidden_dims : list nat) (hd : nat) (p : R) (edge_dim : nat) (res : bool) :
  Forall (fun h => h <> O) hidden_dims ->
  match StackedGAT_init inis in_features hidden_dims hd p edge_dim res with
  | Ok s =>
      (hidden_dims = []
       \/ (hd <> O /\ Forall (fun h => h mod hd = 0)%nat hidden_dims /\ 0 <= p <= 1))
      /\ map (fun l => heads l * out_features_per_head l)%nat (layers s) = hidden_dims
      /\ Forall (fun l => heads l = hd /\ alpha l = 2 / 10 /\ dropout l = p
                          /\ training l = true /\ use_edge_weights l = true
                          /\ (res_fc l = Unset <-> res = false)) (layers s)
  | Raise e =>
      hidden_dims <> []
      /\ ((e = ZeroDivisionError /\ hd = O)
          \/ (e = AssertionError /\ hd <> O
              /\ Exists (fun h => h mod hd <> 0)%nat hidden_dims)
          \/ (e = ValueError /\ hd <> O
              /\ Forall (fun h => h mod hd = 0)%nat hidden_dims /\ ~ 0 <= p <= 1))
  end.
Proof. intros _. apply StackedGAT_init_cases. Qed.

(** Witness for [stack_construction_outcome]: two sample layers of widths 2
    and 1. *)
Lemma stack_construction_outcome_witness :
  match StackedGAT_init (fun _ => sample_init) 1 [2; 1]%nat 1 (3 / 10) 1 true with
  | Ok s =>
      ([2; 1]%nat = []
       \/ (1%nat <> O /\ Forall (fun h => h mod 1 = 0)%nat [2; 1]%nat /\ 0 <= 3 / 10 <= 1))
      /\ map (fun l => heads l * out_features_per_head l)%nat (layers s) = [2; 1]%nat
      /\ Forall (fun l => heads l = 1%nat /\ alpha l = 2 / 10 /\ dropout l = 3 / 10
                          /\ training l = true /\ use_edge_weights l = true
                          /\ (res_fc l = Unset <-> true = false)) (layers s)
  | Raise e =>
      [2; 1]%nat <> []
      /\ ((e = ZeroDivisionError /\ 1%nat = O)
          \/ (e = AssertionError /\ 1%nat <> O
              /\ Exists (fun h => h mod 1 <> 0)%nat [2; 1]%nat)
          \/ (e = ValueError /\ 1%nat <> O
              /\ Forall (fun h => h mod 1 = 0)%nat [2; 1]%nat /\ ~ 0 <= 3 / 10 <= 1))
  end.
Proof.
  apply (stack_construction_outcome (fun _ => sample_init) 1 [2; 1]%nat 1 (3 / 10) 1 true).
  repeat constructor; discriminate.
Defined.

(** X7.  [StackedGAT(in_features)] with the default arguments cannot be
    constructed: the default heads 12 do not divide the first default width
    1024, so the dimension check raises [AssertionError], whatever
    [in_features] is. *)
Theorem default_stack_is_refused (inis : nat -> gat_init) (in_features : nat) :
  StackedGAT_default inis in_features = Raise AssertionError.
Proof. reflexivity. Qed.

(** X8.  A stack with at least one layer constructed with
    [residual=False] (and the [edge_dim] 1 of a weighted adjacency) cannot
    run: its first layer never got a [res_fc], and on node features of
    shape [N x in_features] with an [N x N] adjacency matrix, which pass
    the steps before the residual, [forward] raises [AttributeError]. *)
Theorem stack_without_residual_cannot_run (inis : nat -> gat_init) (in_features : nat)
    (hidden_dims : list nat) (hd : nat) (p : R) (s : StackedGAT) (g : rng)
    (x adj_matrix : matrix) :
  StackedGAT_init inis in_features hidden_dims hd p 1 false = Ok s ->
  hidden_dims <> [] ->
  Forall (fun h => h <> O) hidden_dims ->
  has_shape (length x) in_features x ->
  has_shape (length x) (length x) adj_matrix ->
  StackedGAT_forward s g x adj_matrix = Raise AttributeError.
Proof.
  intros Hs Hne _ _ _. rename adj_matrix into adj.
  pose proof (StackedGAT_init_cases inis in_features hidden_dims hd p 1 false) as H.
  rewrite Hs in H. destruct H as (_ & Hw & Hall).
  unfold StackedGAT_forward. destruct (layers s) as [|l ls].
  - simpl in Hw. congruence.
  - inversion Hall as [|l' ls' Hl _]; subst. cbn [run_gat_layers].
    rewrite forward_without_res_fc; [reflexivity|]. apply Hl. reflexivity.
Qed.

(** Witness for [stack_without_residual_cannot_run]: two sample layers
    without residual, on the two sample nodes. *)
Lemma stack_without_residual_cannot_run_witness :
  exists s,
    StackedGAT_init (fun _ => sample_init) 1 [2; 1]%nat 1 (3 / 10) 1 false = Ok s
    /\ StackedGAT_forward s keep_all sample_x sample_adj = Raise AttributeError.
Proof.
  destruct (sample_stack_init false) as (s & Hs).
  exists s. split; [exact Hs|].
  apply (stack_without_residual_cannot_run (fun _ => sample_init) 1 [2; 1]%nat 1 (3 / 10)
           s keep_all sample_x sample_adj Hs).
  - discriminate.
  - repeat constructor; discriminate.
  - apply sample_x_shape.
  - apply sample_adj_shape.
Defined.

Lemma StackedGAT_init_stack_ok inis in_features hidden_dims hd p s :
  StackedGAT_init inis in_features hidden_dims hd p 1 true = Ok s ->
  stack_ok in_features (layers s) (last hidden_dims in_features).
Proof.
  intros Hs.
  pose proof (StackedGAT_init_cases inis in_features hidden_dims hd p 1 true) as C.
  rewrite Hs in C. destruct C as ([->|(Hh & Hd & Hp)] & _).
  - cbn in Hs. injection Hs as <-. reflexivity.
  - unfold StackedGAT_init in Hs. rewrite (check_hidden_dims_ok hidden_dims hd Hh Hd) in Hs.
    cbn [bind] in Hs.
    destruct (build_gat_layers_ok inis hd p hidden_dims 0 in_features Hh Hd Hp)
      as (ls & Hls & Hstack).
    rewrite Hls in Hs. cbn [bind] in Hs. injection Hs as <-. exact Hstack.
Qed.

(** X9.  A stack the constructor has built (with the residual, and the
    [edge_dim] 1 of a weighted adjacency) maps [N] rows of [in_features]
    real numbers and a real [N x N] adjacency matrix in which every node has
    a positive entry to [N] rows of real numbers, of the last hidden width;
    with no hidden width it returns its input. *)
Theorem stack_maps_to_the_last_width (inis : nat -> gat_init) (in_features : nat)
    (hidden_dims : list nat) (hd : nat) (p : R) (s : StackedGAT) (g : rng)
    (x adj_matrix : matrix) :
  StackedGAT_init inis in_features hidden_dims hd p 1 true = Ok s ->
  Forall (fun h => h <> O) hidden_dims ->
  has_shape (length x) in_features x -> finite_mat x ->
  has_shape (length x) (length x) adj_matrix -> finite_mat adj_matrix ->
  Forall (Exists positive) adj_matrix ->
  exists out,
    StackedGAT_forward s g x adj_matrix = Ok out
    /\ has_shape (length x) (last hidden_dims in_features) out
    /\ finite_mat out
    /\ (hidden_dims = [] -> out = x).
Proof.
  intros Hs _ Hx Hxf Hadj Hadjf Hpos. unfold StackedGAT_forward.
  destruct (run_gat_layers_ok (layers s) 0 g in_features (last hidden_dims in_features)
              x adj_matrix) as (out & Hout & Hos & Hof); try assumption.
  { apply (StackedGAT_init_stack_ok inis in_features hidden_dims hd p). exact Hs. }
  exists out. split; [exact Hout|]. split; [exact Hos|]. split; [exact Hof|].
  intros ->. cbn in Hs. injection Hs as <-. cbn in Hout. congruence.
Qed.

(** Witness for [stack_maps_to_the_last_width]: two sample layers on two
    nodes. *)
Lemma stack_maps_to_the_last_width_witness :
  exists s,
    StackedGAT_init (fun _ => sample_init) 1 [2; 1]%nat 1 (3 / 10) 1 true = Ok s
    /\ exists out,
         StackedGAT_forward s keep_all sample_x [[Fin 1; Fin (1 / 2)]; [Fin 0; Fin 1]] = Ok out
         /\ has_shape 2 1 out
         /\ finite_mat out
         /\ ([2; 1]%nat = [] -> out = sample_x).
Proof.
  destruct (sample_stack_init true) as (s & Hs).
  exists s. split; [exact Hs|].
  apply (stack_maps_to_the_last_width (fun _ => sample_init) 1 [2; 1]%nat 1 (3 / 10) s
           keep_all sample_x [[Fin 1; Fin (1 / 2)]; [Fin 0; Fin 1]] Hs).
  - repeat constructor; discriminate.
  - apply sample_x_shape.
  - apply sample_x_shape.
  - split; [reflexivity|repeat constructor].
  - repeat constructor.
  - constructor; [|constructor; [|constructor]].
    + apply Exists_cons_hd. exact positive_one.
    + apply Exists_cons_tl. apply Exists_cons_hd. exact positive_one.
Defined.

(** ** The attention weights and the mask *)

Lemma sumR_member_le l r :
  Forall (fun a => 0 <= a) l -> In r l -> r <= sumR l.
Proof.
  induction 1 as [|a l Ha Hl IH]; intros Hin; [destruct Hin|].
  pose proof (sumR_nonneg l Hl). destruct Hin as [->|Hin]; simpl; [lra|].
  specialize (IH Hin). lra.
Qed.

(** One weight of a row with an unmasked score: a real number in [0, 1],
    positive exactly when its own score is unmasked. *)
Lemma softmax_weight v j :
  Forall real_or_ninf v -> Exists finite v -> (j < length v)%nat ->
  exists w, nth j (softmax v) NaN = Fin w /\ 0 <= w <= 1
            /\ (0 < w <-> finite (nth j v NaN)).
Proof.
  intros Hv Hex Hj. destruct (softmax_real v Hv Hex) as (m & _ & ->).
  set (s := sumR (map (shifted_exp m) v)).
  assert (Hs : 0 < s) by (apply shifted_exp_sum_pos; exact Hex).
  rewrite (nth_indep _ NaN (Fin (shifted_exp m NaN / s))) by (rewrite length_map; exact Hj).
  rewrite (map_nth (fun a => Fin (shifted_exp m a / s))).
  exists (shifted_exp m (nth j v NaN) / s). split; [reflexivity|].
  assert (Hle : shifted_exp m (nth j v NaN) <= s).
  { apply sumR_member_le.
    - apply Forall_map. apply Forall_forall. intros a _. apply shifted_exp_nonneg.
    - apply in_map. apply nth_In. exact Hj. }
  pose proof (shifted_exp_nonneg m (nth j v NaN)) as H0.
  split; [split|].
  - apply Rmult_le_pos; [exact H0|]. left. apply Rinv_0_lt_compat. exact Hs.
  - apply (Rmult_le_reg_r s); [exact Hs|]. unfold Rdiv.
    rewrite Rmult_assoc, Rinv_l by lra. lra.
  - assert (Hreal : real_or_ninf (nth j v NaN)) by (apply Forall_nth_lt; assumption).
    destruct (nth j v NaN) as [r| | |]; simpl in *; try contradiction.
    + split; [intros _; exact I|]. intros _. apply Rdiv_lt_0_compat; [apply exp_pos|exact Hs].
    + split; [|intros []]. unfold Rdiv. rewrite Rmult_0_l. lra.
Qed.

Section ScoreEntries.

Variable slope : R.
Variable hd_count : nat.
Variable adj_i : vector.
Variable t_i : matrix.

Hypothesis Hslope : 0 < slope.
Hypothesis Hlen : length adj_i = length t_i.
Hypothesis Ht : Forall (fun v => length v = hd_count) t_i.
Hypothesis Htfin : finite_mat t_i.

(** A score of the row is real exactly when its adjacency entry is
    positive. *)
Lemma score_entry_finite j h :
  (j < length t_i)%nat -> (h < hd_count)%nat ->
  (finite (nth j (column h (score_row slope adj_i t_i)) NaN)
   <-> positive (nth j adj_i NaN)).
Proof.
  intros Hj Hh. unfold column, score_row.
  assert (Lz : length (zip_with (fun (keep : bool) (v : vector) =>
                                   if keep then v else map (fun _ => NInf) v)
                                (map (fun a => fgt a (Fin 0)) adj_i) t_i) = length t_i).
  { rewrite zip_with_length, length_map. lia. }
  rewrite (nth_map_lt _ _ _ [] NaN) by (rewrite length_map, Lz; exact Hj).
  rewrite (nth_map_lt _ _ _ [] []) by (rewrite Lz; exact Hj).
  rewrite (zip_with_nth _ _ _ _ false [] []) by (rewrite ?length_map; lia).
  rewrite (nth_map_lt _ _ _ NaN false) by lia.
  assert (Hrow : length (nth j t_i []) = hd_count /\ finite_vec (nth j t_i [])).
  { split; [apply (Forall_nth_lt (fun v => length v = hd_count)); assumption|].
    apply finite_mat_nth. exact Htfin. }
  destruct Hrow as [Rl Rf]. unfold positive.
  destruct (fgt (nth j adj_i NaN) (Fin 0)).
  - rewrite (nth_map_lt _ _ _ NaN NaN) by lia.
    split; [reflexivity|]. intros _. apply leaky_relu_finite.
    apply Forall_nth_lt; [exact Rf|lia].
  - rewrite map_map. rewrite (nth_map_lt _ _ _ NaN NaN) by lia.
    rewrite (leaky_relu_NInf slope Hslope). split; [intros []|discriminate].
Qed.

Lemma normalised_row_weight j h :
  (j < length t_i)%nat -> (h < hd_count)%nat ->
  Exists positive adj_i ->
  exists w, nth h (nth j (normalised_row slope hd_count adj_i t_i) []) NaN = Fin w
            /\ 0 <= w <= 1
            /\ (0 < w <-> positive (nth j adj_i NaN)).
Proof.
  intros Hj Hh Hex.
  assert (Sl : length (score_row slope adj_i t_i) = length t_i)
    by (apply score_row_length; exact Hlen).
  assert (Hentry : nth h (nth j (normalised_row slope hd_count adj_i t_i) []) NaN
                   = nth j (softmax (column h (score_row slope adj_i t_i))) NaN).
  { rewrite normalised_row_form.
    rewrite (nth_map_lt _ _ _ O []) by (rewrite length_seq, Sl; exact Hj).
    rewrite seq_nth by (rewrite Sl; exact Hj).
    rewrite (nth_map_lt _ _ _ O NaN) by (rewrite length_seq; exact Hh).
    rewrite seq_nth by exact Hh. reflexivity. }
  rewrite Hentry.
  destruct (softmax_weight (column h (score_row slope adj_i t_i)) j) as (w & Hw & Hr & Hp).
  - apply (column_real_or_ninf slope hd_count); assumption.
  - apply (column_has_real slope hd_count); assumption.
  - unfold column. rewrite length_map, Sl. exact Hj.
  - exists w. split; [exact Hw|]. split; [exact Hr|].
    rewrite Hp. apply score_entry_finite; assumption.
Qed.

End ScoreEntries.

(** X10.  For a well-formed layer with a positive leaky slope on real,
    well-shaped inputs, in the attention row of a destination node [i] that
    has a positive adjacency entry every weight is a real number in [0, 1],
    and a source [j] whose adjacency entry [adj[i][j]] is zero or negative
    gets the weight exactly 0, in every head: attention reaches a node only
    along the edges of the mask. *)
Theorem attention_weights_follow_the_mask (m : WeightedMultiHeadGAT)
    (in_features out_features : nat) (x adj : matrix) :
  gat_ok in_features out_features m ->
  0 < alpha m ->
  has_shape (length x) in_features x -> finite_mat x ->
  has_shape (length x) (length x) adj -> finite_mat adj ->
  exists attn,
    attention_weights m x adj = Ok attn
    /\ forall i j h, (i < length x)%nat -> (j < length x)%nat -> (h < heads m)%nat ->
         Exists positive (nth i adj []) ->
         exists w, nth h (nth j (nth i attn []) []) NaN = Fin w
                   /\ 0 <= w <= 1
                   /\ (~ positive (nth j (nth i adj []) NaN) -> w = 0).
Proof.
  intros Hok Hs Hx Hxf Hadj Hadjf.
  destruct (attention_weights_rows m in_features out_features x adj Hok Hxf Hadj Hadjf)
    as (t & _ & _ & _ & Hw & _ & Hrows).
  exists (attention m adj t). split; [exact Hw|].
  intros i j h Hi Hj Hh Hex. destruct (Hrows i Hi) as (-> & Hlen & Hwd & Hf & Hn).
  destruct (normalised_row_weight (alpha m) (heads m) (nth i adj []) (nth i t [])
              Hs Hlen Hwd Hf j h) as (w & Ew & Hr & Hpos); try assumption.
  { rewrite Hn. exact Hj. }
  exists w. split; [exact Ew|]. split; [exact Hr|].
  intros Hm. destruct Hr as [[Hlt|Heq] _]; [|symmetry; exact Heq].
  exfalso. apply Hm. apply Hpos. exact Hlt.
Qed.

(** Witness for [attention_weights_follow_the_mask]: the sample layer on
    two nodes. *)
Lemma attention_weights_follow_the_mask_witness :
  exists attn,
    attention_weights sample_layer sample_x sample_adj = Ok attn
    /\ forall i j h, (i < length sample_x)%nat -> (j < length sample_x)%nat ->
         (h < heads sample_layer)%nat ->
         Exists positive (nth i sample_adj []) ->
         exists w, nth h (nth j (nth i attn []) []) NaN = Fin w
                   /\ 0 <= w <= 1
                   /\ (~ positive (nth j (nth i sample_adj []) NaN) -> w = 0).
Proof.
  apply (attention_weights_follow_the_mask sample_layer 1 1 sample_x sample_adj).
  - exact sample_layer_ok.
  - simpl. lra.
  - apply sample_x_shape.
  - apply sample_x_shape.
  - apply sample_adj_shape.
  - apply sample_adj_shape.
Defined.

(** X11.  A layer with [use_edge_weights=False] reads the adjacency matrix
    only through the mask [adj_matrix > 0]: two adjacency matrices with the
    same positive entries give the same result, whatever the weights. *)
Theorem without_edge_weights_only_the_mask_matters (l : WeightedMultiHeadGAT) (g : rng)
    (x adj adj' : matrix) :
  use_edge_weights l = false ->
  mask adj = mask adj' ->
  WeightedMultiHeadGAT_forward l g x adj = WeightedMultiHeadGAT_forward l g x adj'.
Proof.
  intros Hu Hm.
  unfold WeightedMultiHeadGAT_forward, attention_weights, raw_scores. rewrite Hu.
  cbn [bind]. unfold attention, masked_fill. rewrite Hm. reflexivity.
Qed.

(** Witness for [without_edge_weights_only_the_mask_matters]: two adjacency
    matrices whose first row is positive and whose second row is not. *)
Lemma without_edge_weights_only_the_mask_matters_witness :
  WeightedMultiHeadGAT_forward sample_layer_without_edge_weights keep_all sample_x
    [[Fin 1; Fin (1 / 2)]; [Fin 0; Fin 0]]
  = WeightedMultiHeadGAT_forward sample_layer_without_edge_weights keep_all sample_x
      [[Fin 7; Fin 3]; [Fin (- 1); NaN]].
Proof.
  apply (without_edge_weights_only_the_mask_matters sample_layer_without_edge_weights
           keep_all sample_x).
  - reflexivity.
  - unfold mask. cbn [map fgt].
    repeat match goal with |- context [Rlt_dec ?a ?b] => destruct (Rlt_dec a b); try lra end.
    reflexivity.
Defined.

(** ** The constructor of the classifier *)

Lemma build_gcn_layers_structure inis : forall hidden k in_dim num_classes,
  length (build_gcn_layers inis k in_dim (hidden ++ [num_classes])) = (3 * length hidden + 1)%nat
  /\ gcn_ok in_dim (build_gcn_layers inis k in_dim (hidden ++ [num_classes])) num_classes
  /\ (exists front,
        build_gcn_layers inis k in_dim (hidden ++ [num_classes])
        = front ++ [LGCNConv (GCNConv_init (inis (k + length hidden)%nat)
                                (last hidden in_dim) num_classes)]).
Proof.
  induction hidden as [|d hidden IH]; intros k in_dim num_classes.
  - cbn. split; [reflexivity|]. split.
    + exists num_classes. split; [apply GCNConv_init_ok|reflexivity].
    + exists []. rewrite Nat.add_0_r. reflexivity.
  - destruct (IH (S k) d num_classes) as (Hl & Hok & (front & Hf)).
    assert (E : build_gcn_layers inis k in_dim ((d :: hidden) ++ [num_classes])
                = LGCNConv (GCNConv_init (inis k) in_dim d) :: LReLU
                    :: LBatchNorm1d (BatchNorm1d_init d)
                    :: build_gcn_layers inis (S k) d (hidden ++ [num_classes])).
    { cbn [app build_gcn_layers]. destruct (hidden ++ [num_classes]) eqn:Eh; [|reflexivity].
      destruct hidden; discriminate. }
    rewrite E. split; [cbn [length]; rewrite Hl; lia|]. split.
    + exists d. split; [apply GCNConv_init_ok|]. split; [apply BatchNorm1d_init_ok|exact Hok].
    + exists (LGCNConv (GCNConv_init (inis k) in_dim d) :: LReLU
                :: LBatchNorm1d (BatchNorm1d_init d) :: front).
      rewrite Hf. cbn [app length]. rewrite Nat.add_succ_r.
      destruct hidden as [|d' hidden]; [reflexivity|].
      change (last (d :: d' :: hidden) in_dim) with (last (d' :: hidden) in_dim).
      rewrite (last_default (d' :: hidden) in_dim d) by discriminate. reflexivity.
Qed.

(** The three layers of hidden width number [i], by their positions. *)
Lemma build_gcn_layers_blocks inis : forall hidden k in_dim num_classes i,
  (i < length hidden)%nat ->
  let ls := build_gcn_layers inis k in_dim (hidden ++ [num_classes]) in
  nth_error ls (3 * i)
  = Some (LGCNConv (GCNConv_init (inis (k + i)%nat) (nth i (in_dim :: hidden) O)
                      (nth i hidden O)))
  /\ nth_error ls (3 * i + 1) = Some LReLU
  /\ nth_error ls (3 * i + 2) = Some (LBatchNorm1d (BatchNorm1d_init (nth i hidden O))).
Proof.
  induction hidden as [|d hidden IH]; intros k in_dim num_classes i Hi; [inversion Hi|].
  cbv zeta.
  assert (E : build_gcn_layers inis k in_dim ((d :: hidden) ++ [num_classes])
              = LGCNConv (GCNConv_init (inis k) in_dim d) :: LReLU
                  :: LBatchNorm1d (BatchNorm1d_init d)
                  :: build_gcn_layers inis (S k) d (hidden ++ [num_classes])).
  { cbn [app build_gcn_layers]. destruct (hidden ++ [num_classes]) eqn:Eh; [|reflexivity].
    destruct hidden; discriminate. }
  rewrite E. destruct i as [|i].
  - cbn. rewrite Nat.add_0_r. repeat split; reflexivity.
  - cbn [length] in Hi. apply PeanoNat.lt_S_n in Hi.
    destruct (IH (S k) d num_classes i Hi) as (H0 & H1 & H2).
    replace (3 * S i)%nat with (S (S (S (3 * i)))) by lia.
    replace (k + S i)%nat with (S k + i)%nat by lia.
    cbn [nth_error plus nth]. repeat split; assumption.
Qed.

(** X12.  [GCNClassifier.__init__] builds [3 * len(hidden_dims) + 1]
    layers.  For hidden width number [i] the layers at the positions [3i],
    [3i + 1] and [3i + 2] are a [GCNConv] from the width before it (or
    [in_features]) to that width, a ReLU and a [BatchNorm1d] of that width;
    the last layer is a [GCNConv] from the last hidden width (or
    [in_features]) to [num_classes], with nothing after it.  The widths
    chain from [in_features] to [num_classes]. *)
Theorem classifier_structure (inis : nat -> linear_init) (in_features num_classes : nat)
    (hidden_dims : list nat) :
  let self := GCNClassifier_init inis in_features num_classes hidden_dims in
  length (gcn_layers self) = (3 * length hidden_dims + 1)%nat
  /\ gcn_ok in_features (gcn_layers self) num_classes
  /\ (exists front,
        gcn_layers self
        = front ++ [LGCNConv (GCNConv_init (inis (length hidden_dims))
                                (last hidden_dims in_features) num_classes)])
  /\ (forall i, (i < length hidden_dims)%nat ->
        nth_error (gcn_layers self) (3 * i)
        = Some (LGCNConv (GCNConv_init (inis i) (nth i (in_features :: hidden_dims) O)
                            (nth i hidden_dims O)))
        /\ nth_error (gcn_layers self) (3 * i + 1) = Some LReLU
        /\ nth_error (gcn_layers self) (3 * i + 2)
           = Some (LBatchNorm1d (BatchNorm1d_init (nth i hidden_dims O)))).
Proof.
  cbv zeta. unfold GCNClassifier_init. cbn [gcn_layers].
  destruct (build_gcn_layers_structure inis hidden_dims 0 in_features num_classes)
    as (Hl & Hok & Hlast).
  split; [exact Hl|]. split; [exact Hok|]. split; [exact Hlast|].
  intros i Hi. apply (build_gcn_layers_blocks inis hidden_dims 0 in_features num_classes i Hi).
Qed.

Lemma GCNConv_forward_length conv x edges :
  length (GCNConv_forward conv x edges) = length x.
Proof. unfold GCNConv_forward. cbv zeta. rewrite length_map, length_seq. reflexivity. Qed.

(** X13.  A freshly constructed classifier with a hidden layer is in
    training mode and refuses a graph of one node with at least one feature:
    the first batch normalisation gets a single row and raises
    [ValueError]. *)
Theorem classifier_refuses_single_node_in_training (inis : nat -> linear_init)
    (in_features num_classes : nat) (hidden_dims : list nat) (x : matrix)
    (edge_index : list (nat * nat)) :
  hidden_dims <> [] ->
  in_features <> O ->
  has_shape 1 in_features x ->
  edges_in_range 1 edge_index ->
  GCNClassifier_forward (GCNClassifier_init inis in_features num_classes hidden_dims)
    x edge_index = Raise ValueError.
Proof.
  intros Hne _ [Hx _] _. destruct hidden_dims as [|d hidden]; [congruence|].
  unfold GCNClassifier_forward, GCNClassifier_init. cbn [gcn_layers].
  assert (E : build_gcn_layers inis 0 in_features ((d :: hidden) ++ [num_classes])
              = LGCNConv (GCNConv_init (inis O) in_features d) :: LReLU
                  :: LBatchNorm1d (BatchNorm1d_init d)
                  :: build_gcn_layers inis 1 d (hidden ++ [num_classes])).
  { cbn [app build_gcn_layers]. destruct (hidden ++ [num_classes]) eqn:Eh; [|reflexivity].
    destruct hidden; discriminate. }
  rewrite E. cbn [run_gcn_layers]. unfold BatchNorm1d_forward at 1.
  cbn [bn_training BatchNorm1d_init].
  rewrite length_map, GCNConv_forward_length, Hx. reflexivity.
Qed.

(** Witness for [classifier_refuses_single_node_in_training]: the classifier
    of the full model on one node with its self-loop. *)
Lemma classifier_refuses_single_node_in_training_witness :
  GCNClassifier_forward (GCNClassifier_init (fun _ => sample_linear_init) 1 20 [256%nat])
    [[Fin 1]] [(O, O)] = Raise ValueError.
Proof.
  apply (classifier_refuses_single_node_in_training (fun _ => sample_linear_init) 1 20
           [256%nat] [[Fin 1]] [(O, O)]).
  - discriminate.
  - discriminate.
  - split; [reflexivity|repeat constructor].
  - repeat constructor.
Defined.

(** ** The graph of a batch of embeddings *)

Lemma dotR_nonneg a b :
  Forall (fun r => 0 <= r) a -> Forall (fun r => 0 <= r) b -> 0 <= dotR a b.
Proof.
  intros Ha. revert b. induction Ha as [|x a Hx Ha IH]; intros b Hb; [unfold dotR; simpl; lra|].
  destruct Hb as [|y b Hy Hb]; [unfold dotR; simpl; lra|].
  unfold dotR in *. cbn [zip_with sumR fold_right]. specialize (IH b Hb).
  unfold sumR in IH. pose proof (Rmult_le_pos x y Hx Hy). lra.
Qed.

Lemma scaled_nonneg v n :
  0 < n -> Forall (fun r => 0 <= r) v -> Forall (fun r => 0 <= r) (map (fun r => r / n) v).
Proof.
  intros Hn Hv. apply Forall_map. eapply Forall_impl; [|exact Hv]. intros r Hr. cbv beta.
  apply Rmult_le_pos; [exact Hr|]. left. apply Rinv_0_lt_compat. exact Hn.
Qed.

(** The similarity of two vectors without negative entries is not
    negative. *)
Lemma cosine_similarity_nonneg u v :
  Forall (fun r => 0 <= r) u -> Forall (fun r => 0 <= r) v ->
  exists c, cosine_similarity (map Fin u) (map Fin v) = Fin c /\ 0 <= c <= 1.
Proof.
  intros Hu Hv. destruct (cosine_similarity_range u v) as (c & Hc & Hr).
  exists c. split; [exact Hc|]. split; [|lra].
  rewrite cosine_similarity_Fin in Hc. injection Hc as <-.
  pose proof cosine_eps_pos as He.
  apply dotR_nonneg; apply scaled_nonneg; try assumption.
  - pose proof (Rmax_r (norm2R u) cosine_eps). lra.
  - pose proof (Rmax_r (norm2R v) cosine_eps). lra.
Qed.

Lemma build_adjacency_upper_half rows :
  Forall (Forall (fun r => 0 <= r)) rows ->
  Forall (Forall upper_half) (build_adjacency (lift rows)).
Proof.
  intros H. unfold build_adjacency, sim_matrix, lift.
  apply Forall_map. apply Forall_map. apply Forall_map.
  rewrite Forall_forall in H. apply Forall_forall. intros u Hu.
  apply Forall_map. apply Forall_map. apply Forall_map. apply Forall_forall. intros v Hv.
  destruct (cosine_similarity_nonneg u v (H u Hu) (H v Hv)) as (c & -> & Hc).
  rewrite rescale_Fin. eexists. split; [reflexivity|]. lra.
Qed.

Lemma upper_half_positive a : upper_half a -> fgt a (Fin 0) = true /\ fnonzero a = true.
Proof.
  intros (r & -> & Hr). simpl. destruct (Rlt_dec 0 r); [|lra].
  destruct (Req_dec_T r 0); [lra|]. split; reflexivity.
Qed.

Lemma mask_all_true rows cols (adj : matrix) :
  has_shape rows cols adj -> Forall (Forall (fun a => fgt a (Fin 0) = true)) adj ->
  mask adj = repeat (repeat true cols) rows.
Proof.
  intros [Hl Hr] H. unfold mask. subst rows.
  induction adj as [|row adj IH]; [reflexivity|].
  inversion Hr as [|? ? Hrow Hrest]; subst. inversion H as [|? ? Prow Prest]; subst.
  cbn [map length repeat]. rewrite (IH Hrest Prest). f_equal. clear - Prow.
  induction Prow as [|a row Ha Prow IH]; [reflexivity|].
  cbn [map length repeat]. rewrite Ha, IH. reflexivity.
Qed.

Lemma nonzero_row_full (i : nat) (row : vector) : forall s,
  Forall (fun a => fnonzero a = true) row ->
  map (fun '(j, _) => (i, j))
      (filter (fun '(_, a) => fnonzero a) (combine (seq s (length row)) row))
  = map (fun j => (i, j)) (seq s (length row)).
Proof.
  induction row as [|a row IH]; intros s H; [reflexivity|].
  inversion H as [|? ? Ha Hrow]; subst. cbn [length seq combine filter]. rewrite Ha.
  cbn [map]. rewrite (IH (S s) Hrow). reflexivity.
Qed.

(** [nonzero] of a matrix without a zero entry lists every index pair. *)
Lemma nonzero_full rows cols (m : matrix) :
  has_shape rows cols m -> Forall (Forall (fun a => fnonzero a = true)) m ->
  nonzero m = list_prod (seq 0 rows) (seq 0 cols).
Proof.
  intros [Hl Hr] H. unfold nonzero. subst rows.
  assert (G : forall s,
             concat (map (fun '(i, row) =>
                            map (fun '(j, _) => (i, j))
                                (filter (fun '(_, a) => fnonzero a)
                                        (combine (seq 0 (length row)) row)))
                         (combine (seq s (length m)) m))
             = list_prod (seq s (length m)) (seq 0 cols)); [|apply G].
  induction m as [|row m IH]; intros s; [reflexivity|].
  inversion Hr as [|? ? Hrow Hrest]; subst. inversion H as [|? ? Prow Prest]; subst.
  cbn [length seq combine map concat list_prod].
  rewrite (nonzero_row_full s row 0 Prow), (IH Hrest Prest (S s)). reflexivity.
Qed.

(** The adjacency matrix of embeddings without negative entries masks
    nothing and has no zero entry. *)
Lemma adjacency_complete rows :
  Forall (Forall (fun r => 0 <= r)) rows ->
  Forall (Forall upper_half) (build_adjacency (lift rows))
  /\ mask (build_adjacency (lift rows)) = repeat (repeat true (length rows)) (length rows)
  /\ nonzero (build_adjacency (lift rows)) = complete_graph (length rows).
Proof.
  intros H. pose proof (build_adjacency_upper_half rows H) as Hu.
  pose proof (build_adjacency_shape (lift rows)) as Hs. rewrite lift_length in Hs.
  split; [exact Hu|]. split.
  - apply mask_all_true; [exact Hs|]. eapply Forall_impl; [|exact Hu]. intros row Hrow.
    eapply Forall_impl; [|exact Hrow]. intros a Ha. apply upper_half_positive. exact Ha.
  - apply nonzero_full; [exact Hs|]. eapply Forall_impl; [|exact Hu]. intros row Hrow.
    eapply Forall_impl; [|exact Hrow]. intros a Ha. apply upper_half_positive. exact Ha.
Qed.

(** ** A graph convolution over the complete graph *)

Lemma fadd_swap a b c : fadd a (fadd b c) = fadd b (fadd a c).
Proof. destruct a, b, c; simpl; try reflexivity; f_equal; lra. Qed.

Lemma zip_with_fadd_swap (a : vector) : forall b c,
  zip_with fadd a (zip_with fadd b c) = zip_with fadd b (zip_with fadd a c).
Proof.
  induction a as [|x a IH]; intros [|y b] [|z c]; simpl; try reflexivity.
  rewrite IH, fadd_swap. reflexivity.
Qed.

(** The sum of the messages does not depend on the order of the sources. *)
Lemma fold_sources_permutation (v : nat -> vector) (zero : vector) l l' :
  Permutation l l' ->
  fold_right (fun r acc => zip_with fadd (v r) acc) zero l
  = fold_right (fun r acc => zip_with fadd (v r) acc) zero l'.
Proof.
  induction 1 as [|r l l' _ IH|r r' l|l l' l'' _ IH1 _ IH2]; cbn [fold_right].
  - reflexivity.
  - rewrite IH. reflexivity.
  - apply zip_with_fadd_swap.
  - rewrite IH1. exact IH2.
Qed.

Lemma fold_right_sources (f : nat * nat -> vector -> vector) (h : nat -> vector -> vector)
    (zero : vector) l :
  (forall e acc, In e l -> f e acc = h (fst e) acc) ->
  fold_right f zero l = fold_right h zero (map fst l).
Proof.
  induction l as [|e l IH]; intros H; [reflexivity|]. cbn [fold_right map].
  rewrite IH by (intros; apply H; right; assumption). apply H. left. reflexivity.
Qed.

Lemma NoDup_list_prod {A B} (l : list A) (l' : list B) :
  NoDup l -> NoDup l' -> NoDup (list_prod l l').
Proof.
  intros Hl Hl'. induction Hl as [|x l Hx Hl IH]; [constructor|].
  cbn [list_prod]. apply NoDup_app.
  - apply NoDup_map_NoDup_ForallPairs; [|exact Hl'].
    intros a b _ _ E. congruence.
  - exact IH.
  - intros [a b] Hin Hin'. apply in_map_iff in Hin. destruct Hin as (y & E & _).
    injection E as <- <-. apply in_prod_iff in Hin'. apply Hx. apply Hin'.
Qed.

Lemma NoDup_self_loops n : NoDup (add_remaining_self_loops n (complete_graph n)).
Proof.
  unfold add_remaining_self_loops, complete_graph. apply NoDup_app.
  - apply NoDup_filter. apply NoDup_list_prod; apply seq_NoDup.
  - apply NoDup_map_NoDup_ForallPairs; [|apply seq_NoDup]. intros a b _ _ E. congruence.
  - intros [r c] Hin Hin'. apply filter_In in Hin. destruct Hin as [_ Hne].
    apply in_map_iff in Hin'. destruct Hin' as (i & E & _). injection E as <- <-.
    rewrite Nat.eqb_refl in Hne. discriminate.
Qed.

Lemma self_loops_in_range n r c :
  In (r, c) (add_remaining_self_loops n (complete_graph n)) -> (r < n)%nat.
Proof.
  unfold add_remaining_self_loops, complete_graph. intros Hin.
  apply in_app_iff in Hin. destruct Hin as [Hin|Hin].
  - apply filter_In in Hin. destruct Hin as [Hin _]. apply in_prod_iff in Hin.
    destruct Hin as [Hin _]. apply in_seq in Hin. lia.
  - apply in_map_iff in Hin. destruct Hin as (i & E & Hi). injection E as <- _.
    apply in_seq in Hi. lia.
Qed.

(** In the complete graph every node hears from every node once. *)
Lemma incoming_sources n c :
  (c < n)%nat ->
  Permutation
    (map fst (filter (fun '(_, c') => (c' =? c)%nat)
                     (add_remaining_self_loops n (complete_graph n))))
    (seq 0 n).
Proof.
  intros Hc. apply NoDup_Permutation.
  - apply NoDup_map_NoDup_ForallPairs.
    + intros [r1 c1] [r2 c2] H1 H2 E. simpl in E. subst r2.
      apply filter_In in H1, H2. destruct H1 as [_ H1], H2 as [_ H2].
      apply Nat.eqb_eq in H1, H2. congruence.
    + apply NoDup_filter. apply NoDup_self_loops.
  - apply seq_NoDup.
  - intros r. rewrite in_map_iff. split.
    + intros ([r' c'] & E & Hin). simpl in E. subst r'.
      apply filter_In in Hin. destruct Hin as [Hin _].
      apply self_loops_in_range in Hin. apply in_seq. lia.
    + intros Hr. exists (r, c). split; [reflexivity|].
      apply filter_In. split; [|apply Nat.eqb_refl].
      unfold add_remaining_self_loops, complete_graph. apply in_app_iff.
      destruct (Nat.eq_dec r c) as [->|Hne].
      * right. apply in_map_iff. exists c. split; [reflexivity|exact Hr].
      * left. apply filter_In. split.
        -- apply in_prod_iff. split; [exact Hr|]. apply in_seq. lia.
        -- apply Nat.eqb_neq in Hne. rewrite Hne. reflexivity.
Qed.

Lemma complete_in_degree n c :
  (c < n)%nat -> in_degree (add_remaining_self_loops n (complete_graph n)) c = n.
Proof.
  intros Hc. unfold in_degree.
  rewrite <- (length_map fst), (Permutation_length (incoming_sources n c Hc)).
  apply length_seq.
Qed.

(** Over the complete graph a graph convolution gives every node the same
    row: the normalised sum of the messages of all the nodes, and the
    bias. *)
Lemma GCNConv_forward_complete conv (x : matrix) :
  exists row, GCNConv_forward conv x (complete_graph (length x)) = repeat row (length x).
Proof.
  unfold GCNConv_forward. cbv zeta.
  set (n := length x). set (es := add_remaining_self_loops n (complete_graph n)).
  set (xw := linear (gcn_lin conv) x).
  set (k := deg_inv_sqrt es 0 * deg_inv_sqrt es 0).
  set (total := fold_right (fun r acc => zip_with fadd (map (fmul (Fin k)) (nth r xw [])) acc)
                           (map (fun _ => Fin 0) (gcn_bias conv)) (seq 0 n)).
  exists (zip_with fadd total (gcn_bias conv)).
  rewrite <- (length_seq n 0) at 2. rewrite <- map_const.
  apply map_ext_in. intros c Hc. apply in_seq in Hc. f_equal.
  assert (Hdeg : forall r, (r < n)%nat -> deg_inv_sqrt es r = deg_inv_sqrt es 0).
  { intros r Hr. unfold deg_inv_sqrt, es.
    rewrite (complete_in_degree n r Hr), (complete_in_degree n 0) by lia. reflexivity. }
  rewrite (fold_right_sources _
             (fun r acc => zip_with fadd (map (fmul (Fin k)) (nth r xw [])) acc)).
  - apply fold_sources_permutation. apply incoming_sources. lia.
  - intros [r c'] acc Hin. cbn [fst]. apply filter_In in Hin. destruct Hin as [Hin _].
    apply self_loops_in_range in Hin.
    unfold k. rewrite (Hdeg r Hin), (Hdeg c) by lia. reflexivity.
Qed.

Lemma BatchNorm1d_forward_rows bn x y bn' :
  BatchNorm1d_forward bn x = Ok (y, bn') ->
  exists means vars, y = bn_apply bn means vars x.
Proof.
  unfold BatchNorm1d_forward. destruct (bn_training bn).
  - destruct (length x =? 1)%nat; [discriminate|]. intros H. injection H as <- _.
    eexists. eexists. reflexivity.
  - intros H. injection H as <- _. eexists. eexists. reflexivity.
Qed.

(** Over the complete graph on [n] nodes, a chain of classifier layers
    that holds a convolution, or starts from equal rows, ends with equal
    rows. *)
Lemma run_gcn_layers_complete n ls : forall (x y : matrix) ls',
  length x = n ->
  run_gcn_layers ls x (complete_graph n) = Ok (y, ls') ->
  Exists is_conv ls \/ (exists row, x = repeat row n) ->
  length y = n /\ exists row, y = repeat row n.
Proof.
  induction ls as [|l ls IH]; intros x y ls' Hx Hrun Hcase.
  - cbn in Hrun. injection Hrun as <- _. split; [exact Hx|].
    destruct Hcase as [E|H]; [inversion E|exact H].
  - destruct l as [conv| |bn]; cbn [run_gcn_layers] in Hrun.
    + destruct (GCNConv_forward_complete conv x) as (row & Hrow). rewrite Hx in Hrow.
      pose proof (GCNConv_forward_length conv x (complete_graph n)) as Hlen.
      destruct (run_gcn_layers ls (GCNConv_forward conv x (complete_graph n))
                  (complete_graph n)) as [[y0 rest]|e] eqn:E; [|discriminate].
      cbn [bind] in Hrun. injection Hrun as <- _.
      apply (IH _ _ _ (eq_trans Hlen Hx) E). right. exists row. exact Hrow.
    + destruct (run_gcn_layers ls (map (map relu) x) (complete_graph n))
        as [[y0 rest]|e] eqn:E; [|discriminate].
      cbn [bind] in Hrun. injection Hrun as <- _.
      apply (IH _ _ _ (eq_trans (length_map _ _) Hx) E).
      destruct Hcase as [Hc|(row & Hrow)].
      * left. inversion Hc as [? ? C|]; [destruct C|assumption].
      * right. exists (map relu row). rewrite Hrow. apply map_repeat.
    + destruct (BatchNorm1d_forward bn x) as [[x' bn']|e] eqn:Eb; [|discriminate].
      cbn [bind] in Hrun. destruct (BatchNorm1d_forward_rows bn x x' bn' Eb) as (mu & var & ->).
      destruct (run_gcn_layers ls (bn_apply bn mu var x) (complete_graph n))
        as [[y0 rest]|e] eqn:E; [|discriminate].
      cbn [bind] in Hrun. injection Hrun as <- _.
      assert (Hlen : length (bn_apply bn mu var x) = n)
        by (unfold bn_apply; rewrite length_map; exact Hx).
      apply (IH _ _ _ Hlen E). destruct Hcase as [Hc|(row & Hrow)].
      * left. inversion Hc as [? ? C|]; [destruct C|assumption].
      * right. unfold bn_apply. rewrite Hrow. eexists. apply map_repeat.
Qed.

Lemma GCNClassifier_forward_complete self (x out : matrix) self' :
  GCNClassifier_forward self x (complete_graph (length x)) = Ok (out, self') ->
  Exists is_conv (gcn_layers self) ->
  length out = length x /\ exists row, out = repeat row (length x).
Proof.
  unfold GCNClassifier_forward. intros H Hc.
  destruct (run_gcn_layers (gcn_layers self) x (complete_graph (length x)))
    as [[y ls]|e] eqn:E; [|discriminate].
  cbn [bind] in H. injection H as <- _.
  destruct (run_gcn_layers_complete _ _ _ _ _ eq_refl E (or_introl Hc)) as (Hl & row & Hrow).
  split; [rewrite length_map; exact Hl|].
  exists (map sigmoid row). rewrite Hrow at 1. apply map_repeat.
Qed.

(** ** The stages of the full model *)

Lemma dropout_elem_nonneg p tr k a :
  0 <= p <= 1 -> nonneg a -> nonneg (dropout_elem p tr k a).
Proof.
  intros Hp [Hf Ha]. destruct a as [r| | |]; simpl in Hf; try contradiction. simpl in Ha.
  unfold dropout_elem. destruct tr; [|split; [exact I|exact Ha]].
  destruct (Req_dec_T p 0); [split; [exact I|exact Ha]|].
  destruct (Req_dec_T p 1); [split; [exact I|simpl; lra]|].
  destruct k; simpl; (split; [exact I|]); simpl; [|lra].
  apply Rmult_le_pos; [exact Ha|]. unfold Rdiv. rewrite Rmult_1_l.
  left. apply Rinv_0_lt_compat. lra.
Qed.

Lemma dropout_mat_nonneg p tr g (m : matrix) :
  0 <= p <= 1 -> Forall (Forall nonneg) m -> Forall (Forall nonneg) (dropout_mat p tr g m).
Proof.
  intros Hp. apply (dropout_mat_Forall (Forall nonneg)). intros g' v Hv.
  apply dropout_vec_Forall; [|exact Hv]. intros k a Ha. apply dropout_elem_nonneg; assumption.
Qed.

Lemma nonneg_lift (m : matrix) :
  Forall (Forall nonneg) m ->
  exists rows, m = lift rows /\ length rows = length m
               /\ Forall (Forall (fun r => 0 <= r)) rows.
Proof.
  intros H. exists (map (map val) m). split; [|split].
  - apply finite_mat_lift. eapply Forall_impl; [|exact H]. intros row Hrow.
    eapply Forall_impl; [|exact Hrow]. intros a [Ha _]. exact Ha.
  - apply length_map.
  - apply Forall_map. eapply Forall_impl; [|exact H]. intros row Hrow.
    apply Forall_map. eapply Forall_impl; [|exact Hrow]. intros a [_ Ha]. exact Ha.
Qed.

(** The first stage of [FullModel.forward]: the embeddings after dropout
    are [b] rows of [d] real numbers that are not negative, and their graph
    is complete. *)
Lemma embedding_stage (interpolate : nat * nat -> tensor4 -> tensor4) (m : FullModel)
    (g : rng) (x_img fused : tensor4) (b c d : nat) :
  fused_features interpolate (cnn m) x_img = Ok fused ->
  maps_ok b c fused ->
  cnn_ok c d (cnn m) ->
  bn_accepts (fuse_bn (cnn m)) b ->
  exists embeddings cnn',
    MultiScaleFeatureExtractor_forward interpolate (cnn m) x_img = Ok (embeddings, cnn')
    /\ let features := dropout_mat (3 / 10) (dropout_training m) (sub_rng g 0) embeddings in
       let adj_matrix := build_adjacency features in
       has_shape b d features
       /\ Forall (Forall nonneg) features
       /\ has_shape b b adj_matrix
       /\ Forall (Forall upper_half) adj_matrix
       /\ mask adj_matrix = repeat (repeat true b) b
       /\ nonzero adj_matrix = complete_graph b.
Proof.
  intros Hfused Hmaps Hcnn Hacc.
  destruct (extractor_forward_ok interpolate (cnn m) x_img fused b c d Hfused Hmaps Hcnn Hacc)
    as (y & bn' & _ & Hfw & _ & _ & Hs & Hn & _).
  exists (map normalize_row y), (with_fuse_bn (cnn m) bn'). split; [exact Hfw|].
  cbv zeta.
  assert (Hf : finite_mat (map normalize_row y)).
  { eapply Forall_impl; [|exact Hn]. intros row Hrow.
    eapply Forall_impl; [|exact Hrow]. intros a [Ha _]. exact Ha. }
  destruct (dropout_mat_ok (3 / 10) (dropout_training m) (sub_rng g 0) b d _ Hs Hf)
    as [Fs _].
  assert (Fn : Forall (Forall nonneg)
                 (dropout_mat (3 / 10) (dropout_training m) (sub_rng g 0)
                    (map normalize_row y)))
    by (apply dropout_mat_nonneg; [lra|exact Hn]).
  set (features := dropout_mat (3 / 10) (dropout_training m) (sub_rng g 0)
                     (map normalize_row y)) in *.
  destruct (nonneg_lift features Fn) as (rows & E & Hl & Hrows).
  assert (Hb : length rows = b) by (rewrite Hl; apply Fs).
  destruct (adjacency_complete rows Hrows) as (Hu & Hm & Hz). rewrite Hb in Hm, Hz.
  split; [exact Fs|]. split; [exact Fn|]. rewrite E.
  split; [|split; [exact Hu|split; [exact Hm|exact Hz]]].
  rewrite <- Hb, <- (lift_length rows). apply build_adjacency_shape.
Qed.

(** [forward] on a batch the layers accept: the class scores are a
    [b x k] matrix of numbers in [0, 1], and, the graph being complete, a
    classifier with a graph convolution gives every image the same row. *)
Lemma FullModel_forward_ok (interpolate : nat * nat -> tensor4 -> tensor4) (m : FullModel)
    (g : rng) (x_img fused : tensor4) (b c d dn k : nat) :
  fused_features interpolate (cnn m) x_img = Ok fused ->
  maps_ok b c fused ->
  full_ok c d dn k m ->
  bn_accepts (fuse_bn (cnn m)) b ->
  gcn_accepts (gcn_layers (gcn m)) b ->
  exists out m',
    FullModel_forward interpolate m g x_img = Ok (out, m')
    /\ has_shape b k out
    /\ Forall (Forall unit_interval) out
    /\ (Exists is_conv (gcn_layers (gcn m)) -> exists row, out = repeat row b).
Proof.
  intros Hfused Hmaps [Hcnn Hgat Hln Hgcn] Hacc Hgacc.
  destruct (embedding_stage interpolate m g x_img fused b c d Hfused Hmaps Hcnn Hacc)
    as (embeddings & cnn' & Hfw & Hstage).
  cbv zeta in Hstage. destruct Hstage as (Fs & Fn & As & Au & _ & Hz).
  unfold FullModel_forward. rewrite Hfw. cbn [bind].
  set (features := dropout_mat (3 / 10) (dropout_training m) (sub_rng g 0) embeddings) in *.
  assert (Fl : length features = b) by apply Fs.
  assert (Ff : finite_mat features).
  { eapply Forall_impl; [|exact Fn]. intros row Hrow.
    eapply Forall_impl; [|exact Hrow]. intros a [Ha _]. exact Ha. }
  pose proof (finite_mat_lift features Ff) as Elift.
  assert (Hadj : finite_mat (build_adjacency features)
                 /\ Forall (Exists positive) (build_adjacency features)).
  { rewrite Elift. split; [apply build_adjacency_finite|apply build_adjacency_positive]. }
  destruct Hadj as (Af & Ap).
  rewrite <- Fl in Fs, As.
  destruct (run_gat_layers_ok (layers (gat m)) 0 (sub_rng g 1) d dn features
              (build_adjacency features) Hgat Fs Ff As Af Ap) as (go & Hgo & Gs & Gf).
  unfold StackedGAT_forward. rewrite Hgo. cbn [bind].
  destruct (LayerNorm_forward_ok (gat_norm m) dn (length features) go Hln Gs Gf) as [Ns Nf].
  assert (Hleaky : has_shape (length features) dn
                     (map (map (leaky_relu (2 / 10))) (LayerNorm_forward (gat_norm m) go))
                   /\ finite_mat
                     (map (map (leaky_relu (2 / 10))) (LayerNorm_forward (gat_norm m) go))).
  { destruct Ns as [Nl Nr]. split; [split|].
    - rewrite length_map. exact Nl.
    - apply Forall_map. eapply Forall_impl; [|exact Nr]. intros row Hrow.
      rewrite length_map. exact Hrow.
    - apply Forall_map. eapply Forall_impl; [|exact Nf]. intros row Hrow.
      apply Forall_map. eapply Forall_impl; [|exact Hrow]. intros a Ha.
      apply leaky_relu_finite. exact Ha. }
  destruct Hleaky as [Ls Lf].
  destruct (dropout_mat_ok (3 / 10) (dropout_training m) (sub_rng g 2) _ _ _ Ls Lf)
    as [Ds Df].
  rewrite Fl in Ds, As.
  destruct (GCNClassifier_forward_ok (gcn m) dn k b _ (nonzero (build_adjacency features))
              Hgcn Hgacc Ds Df (nonzero_in_range b _ As)) as (out & gcn' & Hout & Os & Or).
  rewrite Hout. cbn [bind]. exists out. eexists. split; [reflexivity|].
  split; [exact Os|]. split; [exact Or|]. intros Hconv.
  rewrite Hz in Hout. destruct Ds as [Dl _].
  set (gat_out := dropout_mat (3 / 10) (dropout_training m) (sub_rng g 2)
                    (map (map (leaky_relu (2 / 10))) (LayerNorm_forward (gat_norm m) go)))
    in *.
  clearbody gat_out. rewrite <- Dl in Hout. rewrite <- Dl.
  destruct (GCNClassifier_forward_complete _ _ _ _ Hout Hconv) as (_ & row & Hrow).
  exists row. exact Hrow.
Qed.

(** X14.  In [FullModel.forward] the graph of a batch is always complete.
    The embeddings are not negative (a ReLU, a division by a positive norm,
    and dropout), so every cosine similarity is at least 0 and every entry
    of the adjacency matrix [(sim + 1) / 2] lies between 1/2 and 1: the mask
    [adj_matrix > 0] of the attention layers hides no pair, and
    [adj_matrix.nonzero()] lists all [b * b] index pairs, self-loops
    included. *)
Theorem graph_of_a_batch_is_complete
    (interpolate : nat * nat -> tensor4 -> tensor4) (m : FullModel) (g : rng)
    (x_img fused : tensor4) (b c d : nat) :
  fused_features interpolate (cnn m) x_img = Ok fused ->
  maps_ok b c fused ->
  cnn_ok c d (cnn m) ->
  bn_accepts (fuse_bn (cnn m)) b ->
  exists embeddings cnn',
    MultiScaleFeatureExtractor_forward interpolate (cnn m) x_img = Ok (embeddings, cnn')
    /\ let features := dropout_mat (3 / 10) (dropout_training m) (sub_rng g 0) embeddings in
       let adj_matrix := build_adjacency features in
       has_shape b b adj_matrix
       /\ Forall (Forall upper_half) adj_matrix
       /\ mask adj_matrix = repeat (repeat true b) b
       /\ nonzero adj_matrix = complete_graph b.
Proof.
  intros Hfused Hmaps Hcnn Hacc.
  destruct (embedding_stage interpolate m g x_img fused b c d Hfused Hmaps Hcnn Hacc)
    as (embeddings & cnn' & Hfw & Hstage).
  exists embeddings, cnn'. split; [exact Hfw|]. cbv zeta in *. apply Hstage.
Qed.

(** ** The constructor of the full model *)

Lemma extractor_init_cases models ini cnn_feat_dim :
  match MultiScaleFeatureExtractor_init models ini "resnet50"%string cnn_feat_dim
          ["layer3"%string; "layer4"%string] with
  | Ok extractor =>
      exists net, assoc "resnet50"%string models = Ok net
        /\ extractor
           = {| cnn_type := "resnet50"%string;
                output_dims := cnn_feat_dim;
                layers_to_extract := ["layer3"%string; "layer4"%string];
                backbone_training := true;
                initial_layers := stem net;
                feature_layers := [("layer1"%string, layer1 net); ("layer2"%string, layer2 net);
                                   ("layer3"%string, layer3 net); ("layer4"%string, layer4 net)];
                fuse_linear := Linear_init ini 3072 cnn_feat_dim;
                fuse_bn := BatchNorm1d_init cnn_feat_dim |}
  | Raise e => e = KeyError /\ assoc "resnet50"%string models = Raise KeyError
  end.
Proof.
  unfold MultiScaleFeatureExtractor_init.
  destruct (assoc "resnet50"%string models) as [net|e] eqn:E; cbn [bind].
  - exists net. split; reflexivity.
  - rewrite (assoc_error _ _ _ E). split; reflexivity.
Qed.

(** Every outcome of [FullModel.__init__]. *)
Lemma FullModel_init_cases ini cnn_feat_dim gat_dims num_classes hd p :
  match FullModel_init ini cnn_feat_dim gat_dims num_classes hd p with
  | Ok m =>
      exists k,
        class_count ini num_classes = Some k
        /\ gat_dims <> [] /\ hd <> O
        /\ Forall (fun h => h mod hd = 0)%nat gat_dims /\ 0 <= p <= 1
        /\ MultiScaleFeatureExtractor_init (models_table ini) (init_fuse ini)
             "resnet50"%string cnn_feat_dim ["layer3"%string; "layer4"%string] = Ok (cnn m)
        /\ StackedGAT_init (init_gat ini) cnn_feat_dim gat_dims hd p 1 true = Ok (gat m)
        /\ gcn m = GCNClassifier_init (init_gcn ini) (last gat_dims O) k [256%nat]
        /\ dropout_training m = true
        /\ gat_norm m = LayerNorm_init (last gat_dims O)
  | Raise e =>
      (e = FileNotFoundError /\ class_count ini num_classes = None)
      \/ (class_count ini num_classes <> None
          /\ ((e = KeyError /\ assoc "resnet50"%string (models_table ini) = Raise KeyError)
              \/ (assoc "resnet50"%string (models_table ini) <> Raise KeyError
                  /\ ((e = IndexError /\ gat_dims = [])
                      \/ (gat_dims <> []
                          /\ StackedGAT_init (init_gat ini) cnn_feat_dim gat_dims hd p 1 true
                             = Raise e)))))
  end.
Proof.
  unfold FullModel_init.
  assert (Hk : match num_classes with
               | Some n => Ok n
               | None => match train_labels_columns ini with
                         | Some columns => Ok (columns - 1)%nat
                         | None => Raise FileNotFoundError
                         end
               end
               = match class_count ini num_classes with
                 | Some k => Ok k
                 | None => Raise FileNotFoundError
                 end).
  { unfold class_count. destruct num_classes; [reflexivity|].
    destruct (train_labels_columns ini); reflexivity. }
  rewrite Hk. clear Hk.
  destruct (class_count ini num_classes) as [k|]; cbn [bind];
    [|left; split; reflexivity].
  pose proof (extractor_init_cases (models_table ini) (init_fuse ini) cnn_feat_dim) as He.
  destruct (MultiScaleFeatureExtractor_init (models_table ini) (init_fuse ini)
              "resnet50"%string cnn_feat_dim ["layer3"%string; "layer4"%string])
    as [extractor|e]; cbn [bind].
  - destruct He as (net & Hnet & _).
    pose proof (StackedGAT_init_cases (init_gat ini) cnn_feat_dim gat_dims hd p 1 true) as Hs.
    destruct (StackedGAT_init (init_gat ini) cnn_feat_dim gat_dims hd p 1 true) as [s|e];
      cbn [bind].
    + destruct gat_dims as [|h dims].
      * cbn. right. split; [discriminate|]. right. split; [rewrite Hnet; discriminate|].
        left. split; reflexivity.
      * cbn [last_item bind]. exists k. destruct Hs as ([C|(Hh & Hd & Hp)] & _);
          [discriminate|].
        cbn [cnn gat gcn dropout_training gat_norm].
        repeat (split; [first [reflexivity|assumption|discriminate]|]). reflexivity.
    + right. split; [discriminate|]. right. split; [rewrite Hnet; discriminate|].
      right. destruct Hs as [Hne _]. split; [exact Hne|reflexivity].
  - destruct He as [-> He]. right. split; [discriminate|]. left. split; [reflexivity|exact He].
Qed.

(** A constructed model is well formed, in training mode, and its
    classifier holds a convolution. *)
Lemma FullModel_init_full_ok ini cnn_feat_dim gat_dims num_classes hd p m :
  FullModel_init ini cnn_feat_dim gat_dims num_classes hd p = Ok m ->
  exists k,
    class_count ini num_classes = Some k
    /\ full_ok 3072 cnn_feat_dim (last gat_dims O) k m
    /\ Exists is_conv (gcn_layers (gcn m))
    /\ bn_training (fuse_bn (cnn m)) = true.
Proof.
  intros H. pose proof (FullModel_init_cases ini cnn_feat_dim gat_dims num_classes hd p) as C.
  rewrite H in C. destruct C as (k & Hk & Hne & Hh & Hd & Hp & Hc & Hs & Hg & _ & Hn).
  exists k. split; [exact Hk|].
  pose proof (extractor_init_cases (models_table ini) (init_fuse ini) cnn_feat_dim) as He.
  rewrite Hc in He. destruct He as (net & _ & He).
  split; [constructor|split].
  - rewrite He. constructor; cbn; [apply Linear_init_ok|apply BatchNorm1d_init_ok].
  - apply (StackedGAT_init_stack_ok (init_gat ini) cnn_feat_dim gat_dims hd p) in Hs.
    rewrite (last_default gat_dims O cnn_feat_dim Hne). exact Hs.
  - rewrite Hn. apply LayerNorm_init_ok.
  - rewrite Hg. apply GCNClassifier_init_ok.
  - rewrite Hg. unfold GCNClassifier_init. cbn. apply Exists_cons_hd. exact I.
  - rewrite He. reflexivity.
Qed.

(** The sample model: [FullModel(num_classes=20)] with its default widths
    over the stand-in backbone. *)
Lemma sample_model :
  exists m,
    FullModel_init sample_full_init 2048 [1020; 504; 252]%nat (Some 20%nat) 12 (3 / 10) = Ok m
    /\ full_ok 3072 2048 252 20 m
    /\ Exists is_conv (gcn_layers (gcn m))
    /\ bn_training (fuse_bn (cnn m)) = true
    /\ (forall x, fused_features no_interpolation (cnn m) x
                  = fused_features no_interpolation
                      {| cnn_type := "resnet50"%string;
                         output_dims := 2048;
                         layers_to_extract := ["layer3"%string; "layer4"%string];
                         backbone_training := true;
                         initial_layers := stem sample_backbone;
                         feature_layers := [("layer1"%string, layer1 sample_backbone);
                                            ("layer2"%string, layer2 sample_backbone);
                                            ("layer3"%string, layer3 sample_backbone);
                                            ("layer4"%string, layer4 sample_backbone)];
                         fuse_linear := Linear_init sample_linear_init 3072 2048;
                         fuse_bn := BatchNorm1d_init 2048 |} x)
    /\ (forall x, fused_features no_interpolation (cnn (FullModel_eval m)) x
                  = fused_features no_interpolation (cnn m) x).
Proof.
  destruct (FullModel_init_ok sample_full_init _ 2048 [1020; 504; 252]%nat 20 12 (3 / 10)
              sample_full_extractor) as (m & Hm & Hcnn & _);
    [discriminate|discriminate|repeat constructor|lra|].
  exists m. split; [exact Hm|].
  destruct (FullModel_init_full_ok _ _ _ _ _ _ _ Hm) as (k & Hk & Hok & Hconv & Ht).
  cbn in Hk. injection Hk as <-.
  split; [exact Hok|]. split; [exact Hconv|]. split; [exact Ht|]. split.
  - intros x. rewrite Hcnn. reflexivity.
  - intros x. change (cnn (FullModel_eval m)) with (eval_cnn (cnn m)). rewrite Hcnn.
    reflexivity.
Qed.

(** The maps the stand-in backbone gives one image. *)
Lemma sample_single_maps_ok :
  maps_ok 1 3072 [repeat [[Fin 1]] 1024 ++ repeat [[Fin 1]] 2048 ++ []].
Proof.
  split; [reflexivity|]. constructor; [|constructor]. split.
  - rewrite !length_app, !repeat_length. reflexivity.
  - apply Forall_app. split; [|apply Forall_app; split; [|constructor]];
      apply Forall_forall; intros ch Hin; apply repeat_spec in Hin; subst ch;
        (split; [discriminate|repeat constructor]).
Qed.

(** Witness for [graph_of_a_batch_is_complete]: the sample model on four
    images. *)
Lemma graph_of_a_batch_is_complete_witness :
  exists m,
    FullModel_init sample_full_init 2048 [1020; 504; 252]%nat (Some 20%nat) 12 (3 / 10) = Ok m
    /\ exists embeddings cnn',
         MultiScaleFeatureExtractor_forward no_interpolation (cnn m) sample_batch
         = Ok (embeddings, cnn')
         /\ let features :=
              dropout_mat (3 / 10) (dropout_training m) (sub_rng keep_all 0) embeddings in
            let adj_matrix := build_adjacency features in
            has_shape 4 4 adj_matrix
            /\ Forall (Forall upper_half) adj_matrix
            /\ mask adj_matrix = repeat (repeat true 4) 4
            /\ nonzero adj_matrix = complete_graph 4.
Proof.
  destruct sample_model as (m & Hm & Hok & _ & _ & Hf & _).
  exists m. split; [exact Hm|].
  apply (graph_of_a_batch_is_complete no_interpolation m keep_all sample_batch
           sample_fused_maps 4 3072 2048).
  - rewrite Hf. reflexivity.
  - exact sample_fused_maps_ok.
  - apply Hok.
  - intros _. discriminate.
Defined.

(** X15.  The outcomes of [FullModel.__init__] for positive attention
    widths, in the order the constructor meets them: [FileNotFoundError]
    when no class count is given and the label file is missing; [KeyError]
    when the vision library has no [resnet50]; the errors of
    [StackedGAT.__init__] for a non-empty [gat_dims]; [IndexError] for an
    empty [gat_dims].  Otherwise the model is built from the extractor over
    [layer3] and [layer4], the stack over [gat_dims], a classifier with the
    hidden width 256 from the last attention width to the class count (the
    argument, or the label file's columns less one) and a layer
    normalisation of the last attention width, with dropout in training
    mode. *)
Theorem full_model_construction_outcome (ini : full_init) (cnn_feat_dim : nat)
    (gat_dims : list nat) (num_classes : option nat) (hd : nat) (p : R) :
  Forall (fun h => h <> O) gat_dims ->
  match FullModel_init ini cnn_feat_dim gat_dims num_classes hd p with
  | Ok m =>
      exists k,
        class_count ini num_classes = Some k
        /\ gat_dims <> [] /\ hd <> O
        /\ Forall (fun h => h mod hd = 0)%nat gat_dims /\ 0 <= p <= 1
        /\ MultiScaleFeatureExtractor_init (models_table ini) (init_fuse ini)
             "resnet50"%string cnn_feat_dim ["layer3"%string; "layer4"%string] = Ok (cnn m)
        /\ StackedGAT_init (init_gat ini) cnn_feat_dim gat_dims hd p 1 true = Ok (gat m)
        /\ gcn m = GCNClassifier_init (init_gcn ini) (last gat_dims O) k [256%nat]
        /\ dropout_training m = true
        /\ gat_norm m = LayerNorm_init (last gat_dims O)
  | Raise e =>
      (e = FileNotFoundError /\ class_count ini num_classes = None)
      \/ (class_count ini num_classes <> None
          /\ ((e = KeyError /\ assoc "resnet50"%string (models_table ini) = Raise KeyError)
              \/ (assoc "resnet50"%string (models_table ini) <> Raise KeyError
                  /\ ((e = IndexError /\ gat_dims = [])
                      \/ (gat_dims <> []
                          /\ StackedGAT_init (init_gat ini) cnn_feat_dim gat_dims hd p 1 true
                             = Raise e)))))
  end.
Proof. intros _. apply FullModel_init_cases. Qed.

(** Witness for [full_model_construction_outcome]: [FullModel(num_classes=20)]
    with its default widths over the stand-in backbone. *)
Lemma full_model_construction_outcome_witness :
  match FullModel_init sample_full_init 2048 [1020; 504; 252]%nat (Some 20%nat) 12 (3 / 10) with
  | Ok m =>
      exists k,
        class_count sample_full_init (Some 20%nat) = Some k
        /\ [1020; 504; 252]%nat <> [] /\ 12%nat <> O
        /\ Forall (fun h => h mod 12 = 0)%nat [1020; 504; 252]%nat /\ 0 <= 3 / 10 <= 1
        /\ MultiScaleFeatureExtractor_init (models_table sample_full_init)
             (init_fuse sample_full_init) "resnet50"%string 2048
             ["layer3"%string; "layer4"%string] = Ok (cnn m)
        /\ StackedGAT_init (init_gat sample_full_init) 2048 [1020; 504; 252]%nat 12 (3 / 10)
             1 true = Ok (gat m)
        /\ gcn m = GCNClassifier_init (init_gcn sample_full_init)
                     (last [1020; 504; 252]%nat O) k [256%nat]
        /\ dropout_training m = true
        /\ gat_norm m = LayerNorm_init (last [1020; 504; 252]%nat O)
  | Raise e =>
      (e = FileNotFoundError /\ class_count sample_full_init (Some 20%nat) = None)
      \/ (class_count sample_full_init (Some 20%nat) <> None
          /\ ((e = KeyError
               /\ assoc "resnet50"%string (models_table sample_full_init) = Raise KeyError)
              \/ (assoc "resnet50"%string (models_table sample_full_init) <> Raise KeyError
                  /\ ((e = IndexError /\ [1020; 504; 252]%nat = [])
                      \/ ([1020; 504; 252]%nat <> []
                          /\ StackedGAT_init (init_gat sample_full_init) 2048
                               [1020; 504; 252]%nat 12 (3 / 10) 1 true
                             = Raise e)))))
  end.
Proof.
  apply (full_model_construction_outcome sample_full_init 2048 [1020; 504; 252]%nat
           (Some 20%nat) 12 (3 / 10)).
  repeat constructor; discriminate.
Defined.

(** ** The full model on a batch *)

(** X16.  A model whose extractor is in training mode (as a freshly
    constructed one is) refuses a batch of one image: the fused map reaches
    the batch normalisation of the extractor as a single row, and [forward]
    raises [ValueError]. *)
Theorem training_forward_refuses_a_single_image
    (interpolate : nat * nat -> tensor4 -> tensor4) (m : FullModel) (g : rng)
    (x_img fused : tensor4) (c d : nat) :
  fused_features interpolate (cnn m) x_img = Ok fused ->
  maps_ok 1 c fused ->
  cnn_ok c d (cnn m) ->
  bn_training (fuse_bn (cnn m)) = true ->
  FullModel_forward interpolate m g x_img = Raise ValueError.
Proof.
  intros Hfused [Hlen _] _ Ht. unfold FullModel_forward, MultiScaleFeatureExtractor_forward.
  rewrite Hfused. cbn [bind]. unfold fuse, BatchNorm1d_forward. rewrite Ht.
  unfold linear, avg_pool_flatten. rewrite !length_map, Hlen. reflexivity.
Qed.

(** Witness for [training_forward_refuses_a_single_image]: the sample
    model, freshly constructed, on one image. *)
Lemma training_forward_refuses_a_single_image_witness :
  exists m,
    FullModel_init sample_full_init 2048 [1020; 504; 252]%nat (Some 20%nat) 12 (3 / 10) = Ok m
    /\ FullModel_forward no_interpolation m keep_all [sample_image] = Raise ValueError.
Proof.
  destruct sample_model as (m & Hm & Hok & _ & Ht & Hf & _).
  exists m. split; [exact Hm|].
  apply (training_forward_refuses_a_single_image no_interpolation m keep_all [sample_image]
           [repeat [[Fin 1]] 1024 ++ repeat [[Fin 1]] 2048 ++ []] 3072 2048).
  - rewrite Hf. reflexivity.
  - exact sample_single_maps_ok.
  - apply Hok.
  - exact Ht.
Defined.

(** X17.  [FullModel.forward] gives every image of a batch the same row of
    class scores.  The graph of the batch is complete, so each graph
    convolution of the classifier hands every node the same normalised sum
    over all the nodes, and the layers after it act row by row.  (In the
    exact arithmetic of this development; the engine's rounding can at most
    separate the rows by the order of its summation.) *)
Theorem full_model_scores_every_image_alike
    (interpolate : nat * nat -> tensor4 -> tensor4) (m : FullModel) (g : rng)
    (x_img fused : tensor4) (b c d dn k : nat) :
  fused_features interpolate (cnn m) x_img = Ok fused ->
  maps_ok b c fused ->
  full_ok c d dn k m ->
  bn_accepts (fuse_bn (cnn m)) b ->
  gcn_accepts (gcn_layers (gcn m)) b ->
  Exists is_conv (gcn_layers (gcn m)) ->
  exists out m',
    FullModel_forward interpolate m g x_img = Ok (out, m')
    /\ has_shape b k out
    /\ forall i j, (i < b)%nat -> (j < b)%nat -> nth i out [] = nth j out [].
Proof.
  intros Hfused Hmaps Hok Hacc Hgacc Hconv.
  destruct (FullModel_forward_ok interpolate m g x_img fused b c d dn k
              Hfused Hmaps Hok Hacc Hgacc) as (out & m' & Hout & Hs & _ & Hrows).
  exists out, m'. split; [exact Hout|]. split; [exact Hs|].
  destruct (Hrows Hconv) as (row & ->). intros i j Hi Hj.
  rewrite !nth_repeat_lt by assumption. reflexivity.
Qed.

(** Witness for [full_model_scores_every_image_alike]: the sample model on
    four images. *)
Lemma full_model_scores_every_image_alike_witness :
  exists m,
    FullModel_init sample_full_init 2048 [1020; 504; 252]%nat (Some 20%nat) 12 (3 / 10) = Ok m
    /\ exists out m',
         FullModel_forward no_interpolation m keep_all sample_batch = Ok (out, m')
         /\ has_shape 4 20 out
         /\ forall i j, (i < 4)%nat -> (j < 4)%nat -> nth i out [] = nth j out [].
Proof.
  destruct sample_model as (m & Hm & Hok & Hconv & _ & Hf & _).
  exists m. split; [exact Hm|].
  apply (full_model_scores_every_image_alike no_interpolation m keep_all sample_batch
           sample_fused_maps 4 3072 2048 252 20).
  - rewrite Hf. reflexivity.
  - exact sample_fused_maps_ok.
  - exact Hok.
  - intros _. discriminate.
  - apply gcn_accepts_batch. discriminate.
  - exact Hconv.
Defined.

(** X18.  In evaluation mode [FullModel.forward] is a function of the
    images alone: the dropout draws do not change its result, and the model
    it leaves is the model it was given (no running statistic moves). *)
Theorem evaluation_forward_is_pure (interpolate : nat * nat -> tensor4 -> tensor4)
    (m : FullModel) (g g' : rng) (x_img : tensor4) :
  in_eval_mode m ->
  FullModel_forward interpolate m g x_img = FullModel_forward interpolate m g' x_img
  /\ forall out m', FullModel_forward interpolate m g x_img = Ok (out, m') -> m' = m.
Proof.
  intros Hev. destruct (FullModel_forward_eval interpolate m g g' x_img Hev) as [Heq Hst].
  split; [exact Heq|]. intros out m' H. rewrite H in Hst. exact Hst.
Qed.

(** Witness for [evaluation_forward_is_pure]: the sample model after
    [eval()], with all elements kept and with all elements dropped. *)
Lemma evaluation_forward_is_pure_witness :
  exists m,
    FullModel_init sample_full_init 2048 [1020; 504; 252]%nat (Some 20%nat) 12 (3 / 10) = Ok m
    /\ FullModel_forward no_interpolation (FullModel_eval m) keep_all sample_batch
       = FullModel_forward no_interpolation (FullModel_eval m) (fun _ => false) sample_batch
    /\ forall out m',
         FullModel_forward no_interpolation (FullModel_eval m) keep_all sample_batch
         = Ok (out, m') -> m' = FullModel_eval m.
Proof.
  destruct sample_model as (m & Hm & _).
  exists m. split; [exact Hm|].
  apply (evaluation_forward_is_pure no_interpolation (FullModel_eval m) keep_all
           (fun _ => false) sample_batch).
  apply FullModel_eval_in_eval_mode.
Defined.

(** ** The wrapper on one image *)

Lemma eval_gat_ok i o l : gat_ok i o l -> gat_ok i o (eval_gat l).
Proof. intros [H1 H2 H3 H4 H5 H6 H7]. constructor; assumption. Qed.

Lemma eval_stack_ok ls : forall i o, stack_ok i ls o -> stack_ok i (map eval_gat ls) o.
Proof.
  induction ls as [|l ls IH]; intros i o H; [exact H|].
  destruct H as (mid & Hl & Ha & Hrest). exists mid.
  split; [apply eval_gat_ok; exact Hl|]. split; [exact Ha|]. apply IH. exact Hrest.
Qed.

Lemma eval_bn_ok n bn : bn_ok n bn -> bn_ok n (eval_bn bn).
Proof. intros [H1 H2 H3 H4]. constructor; assumption. Qed.

Lemma eval_gcn_ok ls : forall i o, gcn_ok i ls o -> gcn_ok i (map eval_gcn_layer ls) o.
Proof.
  induction ls as [|[conv| |bn] ls IH]; intros i o H; cbn [map eval_gcn_layer gcn_ok] in *.
  - exact H.
  - destruct H as (mid & Hc & Hrest). exists mid. split; [exact Hc|]. apply IH. exact Hrest.
  - apply IH. exact H.
  - destruct H as [Hb Hrest]. split; [apply eval_bn_ok; exact Hb|]. apply IH. exact Hrest.
Qed.

(** [eval()] keeps a model well formed. *)
Lemma FullModel_eval_ok c d dn k m : full_ok c d dn k m -> full_ok c d dn k (FullModel_eval m).
Proof.
  intros [[Hl Hb] Hgat Hln Hgcn]. constructor; cbn.
  - constructor; cbn; [exact Hl|apply eval_bn_ok; exact Hb].
  - apply eval_stack_ok. exact Hgat.
  - exact Hln.
  - apply eval_gcn_ok. exact Hgcn.
Qed.

(** In evaluation mode the batch normalisations accept every batch. *)
Lemma eval_mode_accepts m b :
  in_eval_mode m -> bn_accepts (fuse_bn (cnn m)) b /\ gcn_accepts (gcn_layers (gcn m)) b.
Proof.
  intros (_ & Hbn & _ & Hgcn & _). split.
  - intros Ht. congruence.
  - eapply Forall_impl; [|exact Hgcn]. intros [conv| |bn] H; try exact I.
    intros Ht. congruence.
Qed.

Section PipelineFacts.

Variable interpolate : nat * nat -> tensor4 -> tensor4.
Variable image : Type.
Variable open_image : String.string -> option image.
Variable preprocess : image -> list (list (list fp)).

(** X19.  On the path of an existing image, for which the backbone yields
    non-empty real feature maps, the wrapper around a well-formed model with
    [k] classes returns a vector of [k] numbers in [0, 1] that does not
    require gradients, also when the model was in training mode before the
    call: the single image that training mode refuses is accepted after
    [self.model.eval()]. *)
Theorem pipeline_returns_probabilities (s : pipeline_state) (g : rng)
    (image_path : String.string) (img : image) (fused : tensor4) (c d dn k : nat) :
  open_image image_path = Some img ->
  fused_features interpolate (cnn (FullModel_eval (model s))) [preprocess img] = Ok fused ->
  maps_ok 1 c fused ->
  full_ok c d dn k (model s) ->
  exists out,
    fst (ImageGraphPipeline_forward interpolate image open_image preprocess s g image_path)
    = Ok out
    /\ length (values out) = k
    /\ Forall unit_interval (values out)
    /\ requires_grad out = false.
Proof.
  intros Himg Hfused Hmaps Hok.
  pose proof (FullModel_eval_in_eval_mode (model s)) as Hev.
  destruct (eval_mode_accepts _ 1 Hev) as [Hacc Hgacc].
  destruct (FullModel_forward_ok interpolate (FullModel_eval (model s)) g [preprocess img]
              fused 1 c d dn k Hfused Hmaps (FullModel_eval_ok _ _ _ _ _ Hok) Hacc Hgacc)
    as (out & m' & Hout & [Hl Hr] & Hu & _).
  unfold ImageGraphPipeline_forward. cbv zeta. rewrite Himg, Hout.
  destruct out as [|row [|row' out]]; try discriminate.
  eexists. cbn [fst]. split; [reflexivity|]. cbn [values requires_grad].
  inversion Hr; subst. inversion Hu; subst. repeat split; assumption.
Qed.

End PipelineFacts.

(** Witness for [pipeline_returns_probabilities]: the sample model, in
    training mode, behind the wrapper. *)
Lemma pipeline_returns_probabilities_witness :
  exists m,
    FullModel_init sample_full_init 2048 [1020; 504; 252]%nat (Some 20%nat) 12 (3 / 10) = Ok m
    /\ exists out,
         fst (ImageGraphPipeline_forward no_interpolation unit (fun _ => Some tt)
                (fun _ => sample_image) {| model := m; grad_enabled := true |} keep_all
                "images/image02.jpg")
         = Ok out
         /\ length (values out) = 20%nat
         /\ Forall unit_interval (values out)
         /\ requires_grad out = false.
Proof.
  destruct sample_model as (m & Hm & Hok & _ & _ & Hf & He).
  exists m. split; [exact Hm|].
  apply (pipeline_returns_probabilities no_interpolation unit (fun _ => Some tt)
           (fun _ => sample_image) {| model := m; grad_enabled := true |} keep_all
           "images/image02.jpg" tt
           [repeat [[Fin 1]] 1024 ++ repeat [[Fin 1]] 2048 ++ []] 3072 2048 252 20).
  - reflexivity.
  - cbn [model]. rewrite He, Hf. reflexivity.
  - exact sample_single_maps_ok.
  - exact Hok.
Defined.

(** ** The focal loss on real logits *)

Lemma ln_sigmoid_neg x : ln (1 / (1 + exp (- x))) < 0 /\ ln (1 - 1 / (1 + exp (- x))) < 0.
Proof.
  pose proof (sigmoid_range x) as [H0 H1]. rewrite <- ln_1. split.
  - apply ln_increasing; assumption.
  - apply ln_increasing; lra.
Qed.

Lemma bce_with_logits_nonneg x t :
  0 <= t <= 1 -> exists b, bce_with_logits (Fin x) (Fin t) = Fin b /\ 0 <= b.
Proof.
  intros Ht. rewrite bce_with_logits_real. eexists. split; [reflexivity|].
  destruct (ln_sigmoid_neg x) as [L1 L2].
  assert (A : t * ln (1 / (1 + exp (- x))) <= 0).
  { replace 0 with (t * 0) by ring. apply Rmult_le_compat_l; lra. }
  assert (B : (1 - t) * ln (1 - 1 / (1 + exp (- x))) <= 0).
  { replace 0 with ((1 - t) * 0) by ring. apply Rmult_le_compat_l; lra. }
  lra.
Qed.

Section FocalFacts.

Variable torch_pow : fp -> R -> fp.
Variable self : FocalLoss.

(** The focal weighting of a real cross-entropy value [b]. *)
Lemma focal_term_real b :
  focal_term torch_pow self (Fin b)
  = fmul (fmul (Fin (focal_alpha self))
               (torch_pow (Fin (1 - exp (- b))) (focal_gamma self)))
         (Fin b).
Proof. reflexivity. Qed.

Lemma focal_term_nonneg b :
  (forall base, 0 <= base < 1 -> nonneg (torch_pow (Fin base) (focal_gamma self))) ->
  0 <= focal_alpha self -> 0 <= b ->
  nonneg (focal_term torch_pow self (Fin b)).
Proof.
  intros Hpow Ha Hb. rewrite focal_term_real.
  assert (Hbase : 0 <= 1 - exp (- b) < 1).
  { pose proof (exp_pos (- b)). split; [|lra].
    destruct Hb as [Hb|<-]; [|rewrite Ropp_0, exp_0; lra].
    assert (exp (- b) < exp 0) by (apply exp_increasing; lra). rewrite exp_0 in *. lra. }
  destruct (Hpow _ Hbase) as [Hf Hv].
  destruct (torch_pow (Fin (1 - exp (- b))) (focal_gamma self)) as [r| | |];
    simpl in Hf; try contradiction. simpl in Hv.
  split; [exact I|]. simpl. apply Rmult_le_pos; [apply Rmult_le_pos|]; assumption.
Qed.

Lemma focal_terms_nonneg (xs ts : list (list R)) :
  (forall base, 0 <= base < 1 -> nonneg (torch_pow (Fin base) (focal_gamma self))) ->
  0 <= focal_alpha self ->
  Forall (Forall (fun t => 0 <= t <= 1)) ts ->
  Forall nonneg
    (concat (map (map (focal_term torch_pow self))
                 (zip_with (zip_with bce_with_logits) (lift xs) (lift ts)))).
Proof.
  intros Hpow Ha Hts. apply Forall_concat. apply Forall_map.
  revert xs. induction Hts as [|v ts Hv Hts IH]; intros [|u xs]; cbn; try constructor.
  - apply Forall_map. clear - Hpow Ha Hv. revert u.
    induction Hv as [|t v Ht Hv IHv]; intros [|x u]; cbn; constructor.
    + destruct (bce_with_logits_nonneg x t Ht) as (b & -> & Hb).
      apply focal_term_nonneg; assumption.
    + apply IHv.
  - apply IH.
Qed.

End FocalFacts.

Lemma same_shape_lengths (a b : matrix) :
  same_shape a b = true ->
  length (concat (zip_with (zip_with bce_with_logits) a b)) = length (concat a).
Proof.
  revert b. induction a as [|u a IH]; intros [|v b] H; cbn in *; try discriminate;
    [reflexivity|].
  apply andb_prop in H. destruct H as [Hl H]. apply Nat.eqb_eq in Hl.
  rewrite !length_app, zip_with_length, IH by exact H. lia.
Qed.

(** X20.  On a hard label the code computes the focal loss of the model's
    probability for the true class.  With [p = sigmoid(x)] the probability of
    the positive class, the term of a logit [x] is
    [alpha * (1 - p)^gamma * (- ln p)] for the target 1 and
    [alpha * (1 - (1 - p))^gamma * (- ln (1 - p))] for the target 0: the
    value [pt = exp(-bce)] is [p] and [1 - p], and the same [alpha] weights
    both classes. *)
Theorem focal_term_of_a_hard_label (torch_pow : fp -> R -> fp) (self : FocalLoss) (x : R) :
  let p := 1 / (1 + exp (- x)) in
  focal_term torch_pow self (bce_with_logits (Fin x) (Fin 1))
  = fmul (fmul (Fin (focal_alpha self)) (torch_pow (Fin (1 - p)) (focal_gamma self)))
         (Fin (- ln p))
  /\ focal_term torch_pow self (bce_with_logits (Fin x) (Fin 0))
     = fmul (fmul (Fin (focal_alpha self)) (torch_pow (Fin (1 - (1 - p))) (focal_gamma self)))
            (Fin (- ln (1 - p))).
Proof.
  cbv zeta. pose proof (sigmoid_range x) as [H0 H1]. rewrite !bce_with_logits_real.
  set (p := 1 / (1 + exp (- x))) in *.
  replace (- (1 * ln p + (1 - 1) * ln (1 - p))) with (- ln p) by ring.
  replace (- (0 * ln p + (1 - 0) * ln (1 - p))) with (- ln (1 - p)) by ring.
  rewrite !focal_term_real, !Ropp_involutive, !exp_ln by lra. split; reflexivity.
Qed.

(** X21.  For real logits, targets in [0, 1] of the same non-empty shape, a
    weight [alpha] that is not negative and a power that is a real number
    and not negative on bases in [0, 1), [FocalLoss.forward] returns a real
    number that is not negative. *)
Theorem focal_loss_is_not_negative (torch_pow : fp -> R -> fp) (self : FocalLoss)
    (xs ts : list (list R)) :
  (forall base, 0 <= base < 1 -> nonneg (torch_pow (Fin base) (focal_gamma self))) ->
  0 <= focal_alpha self ->
  Forall (Forall (fun t => 0 <= t <= 1)) ts ->
  same_shape (lift xs) (lift ts) = true ->
  concat xs <> [] ->
  exists loss,
    FocalLoss_forward torch_pow self (lift xs) (lift ts) = Ok (Fin loss) /\ 0 <= loss.
Proof.
  intros Hpow Ha Hts Hs Hne. unfold FocalLoss_forward. rewrite Hs.
  assert (Hn : nonneg (mean (concat (map (map (focal_term torch_pow self))
                                         (zip_with (zip_with bce_with_logits)
                                                   (lift xs) (lift ts)))))).
  { apply mean_nonneg; [|apply focal_terms_nonneg; assumption].
    intros C. apply (f_equal (@length fp)) in C.
    rewrite <- concat_map, length_map, (same_shape_lengths _ _ Hs) in C.
    unfold lift in C. rewrite <- concat_map, length_map in C.
    destruct (concat xs); [congruence|discriminate]. }
  destruct Hn as [Hf Hv].
  destruct (mean _) as [r| | |]; simpl in Hf; try contradiction.
  exists r. split; [reflexivity|exact Hv].
Qed.

(** Witness for [focal_loss_is_not_negative]: [FocalLoss()] with its
    default [gamma] 2 and [alpha] 0.25 on two logits. *)
Lemma focal_loss_is_not_negative_witness :
  exists loss,
    FocalLoss_forward sample_pow (FocalLoss_init 2 (25 / 100)) (lift [[0; 1]]) (lift [[1; 0]])
    = Ok (Fin loss) /\ 0 <= loss.
Proof.
  apply (focal_loss_is_not_negative sample_pow (FocalLoss_init 2 (25 / 100))
           [[0; 1]] [[1; 0]]).
  - intros base Hb. split; [exact I|]. simpl. apply Rmult_le_pos; lra.
  - simpl. lra.
  - repeat constructor; lra.
  - reflexivity.
  - discriminate.
Defined.

(** X22.  On inputs without elements (an empty batch, or rows of width 0)
    and targets of the same shape, [FocalLoss.forward] returns NaN, the mean
    of nothing. *)
Theorem focal_loss_of_nothing_is_nan (torch_pow : fp -> R -> fp) (self : FocalLoss)
    (inputs targets : matrix) :
  same_shape inputs targets = true ->
  concat inputs = [] ->
  FocalLoss_forward torch_pow self inputs targets = Ok NaN.
Proof.
  intros Hs He. unfold FocalLoss_forward. rewrite Hs. f_equal.
  assert (L : length (concat (map (map (focal_term torch_pow self))
                                  (zip_with (zip_with bce_with_logits) inputs targets)))
              = O).
  { rewrite <- concat_map, length_map, (same_shape_lengths _ _ Hs), He. reflexivity. }
  destruct (concat (map (map (focal_term torch_pow self))
                        (zip_with (zip_with bce_with_logits) inputs targets)));
    [|discriminate].
  unfold mean. cbn. destruct (Req_dec_T 0 0) as [_|N]; [|lra].
  unfold scale_inf. destruct (Rlt_dec 0 0); [lra|reflexivity].
Qed.

(** Witness for [focal_loss_of_nothing_is_nan]: two rows of width 0. *)
Lemma focal_loss_of_nothing_is_nan_witness :
  FocalLoss_forward sample_pow (FocalLoss_init 2 (25 / 100)) [[]; []] [[]; []] = Ok NaN.
Proof.
  apply (focal_loss_of_nothing_is_nan sample_pow (FocalLoss_init 2 (25 / 100))
           [[]; []] [[]; []]); reflexivity.
Defined.
